(** * zyric-backend: the image-batch OCR and question-generation pipeline

    A shallow embedding of
      - [app/controllers/question_controller.py]
        ([extract_text_from_images], [generate_questions_from_content],
         [process_images_and_generate_questions]),
      - [app/schemas/question.py] ([Question], [QuestionGenerationResponse]),
      - [app/routes/question_routes.py] ([generate_questions]),
    followed by the properties of the pipeline.

    Conventions.  A Python [str] is a [string]; a character stands for a code
    point below 256.  A raised exception is the left injection of a sum, a
    returned value the right one.  Everything the code does to the outside
    (reading an upload, decoding it, calling the vision model, sleeping,
    printing, calling the language model) is appended to an event log, and the
    read cursor of every upload is part of the state. *)

From Stdlib Require Import ZArith List String Ascii Bool Lia Arith.
From Stdlib Require Import Numbers.DecimalString.
Import ListNotations.
Open Scope string_scope.
Set Warnings "-register-all".

(** ** Python strings *)

Module PyStr.

Definition nl : string := String "010" EmptyString.
Definition dquote : ascii := "034"%char.

(** Literals of this file that contain double quotes are written with
    apostrophes and passed through [quoted]. *)
Fixpoint quoted (s : string) : string :=
  match s with
  | EmptyString => EmptyString
  | String c s' =>
      String (if Ascii.eqb c "'"%char then dquote else c) (quoted s')
  end.

(** [str(n)] for an integer. *)
Definition of_nat (n : nat) : string := NilZero.string_of_uint (Nat.to_uint n).
Definition of_Z (z : Z) : string := NilZero.string_of_int (Z.to_int z).

(** [str.lower] on code points below 256. *)
Definition lower_char (c : ascii) : ascii :=
  let n := nat_of_ascii c in
  if ((65 <=? n) && (n <=? 90)
      || (192 <=? n) && (n <=? 222) && negb (n =? 215))%nat
  then ascii_of_nat (n + 32) else c.

Fixpoint lower (s : string) : string :=
  match s with
  | EmptyString => EmptyString
  | String c s' => String (lower_char c) (lower s')
  end.

(** [str.isspace] on code points below 256. *)
Definition isspace (c : ascii) : bool :=
  let n := nat_of_ascii c in
  ((9 <=? n) && (n <=? 13) || (28 <=? n) && (n <=? 32)
   || (n =? 133) || (n =? 160))%nat.

Definition is_empty (s : string) : bool :=
  match s with EmptyString => true | _ => false end.

Fixpoint lstrip (s : string) : string :=
  match s with
  | EmptyString => EmptyString
  | String c s' => if isspace c then lstrip s' else s
  end.

Fixpoint rstrip (s : string) : string :=
  match s with
  | EmptyString => EmptyString
  | String c s' =>
      let r := rstrip s' in
      if isspace c && is_empty r then EmptyString else String c r
  end.

(** [s.strip()] *)
Definition strip (s : string) : string := rstrip (lstrip s).

(** [sub in s] *)
Fixpoint contains (sub s : string) : bool :=
  String.prefix sub s
  || match s with
     | EmptyString => false
     | String _ s' => contains sub s'
     end.

Fixpoint index_of (c : ascii) (s : string) : option nat :=
  match s with
  | EmptyString => None
  | String d s' =>
      if Ascii.eqb d c then Some 0%nat
      else option_map S (index_of c s')
  end.

Fixpoint rindex_of (c : ascii) (s : string) : option nat :=
  match s with
  | EmptyString => None
  | String d s' =>
      match rindex_of c s' with
      | Some i => Some (S i)
      | None => if Ascii.eqb d c then Some 0%nat else None
      end
  end.

Definition or_minus_one (o : option nat) : Z :=
  match o with Some i => Z.of_nat i | None => (-1)%Z end.

(** [s.find(c)] and [s.rfind(c)]: the index, or [-1]. *)
Definition find (c : ascii) (s : string) : Z := or_minus_one (index_of c s).
Definition rfind (c : ascii) (s : string) : Z := or_minus_one (rindex_of c s).

(** [s[a:b]], with Python's treatment of negative and oversized bounds. *)
Definition clamp (len i : Z) : Z :=
  if (i <? 0)%Z then Z.max 0 (i + len) else Z.min i len.

Definition slice (s : string) (a b : Z) : string :=
  let len := Z.of_nat (String.length s) in
  let a' := clamp len a in
  let b' := clamp len b in
  substring (Z.to_nat a') (Z.to_nat (b' - a')) s.

(** [s[:n]] *)
Definition upto (s : string) (n : Z) : string := slice s 0 n.

(** [s.split(sep)] for a one-character separator. *)
Fixpoint split (sep : ascii) (s : string) : list string :=
  match s with
  | EmptyString => [EmptyString]
  | String c s' =>
      if Ascii.eqb c sep then EmptyString :: split sep s'
      else match split sep s' with
           | [] => [String c EmptyString]
           | w :: ws => String c w :: ws
           end
  end.

(** [x in l] for a list of strings. *)
Definition mem (x : string) (l : list string) : bool :=
  existsb (String.eqb x) l.

End PyStr.

(** ** JSON values, as [json.loads] builds them *)

Inductive json : Type :=
| JNull
| JBool (b : bool)
| JInt (n : Z)
| JFloat (literal : string)
| JString (s : string)
| JArray (items : list json)
| JObject (members : list (string * json)).

Module Dict.

(** A [dict] with string keys, in insertion order. *)
Definition t := list (string * json).

Fixpoint get (k : string) (d : t) : option json :=
  match d with
  | [] => None
  | (k', v) :: d' => if String.eqb k k' then Some v else get k d'
  end.

(** [d[k] = v]: an existing key keeps its position. *)
Fixpoint set (k : string) (v : json) (d : t) : t :=
  match d with
  | [] => [(k, v)]
  | (k', v') :: d' =>
      if String.eqb k k' then (k, v) :: d' else (k', v') :: set k v d'
  end.

Definition keys (d : t) : list string := map fst d.

End Dict.

(** ** Exceptions *)

Inductive Exception : Type :=
| HTTPException (status_code : Z) (detail : string)
| JSONDecodeError (msg : string) (pos : nat)
| ValidationError (model : string) (errors : list (string * string))
| TypeError (msg : string)
| Error (msg : string).

Definition Result (A : Type) : Type := (Exception + A)%type.

Definition HTTP_400_BAD_REQUEST : Z := 400.
Definition HTTP_500_INTERNAL_SERVER_ERROR : Z := 500.

Definition is_HTTPException (e : Exception) : bool :=
  match e with HTTPException _ _ => true | _ => false end.

Definition is_JSONDecodeError (e : Exception) : bool :=
  match e with JSONDecodeError _ _ => true | _ => false end.

(** ** A reference JSON reader

    [json.loads] belongs to the Python library, so the pipeline below takes it
    as a capability of its environment.  [JsonRef.loads] is a reader for the
    JSON grammar over the alphabet of this model, written after the library's
    scanner (whitespace, the three constants, numbers, strings with escapes,
    arrays, objects, "extra data" after the value); the concrete runs of this
    file are made with it. *)

Module JsonRef.

Definition PR (A : Type) : Type := ((string * string) + (A * string))%type.

Definition is_ws (c : ascii) : bool :=
  Ascii.eqb c " "%char || Ascii.eqb c "009"%char
  || Ascii.eqb c "010"%char || Ascii.eqb c "013"%char.

Fixpoint skip_ws (s : string) : string :=
  match s with
  | String c s' => if is_ws c then skip_ws s' else s
  | EmptyString => s
  end.

Definition is_digit (c : ascii) : bool :=
  let n := nat_of_ascii c in ((48 <=? n) && (n <=? 57))%nat.

Fixpoint span_digits (s : string) : string * string :=
  match s with
  | String c s' =>
      if is_digit c
      then let '(ds, rest) := span_digits s' in (String c ds, rest)
      else (EmptyString, s)
  | EmptyString => (EmptyString, s)
  end.

Fixpoint Z_of_digits (acc : Z) (ds : string) : Z :=
  match ds with
  | EmptyString => acc
  | String c ds' =>
      Z_of_digits (10 * acc + Z.of_nat (nat_of_ascii c - 48)) ds'
  end.

Definition hex_value (c : ascii) : option nat :=
  let n := nat_of_ascii c in
  if ((48 <=? n) && (n <=? 57))%nat then Some (n - 48)%nat
  else if ((65 <=? n) && (n <=? 70))%nat then Some (n - 55)%nat
  else if ((97 <=? n) && (n <=? 102))%nat then Some (n - 87)%nat
  else None.

Definition escape (c : ascii) : option ascii :=
  if Ascii.eqb c PyStr.dquote then Some PyStr.dquote
  else if Ascii.eqb c "\"%char then Some "\"%char
  else if Ascii.eqb c "/"%char then Some "/"%char
  else if Ascii.eqb c "b"%char then Some "008"%char
  else if Ascii.eqb c "f"%char then Some "012"%char
  else if Ascii.eqb c "n"%char then Some "010"%char
  else if Ascii.eqb c "r"%char then Some "013"%char
  else if Ascii.eqb c "t"%char then Some "009"%char
  else None.

Definition push (c : ascii) (r : PR string) : PR string :=
  match r with
  | inl e => inl e
  | inr (s, rest) => inr (String c s, rest)
  end.

(** The body of a string, after its opening quote. *)
Fixpoint scan_string (s : string) : PR string :=
  match s with
  | EmptyString => inl ("Unterminated string starting at", s)
  | String c s' =>
      if Ascii.eqb c PyStr.dquote then inr (EmptyString, s')
      else if Ascii.eqb c "\"%char then
        match s' with
        | EmptyString => inl ("Unterminated string starting at", s')
        | String e s'' =>
            if Ascii.eqb e "u"%char then
              match s'' with
              | String h1 (String h2 (String h3 (String h4 r))) =>
                  match hex_value h1, hex_value h2,
                        hex_value h3, hex_value h4 with
                  | Some 0%nat, Some 0%nat, Some a, Some b =>
                      push (ascii_of_nat (16 * a + b))
                           (scan_string r)
                  | _, _, _, _ => inl ("Invalid \uXXXX escape", s')
                  end
              | _ => inl ("Invalid \uXXXX escape", s')
              end
            else
              match escape e with
              | Some x => push x (scan_string s'')
              | None => inl ("Invalid \escape", s)
              end
        end
      else if (nat_of_ascii c <? 32)%nat
      then inl ("Invalid control character at", s)
      else push c (scan_string s')
  end.

Fixpoint strip_prefix (p s : string) : option string :=
  match p, s with
  | EmptyString, _ => Some s
  | String a p', String b s' =>
      if Ascii.eqb a b then strip_prefix p' s' else None
  | String _ _, EmptyString => None
  end.

(** An optional minus, an integer part without a leading zero, an optional
    fraction, an optional exponent. *)
Definition scan_number (s : string) : option (json * string) :=
  let '(neg, s1) :=
    match s with
    | String "-"%char r => (true, r)
    | _ => (false, s)
    end in
  let int_part :=
    match s1 with
    | String c r =>
        if Ascii.eqb c "0"%char then Some ("0", r)
        else if is_digit c then Some (span_digits s1)
        else None
    | EmptyString => None
    end in
  match int_part with
  | None => None
  | Some (ds, r1) =>
      let '(frac, r2) :=
        match r1 with
        | String "."%char r =>
            let '(fs, r') := span_digits r in
            if PyStr.is_empty fs then (EmptyString, r1)
            else ("." ++ fs, r')
        | _ => (EmptyString, r1)
        end in
      let '(expo, r3) :=
        match r2 with
        | String c r =>
            if Ascii.eqb c "e"%char || Ascii.eqb c "E"%char then
              let '(sign, r') :=
                match r with
                | String "+"%char t => ("+", t)
                | String "-"%char t => ("-", t)
                | _ => (EmptyString, r)
                end in
              let '(es, r'') := span_digits r' in
              if PyStr.is_empty es then (EmptyString, r2)
              else (String c (sign ++ es), r'')
            else (EmptyString, r2)
        | EmptyString => (EmptyString, r2)
        end in
      let sign := if neg then "-" else EmptyString in
      if PyStr.is_empty frac && PyStr.is_empty expo
      then Some (JInt ((if neg then -1 else 1) * Z_of_digits 0 ds), r3)
      else Some (JFloat (sign ++ ds ++ frac ++ expo), r3)
  end.

Definition scan_constant (s : string) : option (json * string) :=
  match strip_prefix "null" s with
  | Some r => Some (JNull, r)
  | None =>
  match strip_prefix "true" s with
  | Some r => Some (JBool true, r)
  | None =>
  match strip_prefix "false" s with
  | Some r => Some (JBool false, r)
  | None =>
  match scan_number s with
  | Some x => Some x
  | None =>
  match strip_prefix "NaN" s with
  | Some r => Some (JFloat "NaN", r)
  | None =>
  match strip_prefix "Infinity" s with
  | Some r => Some (JFloat "Infinity", r)
  | None =>
  match strip_prefix "-Infinity" s with
  | Some r => Some (JFloat "-Infinity", r)
  | None => None
  end end end end end end end.

Fixpoint value (fuel : nat) (s : string) : PR json :=
  match fuel with
  | O => inl ("Expecting value", s)
  | S fuel' =>
      match s with
      | EmptyString => inl ("Expecting value", s)
      | String c r =>
          if Ascii.eqb c PyStr.dquote then
            match scan_string r with
            | inl e => inl e
            | inr (str, rest) => inr (JString str, rest)
            end
          else if Ascii.eqb c "{"%char then
            match skip_ws r with
            | String "}"%char rest => inr (JObject [], rest)
            | r1 => members fuel' r1 []
            end
          else if Ascii.eqb c "["%char then
            match skip_ws r with
            | String "]"%char rest => inr (JArray [], rest)
            | r1 => elements fuel' r1 []
            end
          else
            match scan_constant s with
            | Some x => inr x
            | None => inl ("Expecting value", s)
            end
      end
  end
with elements (fuel : nat) (s : string) (acc : list json) : PR json :=
  match fuel with
  | O => inl ("Expecting value", s)
  | S fuel' =>
      match value fuel' s with
      | inl e => inl e
      | inr (v, rest) =>
          match skip_ws rest with
          | String ","%char r => elements fuel' (skip_ws r) (acc ++ [v])
          | String "]"%char r => inr (JArray (acc ++ [v]), r)
          | r1 => inl ("Expecting ',' delimiter", r1)
          end
      end
  end
with members (fuel : nat) (s : string) (acc : Dict.t) : PR json :=
  match fuel with
  | O => inl ("Expecting value", s)
  | S fuel' =>
      match s with
      | String c r =>
          if Ascii.eqb c PyStr.dquote then
            match scan_string r with
            | inl e => inl e
            | inr (k, rest) =>
                match skip_ws rest with
                | String ":"%char r2 =>
                    match value fuel' (skip_ws r2) with
                    | inl e => inl e
                    | inr (v, rest2) =>
                        match skip_ws rest2 with
                        | String ","%char r3 =>
                            members fuel' (skip_ws r3) (Dict.set k v acc)
                        | String "}"%char r3 =>
                            inr (JObject (Dict.set k v acc), r3)
                        | r3 => inl ("Expecting ',' delimiter", r3)
                        end
                    end
                | r2 => inl ("Expecting ':' delimiter", r2)
                end
            end
          else
            inl ("Expecting property name enclosed in double quotes", s)
      | EmptyString =>
          inl ("Expecting property name enclosed in double quotes", s)
      end
  end.

Definition loads (s : string) : Result json :=
  let at_rest (m : string) (rest : string) :=
    JSONDecodeError m (String.length s - String.length rest) in
  match value (2 * String.length s + 4) (skip_ws s) with
  | inl (m, rest) => inl (at_rest m rest)
  | inr (v, rest) =>
      match skip_ws rest with
      | EmptyString => inr v
      | r => inl (at_rest "Extra data" r)
      end
  end.

End JsonRef.

(** ** Uploads, events, and the state of a request *)

(** A FastAPI [UploadFile]: the declared MIME type, the uploaded bytes and the
    read cursor of the underlying file. *)
Record UploadFile : Type := {
  content_type : option string;
  file : list Byte.byte;
  position : nat
}.

(** [await image_file.read()]: the bytes from the cursor on; the cursor ends
    at the end of the file. *)
Definition read (f : UploadFile) : list Byte.byte * UploadFile :=
  (skipn (position f) (file f),
   {| content_type := content_type f;
      file := file f;
      position := Nat.max (position f) (List.length (file f)) |}).

(** [await image_file.seek(offset)] *)
Definition seek (f : UploadFile) (offset : nat) : UploadFile :=
  {| content_type := content_type f; file := file f; position := offset |}.

Inductive Event : Type :=
| Read (idx : nat)
| Decode (idx : nat)
| VisionCall (idx attempt : nat)
| Sleep (seconds : Z)
| Seek (idx offset : nat)
| Print (line : string)
| LlmCall (messages : list (string * string)).

Record World : Type := {
  images : list UploadFile;
  log : list Event
}.

Definition emit (w : World) (evs : list Event) : World :=
  {| images := images w; log := (log w ++ evs)%list |}.

(** ** The environment: libraries and remote models

    What the controller calls but does not implement.  [generate_content] is
    the vision model; it is indexed by the image and the attempt, so that any
    sequence of answers of the remote service is an environment.  [invoke] is
    the language model.  [scaled dim max_size longest] is
    [int(dim * (max_size / longest))], which Python computes in double
    precision.  [lib_str] is [str(e)] of a library exception and [lax_str] is
    what pydantic makes of a number or a boolean in a [str] field; both vary
    with the library's version. *)
Record Env : Type := {
  Image : Type;
  Image_open : list Byte.byte -> Result Image;
  mode : Image -> string;
  convert : Image -> string -> Image;
  size : Image -> Z * Z;
  resize : Image -> Z * Z -> Image;
  scaled : Z -> Z -> Z -> Z;
  generate_content : nat -> nat -> string -> Image -> Result string;
  invoke : list (string * string) -> Result string;
  json_loads : string -> Result json;
  lib_str : Exception -> string;
  lax_str : json -> option string
}.

(** [str(e)] *)
Definition exception_str (E : Env) (e : Exception) : string :=
  match e with
  | Error m => m
  | _ => lib_str E e
  end.

(** ** [extract_text_from_images] *)

Definition max_retries : nat := 3.
Definition retry_delay : Z := 2.
Definition max_size : Z := 1024.

Definition ocr_prompt : string :=
  "Extract all text from this image. Include both Bangla and English text.".

(** Lines 44-53: conversion to RGB and downscaling of large images. *)
Definition prepare (E : Env) (image : Image E) : Image E :=
  let image :=
    if negb (String.eqb (mode E image) "RGB") then convert E image "RGB"
    else image in
  let '(width, height) := size E image in
  let longest := Z.max width height in
  if (longest >? max_size)%Z
  then resize E image
         (scaled E width max_size longest, scaled E height max_size longest)
  else image.

(** Line 61: the entry appended for image [idx]. *)
Definition entry (idx : nat) (extracted_text : string) : string :=
  "--- Image " ++ PyStr.of_nat (idx + 1) ++ " ---" ++ PyStr.nl
  ++ extracted_text ++ PyStr.nl.

(** Line 73: the test for a retryable failure. *)
Definition is_transient (error_msg : string) : bool :=
  PyStr.contains "timeout" (PyStr.lower error_msg)
  || PyStr.contains "504" error_msg.

Definition extraction_error (idx : nat) (error_msg : string) : Exception :=
  HTTPException HTTP_500_INTERNAL_SERVER_ERROR
    ("Error extracting text from image " ++ PyStr.of_nat (idx + 1)
     ++ " after " ++ PyStr.of_nat max_retries ++ " attempts: " ++ error_msg).

Definition retry_notice (idx attempt : nat) : string :=
  "Attempt " ++ PyStr.of_nat (attempt + 1) ++ " failed for image "
  ++ PyStr.of_nat (idx + 1) ++ ", retrying in " ++ PyStr.of_Z retry_delay
  ++ "s...".

(** Lines 37-67, the body of the [try]: the text on success, the exception
    otherwise, with the upload and the events it leaves behind. *)
Definition try_body (E : Env) (idx attempt : nat) (f : UploadFile)
  : Result string * UploadFile * list Event :=
  let '(image_content, f1) := read f in
  match Image_open E image_content with
  | inl e => (inl e, f1, [Read idx; Decode idx])
  | inr image =>
      match generate_content E idx attempt ocr_prompt (prepare E image) with
      | inl e => (inl e, f1, [Read idx; Decode idx; VisionCall idx attempt])
      | inr extracted_text =>
          (inr extracted_text, seek f1 0,
           [Read idx; Decode idx; VisionCall idx attempt; Seek idx 0])
      end
  end.

(** Lines 36-83, [for attempt in range(max_retries)], from attempt [attempt]
    with [remaining] iterations left.  It returns the list
    [all_extracted_text] (unchanged if the loop runs out), or the exception
    raised. *)
Fixpoint attempts (E : Env) (idx remaining attempt : nat)
    (all_extracted_text : list string) (f : UploadFile)
  : Result (list string) * UploadFile * list Event :=
  match remaining with
  | O => (inr all_extracted_text, f, [])
  | S remaining' =>
      let '(r, f1, evs) := try_body E idx attempt f in
      match r with
      | inr extracted_text =>
          (inr (all_extracted_text ++ [entry idx extracted_text])%list, f1, evs)
      | inl e =>
          let error_msg := exception_str E e in
          if is_transient error_msg && (attempt <? max_retries - 1)%nat
          then
            let '(r', f2, evs') :=
              attempts E idx remaining' (S attempt) all_extracted_text
                       (seek f1 0) in
            (r', f2,
             (evs ++ [Print (retry_notice idx attempt); Sleep retry_delay;
                      Seek idx 0] ++ evs')%list)
          else (inl (extraction_error idx error_msg), f1, evs)
      end
  end.

(** Lines 32-83, [for idx, image_file in enumerate(images)], from index
    [idx]. *)
Fixpoint each_image (E : Env) (idx : nat) (files : list UploadFile)
    (all_extracted_text : list string)
  : Result (list string) * list UploadFile * list Event :=
  match files with
  | [] => (inr all_extracted_text, [], [])
  | image_file :: rest =>
      let '(r, f', evs) :=
        attempts E idx max_retries 0 all_extracted_text image_file in
      match r with
      | inl e => (inl e, f' :: rest, evs)
      | inr all_extracted_text' =>
          let '(r', rest', evs') :=
            each_image E (S idx) rest all_extracted_text' in
          (r', f' :: rest', (evs ++ evs')%list)
      end
  end.

Definition extract_text_from_images (E : Env) (w : World)
  : Result string * World :=
  let '(r, files', evs) := each_image E 0 (images w) [] in
  let w' := {| images := files'; log := (log w ++ evs)%list |} in
  match r with
  | inl e => (inl e, w')
  | inr all_extracted_text =>
      (inr (String.concat PyStr.nl all_extracted_text), w')
  end.

(** ** [app/schemas/question.py] *)

Record Question : Type := {
  question : string;
  question_type : string;
  options : option (list string);
  correct_answer : option string;
  difficulty : string;
  subject : string
}.

(** The field [subject] of the response is [response_subject] here, since
    [subject] already names the field of [Question]. *)
Record QuestionGenerationResponse : Type := {
  success : bool;
  response_subject : string;
  total_questions : Z;
  questions : list Question;
  extracted_text_preview : option string
}.

(** Validation of one value against the annotation [str]. *)
Definition str_value (E : Env) (v : json) : option string :=
  match v with
  | JString s => Some s
  | JInt _ | JFloat _ | JBool _ => lax_str E v
  | JNull | JArray _ | JObject _ => None
  end.

Fixpoint str_values (E : Env) (l : list json) : option (list string) :=
  match l with
  | [] => Some []
  | v :: l' =>
      match str_value E v, str_values E l' with
      | Some s, Some ss => Some (s :: ss)
      | _, _ => None
      end
  end.

Definition FieldResult (A : Type) : Type := (list (string * string) + A)%type.

(** A field declared [name: str]. *)
Definition required_str (E : Env) (kwargs : Dict.t) (name : string)
  : FieldResult string :=
  match Dict.get name kwargs with
  | None => inl [(name, "missing")]
  | Some v =>
      match str_value E v with
      | Some s => inr s
      | None => inl [(name, "invalid")]
      end
  end.

(** A field declared [name: Optional[str] = None]. *)
Definition optional_str (E : Env) (kwargs : Dict.t) (name : string)
  : FieldResult (option string) :=
  match Dict.get name kwargs with
  | None | Some JNull => inr None
  | Some v =>
      match str_value E v with
      | Some s => inr (Some s)
      | None => inl [(name, "invalid")]
      end
  end.

(** A field declared [name: Optional[List[str]] = None]. *)
Definition optional_str_list (E : Env) (kwargs : Dict.t) (name : string)
  : FieldResult (option (list string)) :=
  match Dict.get name kwargs with
  | None | Some JNull => inr None
  | Some (JArray l) =>
      match str_values E l with
      | Some ss => inr (Some ss)
      | None => inl [(name, "invalid")]
      end
  | Some _ => inl [(name, "invalid")]
  end.

Definition field_errors {A : Type} (r : FieldResult A)
  : list (string * string) :=
  match r with inl errs => errs | inr _ => [] end.

(** The constructor call of line 178, with its keyword arguments unpacked
    from the item [q], which must be a mapping; unknown keys are ignored,
    every field is validated and the errors of all fields are reported
    together. *)
Definition Question_init (E : Env) (q : json) : Result Question :=
  match q with
  | JObject kwargs =>
      let f_question := required_str E kwargs "question" in
      let f_question_type := required_str E kwargs "question_type" in
      let f_options := optional_str_list E kwargs "options" in
      let f_correct_answer := optional_str E kwargs "correct_answer" in
      let f_difficulty := required_str E kwargs "difficulty" in
      let f_subject := required_str E kwargs "subject" in
      match f_question, f_question_type, f_options,
            f_correct_answer, f_difficulty, f_subject with
      | inr a, inr b, inr c, inr d, inr e, inr f =>
          inr {| question := a; question_type := b; options := c;
                 correct_answer := d; difficulty := e; subject := f |}
      | _, _, _, _, _, _ =>
          inl (ValidationError "Question"
                 (field_errors f_question ++ field_errors f_question_type
                  ++ field_errors f_options ++ field_errors f_correct_answer
                  ++ field_errors f_difficulty ++ field_errors f_subject)%list)
      end
  | _ => inl (TypeError "argument after ** must be a mapping")
  end.

(** [for q in questions_data]: what iterating over a JSON value yields. *)
Definition iterate (v : json) : Result (list json) :=
  match v with
  | JArray l => inr l
  | JObject d => inr (map JString (Dict.keys d))
  | JString s =>
      inr (map (fun c => JString (String c EmptyString))
               (list_ascii_of_string s))
  | JNull | JBool _ | JInt _ | JFloat _ =>
      inl (TypeError "object is not iterable")
  end.

(** Line 178, the list comprehension over the items of [questions_data]: the
    first exception ends it. *)
Fixpoint construct_questions (E : Env) (items : list json)
  : Result (list Question) :=
  match items with
  | [] => inr []
  | q :: items' =>
      match Question_init E q with
      | inl e => inl e
      | inr x =>
          match construct_questions E items' with
          | inl e => inl e
          | inr xs => inr (x :: xs)
          end
      end
  end.

(** ** [generate_questions_from_content] *)

Definition default_question_types : list string :=
  ["multiple_choice"; "short_answer"; "true_false"].

Definition indent : string := "            ".

(** Lines 112-135: the system message after substitution. *)
Definition system_message (subject num_questions difficulty question_types
                           : string) : string :=
  String.concat PyStr.nl
    [ "You are an expert educator creating educational questions.";
      indent ++ "Generate questions based on the provided content for the subject: "
        ++ subject ++ ".";
      indent ++ "The content may be in Bangla (Bengali) or English.";
      indent;
      indent ++ "Generate " ++ num_questions
        ++ " questions with the following specifications:";
      indent ++ "- Difficulty level: " ++ difficulty;
      indent ++ "- Question types: " ++ question_types;
      indent ++ "- Mix different question types if multiple types are requested";
      indent ++ "- For multiple choice questions, provide 4 options labeled A, B, C, D";
      indent ++ "- Always include the correct answer";
      indent ++ "- Ensure questions are clear, educational, and test understanding of the content";
      indent;
      indent ++ "Return the response as a valid JSON array of question objects with this structure:";
      indent ++ "[";
      indent ++ "    {";
      indent ++ PyStr.quoted "        'question': 'Question text here?',";
      indent ++ PyStr.quoted "        'question_type': 'multiple_choice|short_answer|true_false',";
      indent ++ PyStr.quoted "        'options': ['A. Option 1', 'B. Option 2', 'C. Option 3', 'D. Option 4'] (only for multiple_choice),";
      indent ++ PyStr.quoted "        'correct_answer': 'Correct answer here',";
      indent ++ PyStr.quoted "        'difficulty': '" ++ difficulty
        ++ PyStr.quoted "',";
      indent ++ PyStr.quoted "        'subject': '" ++ subject
        ++ PyStr.quoted "'";
      indent ++ "    }";
      indent ++ "]";
      indent ].

(** Lines 140-146, [prompt_template.format_messages]. *)
Definition format_messages (subject : string) (num_questions : Z)
    (difficulty : string) (question_types : list string) (content : string)
  : list (string * string) :=
  [ ("system",
     system_message subject (PyStr.of_Z num_questions) difficulty
       (String.concat ", " question_types));
    ("user",
     "Content to generate questions from:" ++ PyStr.nl ++ PyStr.nl
     ++ PyStr.upto content 8000) ].

Definition empty_response : Exception :=
  HTTPException HTTP_500_INTERNAL_SERVER_ERROR "LLM returned an empty response".

Definition no_json_array (response_text : string) : Exception :=
  HTTPException HTTP_500_INTERNAL_SERVER_ERROR
    ("Could not find JSON array in response. Response preview: "
     ++ PyStr.upto response_text 200).

(** Line 181 *)
Definition text_preview (content : string) : string :=
  if (Z.of_nat (String.length content) >? 500)%Z
  then PyStr.upto content 500 ++ "..."
  else content.

(** Lines 157-189: from the stripped response to the returned value. *)
Definition parse_response (E : Env) (content subject response_text : string)
  : Result QuestionGenerationResponse :=
  if PyStr.is_empty response_text then inl empty_response
  else
    let start_idx := PyStr.find "["%char response_text in
    let end_idx := (PyStr.rfind "]"%char response_text + 1)%Z in
    if negb (start_idx =? -1)%Z && negb (end_idx =? 0)%Z then
      let json_str := PyStr.slice response_text start_idx end_idx in
      match json_loads E json_str with
      | inl e => inl e
      | inr questions_data =>
          match iterate questions_data with
          | inl e => inl e
          | inr items =>
              match construct_questions E items with
              | inl e => inl e
              | inr qs =>
                  inr {| success := true;
                         response_subject := subject;
                         total_questions := Z.of_nat (List.length qs);
                         questions := qs;
                         extracted_text_preview :=
                           Some (text_preview content) |}
              end
          end
      end
    else inl (no_json_array response_text).

(** Lines 191-200, the two [except] clauses; [response_text] is [None] while
    the local variable is not bound yet. *)
Definition generation_error (E : Env) (response_text : option string)
    (e : Exception) : Exception :=
  if is_JSONDecodeError e then
    HTTPException HTTP_500_INTERNAL_SERVER_ERROR
      ("Failed to parse generated questions: " ++ exception_str E e
       ++ ". Response was: "
       ++ match response_text with
          | Some t => PyStr.upto t 300
          | None => "No response"
          end)
  else
    HTTPException HTTP_500_INTERNAL_SERVER_ERROR
      ("Error generating questions: " ++ exception_str E e).

Definition generate_questions_from_content (E : Env)
    (content subject : string) (num_questions : Z) (difficulty : string)
    (question_types : option (list string)) (w : World)
  : Result QuestionGenerationResponse * World :=
  let question_types :=
    match question_types with
    | None => default_question_types
    | Some l => l
    end in
  let messages :=
    format_messages subject num_questions difficulty question_types content in
  let w1 := emit w [LlmCall messages] in
  match invoke E messages with
  | inl e => (inl (generation_error E None e), w1)
  | inr response_content =>
      let response_text := PyStr.strip response_content in
      let w2 :=
        emit w1 [Print ("LLM Response: " ++ PyStr.upto response_text 500
                        ++ "...")] in
      match parse_response E content subject response_text with
      | inl e => (inl (generation_error E (Some response_text) e), w2)
      | inr response => (inr response, w2)
      end
  end.

(** ** [process_images_and_generate_questions] *)

Definition valid_image_types : list string :=
  ["image/jpeg"; "image/jpg"; "image/png"; "image/webp"].

Definition valid_content_type (image : UploadFile) : bool :=
  match content_type image with
  | Some t => PyStr.mem t valid_image_types
  | None => false
  end.

Definition invalid_file_type (image : UploadFile) : Exception :=
  HTTPException HTTP_400_BAD_REQUEST
    ("Invalid file type: "
     ++ match content_type image with Some t => t | None => "None" end
     ++ ". Allowed types: jpeg, jpg, png, webp").

Definition process_images_and_generate_questions (E : Env)
    (subject : string) (num_questions : Z) (difficulty : string)
    (question_types : option (list string)) (w : World)
  : Result QuestionGenerationResponse * World :=
  if (List.length (images w) <? 1)%nat then
    (inl (HTTPException HTTP_400_BAD_REQUEST "At least one image is required"),
     w)
  else
    match List.find (fun image => negb (valid_content_type image)) (images w)
    with
    | Some image => (inl (invalid_file_type image), w)
    | None =>
        match extract_text_from_images E w with
        | (inl e, w1) => (inl e, w1)
        | (inr extracted_content, w1) =>
            if PyStr.is_empty (PyStr.strip extracted_content) then
              (inl (HTTPException HTTP_400_BAD_REQUEST
                      "No text could be extracted from the images"), w1)
            else
              generate_questions_from_content E extracted_content subject
                num_questions difficulty question_types w1
        end
    end.

(** ** [app/routes/question_routes.py] *)

Definition valid_types : list string :=
  ["multiple_choice"; "short_answer"; "true_false"].

Definition valid_difficulties : list string := ["easy"; "medium"; "hard"].

(** Line 51 *)
Definition parse_types (question_types : string) : option (list string) :=
  if PyStr.is_empty question_types then None
  else Some (map PyStr.strip (PyStr.split ","%char question_types)).

(** Lines 42-88, the handler with its arguments bound. *)
Definition generate_questions (E : Env) (subject : string) (num_questions : Z)
    (difficulty question_types : string) (w : World)
  : Result QuestionGenerationResponse * World :=
  let n := List.length (images w) in
  if (n <? 2)%nat then
    (inl (HTTPException HTTP_400_BAD_REQUEST
            ("At least 2 images are required. You provided " ++ PyStr.of_nat n
             ++ " image(s).")), w)
  else
    let types_list := parse_types question_types in
    match
      match types_list with
      | Some l => List.find (fun qt => negb (PyStr.mem qt valid_types)) l
      | None => None
      end
    with
    | Some qt =>
        (inl (HTTPException HTTP_400_BAD_REQUEST
                ("Invalid question type: " ++ qt ++ ". Valid types: "
                 ++ String.concat ", " valid_types)), w)
    | None =>
        if negb (PyStr.mem difficulty valid_difficulties) then
          (inl (HTTPException HTTP_400_BAD_REQUEST
                  ("Invalid difficulty: " ++ difficulty ++ ". Valid values: "
                   ++ String.concat ", " valid_difficulties)), w)
        else
          match process_images_and_generate_questions E subject num_questions
                  difficulty types_list w with
          | (inr result, w') => (inr result, w')
          | (inl e, w') =>
              if is_HTTPException e then (inl e, w')
              else
                (inl (HTTPException HTTP_500_INTERNAL_SERVER_ERROR
                        ("An error occurred while generating questions: "
                         ++ exception_str E e)), w')
          end
    end.

(** The form of the request, lines 10-19: a field the client leaves out takes
    its [Form] default. *)
Record Form : Type := {
  form_subject : string;
  form_num_questions : option Z;
  form_difficulty : option string;
  form_question_types : option string
}.

Definition or_default {A : Type} (o : option A) (d : A) : A :=
  match o with Some x => x | None => d end.

Definition post_generate_questions (E : Env) (form : Form) (w : World)
  : Result QuestionGenerationResponse * World :=
  generate_questions E (form_subject form)
    (or_default (form_num_questions form) 10%Z)
    (or_default (form_difficulty form) "medium")
    (or_default (form_question_types form)
       "multiple_choice,short_answer,true_false")
    w.

(** ** A concrete environment

    Used for the concrete runs below.  An image is its bytes; an upload with
    no bytes left to read does not decode, so a retry that forgot to rewind
    the cursor would fail.  The two models answer from the tables [vision]
    and [llm]. *)

Module Demo.

Definition str (e : Exception) : string :=
  match e with
  | HTTPException c d => PyStr.of_Z c ++ ": " ++ d
  | JSONDecodeError m p => m ++ ": (char " ++ PyStr.of_nat p ++ ")"
  | ValidationError m errs =>
      PyStr.of_nat (List.length errs) ++ " validation error for " ++ m
  | TypeError m => m
  | Error m => m
  end.

Definition env (vision : nat -> nat -> Result string)
    (llm : list (string * string) -> Result string) : Env :=
  {| Image := list Byte.byte;
     Image_open := fun content =>
       match content with
       | [] => inl (Error "cannot identify image file")
       | _ => inr content
       end;
     mode := fun _ => "RGB";
     convert := fun image _ => image;
     size := fun _ => (640, 480)%Z;
     resize := fun image _ => image;
     scaled := fun dim m longest => (dim * m / longest)%Z;
     generate_content := fun idx attempt _ _ => vision idx attempt;
     invoke := llm;
     json_loads := JsonRef.loads;
     lib_str := str;
     lax_str := fun _ => None |}.

Definition upload (mime : string) : UploadFile :=
  {| content_type := Some mime; file := [Byte.x89; Byte.x50]; position := 0 |}.

Definition request (files : list UploadFile) : World :=
  {| images := files; log := [] |}.

End Demo.

(** * Properties *)

(** ** Specification vocabulary for the extraction *)

(** One attempt of the OCR capability on the bytes of an upload: decoding,
    preparation, and the call of the vision model. *)
Definition ocr (E : Env) (idx attempt : nat) (content : list Byte.byte)
  : Result string :=
  match Image_open E content with
  | inl e => inl e
  | inr image => generate_content E idx attempt ocr_prompt (prepare E image)
  end.

(** The capability answers [text] for image [idx] at attempt [k], after [k]
    transient failures. *)
Definition succeeds_at (E : Env) (idx k : nat) (f : UploadFile)
    (text : string) : Prop :=
  (forall j, (j < k)%nat ->
     exists e, ocr E idx j (file f) = inl e
               /\ is_transient (exception_str E e) = true)
  /\ ocr E idx k (file f) = inr text.

Definition succeeds_within (E : Env) (idx : nat) (f : UploadFile)
    (text : string) : Prop :=
  exists k, (k < max_retries)%nat /\ succeeds_at E idx k f text.

(** Every upload of the batch is fresh (cursor at the start) and the
    capability eventually answers [texts], image by image, from [idx] on. *)
Fixpoint all_succeed (E : Env) (idx : nat) (files : list UploadFile)
    (texts : list string) : Prop :=
  match files, texts with
  | [], [] => True
  | f :: files', t :: texts' =>
      position f = 0%nat /\ succeeds_within E idx f t
      /\ all_succeed E (S idx) files' texts'
  | _, _ => False
  end.

(** The same, with every answer at the first attempt. *)
Fixpoint all_succeed_at_once (E : Env) (idx : nat) (files : list UploadFile)
    (texts : list string) : Prop :=
  match files, texts with
  | [], [] => True
  | f :: files', t :: texts' =>
      position f = 0%nat /\ ocr E idx 0 (file f) = inr t
      /\ all_succeed_at_once E (S idx) files' texts'
  | _, _ => False
  end.

(** The text expected for the answers [texts], the first of them being image
    number [k]: a marker line, the text, and an empty line before the next
    marker. *)
Fixpoint expected_text (k : nat) (texts : list string) : string :=
  match texts with
  | [] => EmptyString
  | t :: texts' =>
      "--- Image " ++ PyStr.of_nat k ++ " ---" ++ PyStr.nl ++ t ++ PyStr.nl
      ++ match texts' with
         | [] => EmptyString
         | _ :: _ => PyStr.nl ++ expected_text (S k) texts'
         end
  end.

(** The entries appended for the answers [texts], the first being the one of
    image index [idx]. *)
Fixpoint entries (idx : nat) (texts : list string) : list string :=
  match texts with
  | [] => []
  | t :: texts' => entry idx t :: entries (S idx) texts'
  end.

(** ** Specification vocabulary for the generation *)

(** The messages [generate_questions_from_content] sends to the language
    model. *)
Definition prompt_for (subject : string) (num_questions : Z)
    (difficulty : string) (question_types : option (list string))
    (content : string) : list (string * string) :=
  format_messages subject num_questions difficulty
    (or_default question_types default_question_types) content.

(** The first ['['] and the last [']'] of [text] are both present. *)
Definition brackets_found (text : string) : Prop :=
  PyStr.find "["%char text <> (-1)%Z /\ PyStr.rfind "]"%char text <> (-1)%Z.

(** The part of [text] from its first ['['] to its last [']'], both
    included. *)
Definition bracketed (text : string) : string :=
  PyStr.slice text (PyStr.find "["%char text)
    (PyStr.rfind "]"%char text + 1)%Z.

(** The raw model output [raw] gets as far as the conversion into [Question]
    records, with the items [items]. *)
Definition reaches_coercion (E : Env) (raw : string) (items : list json)
  : Prop :=
  PyStr.strip raw <> EmptyString
  /\ brackets_found (PyStr.strip raw)
  /\ exists data,
       json_loads E (bracketed (PyStr.strip raw)) = inr data
       /\ iterate data = inr items.

Definition required_fields : list string :=
  ["question"; "question_type"; "difficulty"; "subject"].

(** An item that is an object without one of the required fields. *)
Definition misses_required_field (item : json) : Prop :=
  exists kwargs name,
    item = JObject kwargs /\ In name required_fields
    /\ Dict.get name kwargs = None.

Definition generation_failure (E : Env) (e : Exception) : Exception :=
  HTTPException 500 ("Error generating questions: " ++ exception_str E e).

(** The invariant on [options] as the data model words it. *)
Definition options_invariant (q : Question) : Prop :=
  (question_type q <> "multiple_choice" -> options q = None)
  /\ (question_type q = "multiple_choice" ->
      exists a b c d, options q = Some [a; b; c; d]).

(** ** Specification vocabulary for the validation *)

Definition bad_image_count_or_type (minimum : nat) (files : list UploadFile)
  : Prop :=
  (List.length files < minimum)%nat
  \/ exists image, In image files /\ valid_content_type image = false.

(** A request the route must refuse: too few images, a MIME type outside the
    four image types, a difficulty or a question type outside the valid
    ones. *)
Definition invalid_request (files : list UploadFile)
    (difficulty question_types : string) : Prop :=
  bad_image_count_or_type 2 files
  \/ ~ In difficulty valid_difficulties
  \/ exists l qt,
       parse_types question_types = Some l /\ In qt l /\ ~ In qt valid_types.

Definition is_validation_error (r : Result QuestionGenerationResponse)
  : Prop :=
  exists detail, r = inl (HTTPException 400 detail).

(** The system messages sent to the language model so far. *)
Definition llm_prompts (w : World) : list string :=
  flat_map (fun ev =>
              match ev with
              | LlmCall ((_, system) :: _) => [system]
              | _ => []
              end) (log w).

(** The vision calls made so far, as (image index, attempt) pairs. *)
Definition vision_calls (w : World) : list (nat * nat) :=
  flat_map (fun ev =>
              match ev with
              | VisionCall idx attempt => [(idx, attempt)]
              | _ => []
              end) (log w).

(** ** Concrete runs *)

Module Runs.

(** The first image times out twice before it is read; the second is read
    at once. *)
Definition flaky_vision (idx attempt : nat) : Result string :=
  match idx, attempt with
  | 0%nat, 0%nat => inl (Error "Deadline Exceeded: Timeout")
  | 0%nat, 1%nat => inl (Error "504 upstream error")
  | 0%nat, _ => inr "hello"
  | _, _ => inr "world"
  end.

Definition steady_vision (idx attempt : nat) : Result string :=
  match idx with
  | 0%nat => inr "hello"
  | _ => inr "world"
  end.

(** The vision model refuses the image outright. *)
Definition rejecting_vision (idx attempt : nat) : Result string :=
  inl (Error "400 invalid image").

Definition no_llm (_ : list (string * string)) : Result string :=
  inl (Error "unavailable").

Definition answering (raw : string) (_ : list (string * string))
  : Result string := inr raw.

Definition png : UploadFile := Demo.upload "image/png".
Definition jpeg : UploadFile := Demo.upload "image/jpeg".

(** The model output of the specification's example. *)
Definition noisy_output : string :=
  PyStr.quoted
    "noise[{'question':'Q','question_type':'short_answer','correct_answer':'A','difficulty':'easy','subject':'Math'}]trailing".

Definition the_question : Question :=
  {| question := "Q"; question_type := "short_answer"; options := None;
     correct_answer := Some "A"; difficulty := "easy"; subject := "Math" |}.

(** A short-answer question that comes with options, and a
    multiple-choice one with two. *)
Definition loose_output : string :=
  PyStr.quoted
    "[{'question':'Q1','question_type':'short_answer','options':['x'],'difficulty':'easy','subject':'Math'},{'question':'Q2','question_type':'multiple_choice','options':['A. 1','B. 2'],'difficulty':'easy','subject':'Math'}]".

Definition loose_questions : list Question :=
  [ {| question := "Q1"; question_type := "short_answer";
       options := Some ["x"]; correct_answer := None;
       difficulty := "easy"; subject := "Math" |};
    {| question := "Q2"; question_type := "multiple_choice";
       options := Some ["A. 1"; "B. 2"]; correct_answer := None;
       difficulty := "easy"; subject := "Math" |} ].

Definition form (num_questions : option Z) (difficulty : option string)
  : Form :=
  {| form_subject := "Physics";
     form_num_questions := num_questions;
     form_difficulty := difficulty;
     form_question_types := None |}.


(** Two objects, the second without its subject. *)
Definition partial_output : string :=
  PyStr.quoted
    "[{'question':'Q1','question_type':'short_answer','difficulty':'easy','subject':'Math'},{'question':'Q2','question_type':'true_false','difficulty':'easy'}]".

Definition partial_items : list json :=
  [ JObject [("question", JString "Q1");
             ("question_type", JString "short_answer");
             ("difficulty", JString "easy");
             ("subject", JString "Math")];
    JObject [("question", JString "Q2");
             ("question_type", JString "true_false");
             ("difficulty", JString "easy")] ].

Fixpoint repeat_char (c : ascii) (n : nat) : string :=
  match n with
  | O => EmptyString
  | S n' => String c (repeat_char c n')
  end.

(** One image whose text makes the extracted text 600 characters long. *)
Definition long_vision (idx attempt : nat) : Result string :=
  inr (repeat_char "a"%char 583).

Definition long_env : Env :=
  Demo.env long_vision (answering noisy_output).

Definition long_run : Result QuestionGenerationResponse * World :=
  process_images_and_generate_questions long_env "Math" 1 "easy" None
    (Demo.request [png]).

Definition long_extracted_text : string :=
  Eval vm_compute in
    match fst (extract_text_from_images long_env (Demo.request [png]))
    with
    | inr t => t
    | inl _ => EmptyString
    end.

Definition long_response : QuestionGenerationResponse :=
  {| success := true;
     response_subject := "Math";
     total_questions := 1;
     questions := [the_question];
     extracted_text_preview :=
       Some (substring 0 500 long_extracted_text ++ "...") |}.

Definition loose_env : Env :=
  Demo.env steady_vision (answering loose_output).

Definition loose_response : QuestionGenerationResponse :=
  {| success := true;
     response_subject := "Math";
     total_questions := 2;
     questions := loose_questions;
     extracted_text_preview := Some "The content." |}.

(** The route with a language model that answers the empty array. *)
Definition post (num_questions : Z)
  : Result QuestionGenerationResponse * World :=
  post_generate_questions
    (Demo.env steady_vision (answering "[]"))
    (form (Some num_questions) None)
    (Demo.request [png; jpeg]).

End Runs.

(** ** More vocabulary for the extraction: failures and the log *)

(** The capability fails for image [idx] at attempt [k] with [e], after [k]
    transient failures, and the loop does not retry: [e] is not transient, or
    attempt [k] is the last one. *)
Definition fails_at (E : Env) (idx k : nat) (f : UploadFile)
    (e : Exception) : Prop :=
  (forall j, (j < k)%nat ->
     exists e', ocr E idx j (file f) = inl e'
                /\ is_transient (exception_str E e') = true)
  /\ ocr E idx k (file f) = inl e
  /\ (is_transient (exception_str E e) = false
      \/ k = (max_retries - 1)%nat).

(** What is logged for image [idx] while attempts [attempt], ...,
    [attempt + k - 1] fail and are retried: after each of them the notice,
    the delay and the rewinding of the upload. *)
Fixpoint retried_log (E : Env) (idx attempt k : nat) (f : UploadFile)
  : list Event :=
  match k with
  | O => []
  | S k' =>
      (snd (try_body E idx attempt f)
       ++ [Print (retry_notice idx attempt); Sleep retry_delay; Seek idx 0]
       ++ retried_log E idx (S attempt) k' f)%list
  end.


(** ** Vocabulary for the cost and the footprint of a run *)

Definition is_vision_call (ev : Event) : bool :=
  match ev with VisionCall _ _ => true | _ => false end.

Definition is_llm_call (ev : Event) : bool :=
  match ev with LlmCall _ => true | _ => false end.

Definition count_vision (evs : list Event) : nat :=
  List.length (filter is_vision_call evs).

Definition count_llm (evs : list Event) : nat :=
  List.length (filter is_llm_call evs).

(** The seconds spent in [time.sleep]. *)
Fixpoint slept (evs : list Event) : Z :=
  match evs with
  | [] => 0
  | Sleep seconds :: evs' => seconds + slept evs'
  | _ :: evs' => slept evs'
  end.

(** An event of the extraction that concerns an image of index in
    [lo, hi) only: a vision call is one of the [max_retries] attempts, a
    delay lasts [retry_delay] seconds, and the language model is not
    called. *)
Definition within (lo hi : nat) (ev : Event) : Prop :=
  match ev with
  | Read i | Decode i | Seek i _ => (lo <= i < hi)%nat
  | VisionCall i attempt => (lo <= i < hi)%nat /\ (attempt < max_retries)%nat
  | Sleep seconds => seconds = retry_delay
  | Print _ => True
  | LlmCall _ => False
  end.

(** The calls of the vision model made for the image of index [idx]. *)
Definition count_vision_of (idx : nat) (evs : list Event) : nat :=
  List.length
    (filter (fun ev =>
               match ev with
               | VisionCall i _ => (i =? idx)%nat
               | _ => false
               end) evs).

(** The events of the retry loop on the image of index [idx]: they concern
    this image only, with at most three calls of the vision model and at
    most four seconds of delay. *)
Definition one_image (idx : nat) (evs : list Event) : Prop :=
  Forall (within idx (S idx)) evs
  /\ (count_vision evs <= 3)%nat
  /\ (slept evs <= 4)%Z.

(** Consecutive segments of a log, one per image from the index [idx] on. *)
Fixpoint per_image (idx : nat) (segments : list (list Event)) : Prop :=
  match segments with
  | [] => True
  | evs :: segments' => one_image idx evs /\ per_image (S idx) segments'
  end.

(** The events of a batch of [n] uploads: the segments of its images, in the
    order of the batch, from the first image up to the last one handled. *)
Definition per_upload (n : nat) (evs : list Event) : Prop :=
  exists segments,
    evs = List.concat segments
    /\ (List.length segments <= n)%nat
    /\ per_image 0 segments.

(** The [options] of the question [q] are those the object [item] of the
    model gives: none when the key is absent or null, the strings of the
    array otherwise. *)
Definition options_given (E : Env) (item : json) (q : Question) : Prop :=
  exists kwargs,
    item = JObject kwargs
    /\ match Dict.get "options" kwargs with
       | None | Some JNull => options q = None
       | Some (JArray l) =>
           exists ss, str_values E l = Some ss /\ options q = Some ss
       | Some _ => False
       end.

(** The upload with its cursor back at the start. *)
Definition rewound (f : UploadFile) : UploadFile := seek f 0.

(** Same declared type and same bytes: the uploads differ by the cursor at
    most. *)
Definition same_upload (f f' : UploadFile) : Prop :=
  content_type f' = content_type f /\ file f' = file f.

(** What a run appends to the log: the events of the extraction, then
    those of the generation. *)
Definition request_cost (w w' : World) : Prop :=
  exists evs rest,
    log w' = (log w ++ evs ++ rest)%list
    /\ per_upload (List.length (images w)) evs
    /\ (forall idx, (count_vision_of idx (evs ++ rest) <= 3)%nat)
    /\ count_llm evs = 0%nat
    /\ (count_llm rest <= 1)%nat
    /\ count_vision rest = 0%nat
    /\ slept rest = 0%Z
    /\ Forall2 same_upload (images w) (images w').

(** The error of lines 233-236. *)
Definition is_no_text_error (r : Result QuestionGenerationResponse) : bool :=
  match r with
  | inl (HTTPException c d) =>
      (c =? 400)%Z
      && String.eqb d "No text could be extracted from the images"
  | _ => false
  end.

(** The shape of a value returned by the generation for the given subject
    and content. *)
Definition well_formed_response (subject content : string)
    (r : QuestionGenerationResponse) : Prop :=
  success r = true
  /\ response_subject r = subject
  /\ total_questions r = Z.of_nat (List.length (questions r))
  /\ extracted_text_preview r = Some (text_preview content).

(** The outcome of a handler: a well-formed response for [content], or an
    [HTTPException] whose status is one of [codes]. *)
Definition outcome_in (codes : list Z) (subject content : string)
    (r : Result QuestionGenerationResponse) : Prop :=
  match r with
  | inr response => well_formed_response subject content response
  | inl e => exists c detail, In c codes /\ e = HTTPException c detail
  end.

Module Runs3.

(** The second of three images is refused outright. *)
Definition middle_vision (idx attempt : nat) : Result string :=
  match idx with
  | 1%nat => inl (Error "403 permission denied")
  | _ => inr EmptyString
  end.

(** The second image times out at every attempt. *)
Definition stubborn_vision (idx attempt : nat) : Result string :=
  match idx with
  | 1%nat => inl (Error "Request Timeout")
  | _ => inr "page"
  end.

(** Every image reads as the empty text. *)
Definition blank_vision (idx attempt : nat) : Result string :=
  inr EmptyString.

Definition gif : UploadFile := Demo.upload "image/gif".

(** Two contents of 8001 characters that differ in the last one. *)
Definition content_x : string :=
  Runs.repeat_char "a"%char (Z.to_nat 8000) ++ "x".
Definition content_y : string :=
  Runs.repeat_char "a"%char (Z.to_nat 8000) ++ "y".

End Runs3.

(** Lines 169-189, from the value of [json.loads] on: the conversion of the
    items and the response. *)
Definition after_loads (E : Env) (content subject : string)
    (loaded : Result json) : Result QuestionGenerationResponse :=
  match loaded with
  | inl e => inl e
  | inr questions_data =>
      match iterate questions_data with
      | inl e => inl e
      | inr items =>
          match construct_questions E items with
          | inl e => inl e
          | inr qs =>
              inr {| success := true;
                     response_subject := subject;
                     total_questions := Z.of_nat (List.length qs);
                     questions := qs;
                     extracted_text_preview := Some (text_preview content) |}
          end
      end
  end.

(** An item the schema cannot take whatever the library's leniency: not an
    object, or an object in which a required field is null, an array or an
    object. *)
Definition unusable_item (item : json) : Prop :=
  (forall kwargs, item <> JObject kwargs)
  \/ exists kwargs name v,
       item = JObject kwargs /\ In name required_fields
       /\ Dict.get name kwargs = Some v
       /\ match v with
          | JNull | JArray _ | JObject _ => True
          | _ => False
          end.

Module Runs4.

Definition two_arrays : string := "a [1] and [2] b".

(** A valid object followed by a number. *)
Definition mixed_output : string :=
  PyStr.quoted
    "[{'question':'Q1','question_type':'short_answer','difficulty':'easy','subject':'Math'}, 42]".

Definition mixed_items : list json :=
  [ JObject [("question", JString "Q1");
             ("question_type", JString "short_answer");
             ("difficulty", JString "easy");
             ("subject", JString "Math")];
    JInt 42 ].

Definition plain_object : Dict.t :=
  [("question", JString "Q"); ("question_type", JString "true_false");
   ("difficulty", JString "hard"); ("subject", JString "Math")].

Definition annotated_object : Dict.t :=
  [("explanation", JString "because"); ("subject", JString "Math");
   ("difficulty", JString "hard"); ("question_type", JString "true_false");
   ("points", JInt 3); ("question", JString "Q")].

End Runs4.

Definition question_fields : list string :=
  ["question"; "question_type"; "options"; "correct_answer"; "difficulty";
   "subject"].

(** * Authentication and users

    A shallow embedding of [app/controllers/login_controller.py],
    [app/controllers/auth_controller.py],
    [app/controllers/user_controller.py] ([get_students_by_teacher]),
    [app/routes/auth_routes.py] and [app/utils/token.py].

    The database client, the password and token helpers of
    [app.utils.auth], the clock and the random source are services of the
    environment.  A row is a [dict] with string keys.  Every call of a
    service is appended to a log, threaded through the controllers by a
    state-and-exception monad. *)

Module Auth.

Inductive Call : Type :=
| Select (table columns column : string) (value : json)
| Insert (table : string) (row : Dict.t)
| HashPassword (password : string)
| VerifyPassword (password : string) (hashed : json)
| CreateToken (sub email : json) (minutes : Z)
| DecodeToken (token : string)
| RandomToken (nbytes : Z).

Record Services : Type := {
  (** [supabase_admin.table(t).select(cols).eq(col, v).execute().data] *)
  execute_select : string -> string -> string -> json -> Result (list Dict.t);
  (** [supabase_admin.table(t).insert(row).execute().data] *)
  execute_insert : string -> Dict.t -> Result (list Dict.t);
  hash_password : string -> Result string;
  verify_password : string -> json -> Result bool;
  create_access_token : json -> json -> Z -> Result string;
  decode_access_token : string -> Result (option Dict.t);
  access_token_expire_minutes : Z;
  token_urlsafe : Z -> string;
  (** [datetime.utcnow()], in microseconds, and [datetime.isoformat]. *)
  utcnow : Z;
  isoformat : Z -> string;
  str_of : Exception -> string;
  lenient_str : json -> option string;
  lenient_int : json -> option Z;
  lenient_bool : json -> option bool
}.

(** ** The monad of the controllers *)

Definition M (A : Type) : Type := list Call -> Result A * list Call.

Definition ret {A : Type} (x : A) : M A := fun log => (inr x, log).

Definition raise {A : Type} (e : Exception) : M A := fun log => (inl e, log).

Definition bind {A B : Type} (m : M A) (k : A -> M B) : M B :=
  fun log =>
    match m log with
    | (inl e, log') => (inl e, log')
    | (inr x, log') => k x log'
    end.

Notation "x <- m ;; k" := (bind m (fun x => k))
  (at level 61, m at next level, right associativity).
Notation "m ;;; k" := (bind m (fun _ => k))
  (at level 61, right associativity).

(** A call of a service: logged, then answered. *)
Definition call {A : Type} (c : Call) (answer : Result A) : M A :=
  fun log => (answer, (log ++ [c])%list).

(** [try: m except: pass] *)
Definition best_effort {A : Type} (m : M A) : M unit :=
  fun log => (inr tt, snd (m log)).

(** [try: m except HTTPException: raise except Exception as e: raise
    HTTPException(500, prefix + str(e))] *)
Definition guarded {A : Type} (S : Services) (prefix : string) (m : M A)
  : M A :=
  fun log =>
    match m log with
    | (inl e, log') =>
        if is_HTTPException e then (inl e, log')
        else (inl (HTTPException 500 (prefix ++ str_of S e)), log')
    | (inr x, log') => (inr x, log')
    end.

(** [try: m except Exception as e: raise HTTPException(500, ...)]: an
    [HTTPException] is wrapped as well. *)
Definition wrapped {A : Type} (S : Services) (prefix : string) (m : M A)
  : M A :=
  fun log =>
    match m log with
    | (inl e, log') => (inl (HTTPException 500 (prefix ++ str_of S e)), log')
    | (inr x, log') => (inr x, log')
    end.

(** ** Python values *)

(** [d[k]] *)
Definition getitem (d : Dict.t) (k : string) : M json :=
  match Dict.get k d with
  | Some v => ret v
  | None => raise (Error ("'" ++ k ++ "'"))
  end.

(** [d.get(k)] *)
Definition get_or_none (d : Dict.t) (k : string) : json :=
  match Dict.get k d with
  | Some v => v
  | None => JNull
  end.

Fixpoint all_zero_digits (s : string) : bool :=
  match s with
  | EmptyString => true
  | String c s' =>
      if Ascii.eqb c "e"%char || Ascii.eqb c "E"%char then true
      else (negb (JsonRef.is_digit c) || Ascii.eqb c "0"%char)
           && all_zero_digits s'
  end.

(** [bool(v)] *)
Definition truthy (v : json) : bool :=
  match v with
  | JNull => false
  | JBool b => b
  | JInt n => negb (n =? 0)%Z
  | JFloat literal =>
      if String.eqb literal "NaN" || String.eqb literal "Infinity"
         || String.eqb literal "-Infinity"
      then true else negb (all_zero_digits literal)
  | JString s => negb (PyStr.is_empty s)
  | JArray l => match l with [] => false | _ => true end
  | JObject d => match d with [] => false | _ => true end
  end.

(** [v != s] for a string [s] *)
Definition differs_from (v : json) (s : string) : bool :=
  match v with
  | JString t => negb (String.eqb t s)
  | _ => true
  end.

Definition of_option_string (o : option string) : json :=
  match o with Some s => JString s | None => JNull end.

Definition of_option_int (o : option Z) : json :=
  match o with Some n => JInt n | None => JNull end.

(** [s.startswith(p)] *)
Definition startswith (s p : string) : bool := String.prefix p s.

Fixpoint drop (n : nat) (s : string) : string :=
  match n, s with
  | O, _ => s
  | S n', String _ s' => drop n' s'
  | S _, EmptyString => EmptyString
  end.

(** [s.replace(old, new)] for a non-empty [old]: the occurrences are
    replaced from left to right, without overlap. *)
Fixpoint replace_fuel (fuel : nat) (old new s : string) : string :=
  match fuel with
  | O => s
  | S fuel' =>
      match s with
      | EmptyString => EmptyString
      | String c s' =>
          if String.prefix old s
          then new ++ replace_fuel fuel' old new
                        (drop (String.length old) s)
          else String c (replace_fuel fuel' old new s')
      end
  end.

Definition replace (old new s : string) : string :=
  replace_fuel (String.length s) old new s.

(** ** [app/schemas/user.py] *)

Inductive Role : Type := teacher | student.

Definition role_name (r : Role) : string :=
  match r with teacher => "teacher" | student => "student" end.

Record UserRegisterRequest : Type := {
  reg_email : string;
  reg_first_name : string;
  reg_last_name : string;
  reg_password : string;
  reg_role : Role;
  reg_teacher_id : option string;
  reg_age : option Z;
  reg_gender : option string;
  reg_organization : option string;
  reg_profile_image : option string
}.

(** [c.isdigit()] and [c.isupper()] for a character below 256: the
    decimal digits and the superscripts one, two and three; the capital
    letters of ASCII and of Latin-1. *)
Definition isdigit (c : ascii) : bool :=
  let n := nat_of_ascii c in
  (((48 <=? n) && (n <=? 57)) || (n =? 178) || (n =? 179) || (n =? 185))%nat.

Definition isupper (c : ascii) : bool :=
  let n := nat_of_ascii c in
  (((65 <=? n) && (n <=? 90))
   || ((192 <=? n) && (n <=? 222) && negb (n =? 215)))%nat.

(** [any(p(char) for char in v)] *)
Fixpoint any (p : ascii -> bool) (v : string) : bool :=
  match v with
  | EmptyString => false
  | String char v' => p char || any p v'
  end.

(** [UserRegisterRequest.validate_password]; the left summand holds the
    message of the [ValueError] raised. *)
Definition validate_password (v : string) : string + string :=
  if (String.length v <? 8)%nat
  then inl "Password must be at least 8 characters long"
  else if negb (any isdigit v)
  then inl "Password must contain at least one digit"
  else if negb (any isupper v)
  then inl "Password must contain at least one uppercase letter"
  else inr v.

(** The validation of the field [password: str = Field(..., min_length=8,
    max_length=72)] on a string: the constraints of the field first, then
    the validator, which runs only on a value that met them; a [ValueError]
    of the validator is reported as an error of the field. *)
Definition password_field (v : string) : FieldResult string :=
  if (String.length v <? 8)%nat then inl [("password", "string_too_short")]
  else if (72 <? String.length v)%nat
  then inl [("password", "string_too_long")]
  else
    match validate_password v with
    | inr v' => inr v'
    | inl msg => inl [("password", "Value error, " ++ msg)]
    end.

(** The password has a character of the class [p]. *)
Definition has (p : ascii -> bool) (v : string) : Prop :=
  exists a c b, v = a ++ String c b /\ p c = true.

Record UserLoginRequest : Type := {
  login_email : string;
  login_password : string
}.

Record UserResponse : Type := {
  id : string;
  email : string;
  first_name : string;
  last_name : string;
  role : string;
  teacher_id : option string;
  age : option Z;
  gender : option string;
  organization : option string;
  profile_image : option string;
  is_active : bool;
  is_verified : bool
}.

Record LoginResponse : Type := {
  access_token : string;
  token_type : string;
  user : UserResponse
}.

Record MessageResponse : Type := {
  message : string;
  message_success : bool
}.

Definition as_str (S : Services) (v : json) : option string :=
  match v with
  | JString s => Some s
  | JInt _ | JFloat _ | JBool _ => lenient_str S v
  | JNull | JArray _ | JObject _ => None
  end.

Definition as_int (S : Services) (v : json) : option Z :=
  match v with
  | JInt n => Some n
  | JFloat _ | JBool _ | JString _ => lenient_int S v
  | JNull | JArray _ | JObject _ => None
  end.

Definition as_bool (S : Services) (v : json) : option bool :=
  match v with
  | JBool b => Some b
  | JInt _ | JFloat _ | JString _ => lenient_bool S v
  | JNull | JArray _ | JObject _ => None
  end.

Definition field {A : Type} (name : string) (o : option A) : FieldResult A :=
  match o with
  | Some x => inr x
  | None => inl [(name, "invalid")]
  end.

Definition optional {A : Type} (name : string) (conv : json -> option A)
    (v : json) : FieldResult (option A) :=
  match v with
  | JNull => inr None
  | _ =>
      match conv v with
      | Some x => inr (Some x)
      | None => inl [(name, "invalid")]
      end
  end.

(** The keyword arguments of a [UserResponse(...)] call, once evaluated. *)
Record UserFields : Type := {
  f_id : json; f_email : json; f_first_name : json; f_last_name : json;
  f_role : json; f_teacher_id : json; f_age : json; f_gender : json;
  f_organization : json; f_profile_image : json; f_is_active : json;
  f_is_verified : json
}.

(** [UserResponse(id=..., ...)]: every field is validated, the errors of all
    fields are reported together. *)
Definition UserResponse_init (S : Services) (a : UserFields)
  : Result UserResponse :=
  let r_id := field "id" (as_str S (f_id a)) in
  let r_email := field "email" (as_str S (f_email a)) in
  let r_first := field "first_name" (as_str S (f_first_name a)) in
  let r_last := field "last_name" (as_str S (f_last_name a)) in
  let r_role := field "role" (as_str S (f_role a)) in
  let r_teacher := optional "teacher_id" (as_str S) (f_teacher_id a) in
  let r_age := optional "age" (as_int S) (f_age a) in
  let r_gender := optional "gender" (as_str S) (f_gender a) in
  let r_org := optional "organization" (as_str S) (f_organization a) in
  let r_image := optional "profile_image" (as_str S) (f_profile_image a) in
  let r_active := field "is_active" (as_bool S (f_is_active a)) in
  let r_verified := field "is_verified" (as_bool S (f_is_verified a)) in
  match r_id, r_email, r_first, r_last, r_role, r_teacher with
  | inr x1, inr x2, inr x3, inr x4, inr x5, inr x6 =>
      match r_age, r_gender, r_org, r_image, r_active, r_verified with
      | inr x7, inr x8, inr x9, inr x10, inr x11, inr x12 =>
          inr {| id := x1; email := x2; first_name := x3; last_name := x4;
                 role := x5; teacher_id := x6; age := x7; gender := x8;
                 organization := x9; profile_image := x10;
                 is_active := x11; is_verified := x12 |}
      | _, _, _, _, _, _ =>
          inl (ValidationError "UserResponse"
                 (field_errors r_age ++ field_errors r_gender
                  ++ field_errors r_org ++ field_errors r_image
                  ++ field_errors r_active ++ field_errors r_verified)%list)
      end
  | _, _, _, _, _, _ =>
      inl (ValidationError "UserResponse"
             (field_errors r_id ++ field_errors r_email
              ++ field_errors r_first ++ field_errors r_last
              ++ field_errors r_role ++ field_errors r_teacher
              ++ field_errors r_age ++ field_errors r_gender
              ++ field_errors r_org ++ field_errors r_image
              ++ field_errors r_active ++ field_errors r_verified)%list)
  end.

Definition lift {A : Type} (r : Result A) : M A := fun log => (r, log).

(** The [UserResponse(...)] of the login and of the registration: every
    column but [teacher_id] is read with [user[...]]. *)
Definition user_response_strict (S : Services) (u : Dict.t) : M UserResponse :=
  v1 <- getitem u "id" ;;
  v2 <- getitem u "email" ;;
  v3 <- getitem u "first_name" ;;
  v4 <- getitem u "last_name" ;;
  v5 <- getitem u "role" ;;
  v7 <- getitem u "age" ;;
  v8 <- getitem u "gender" ;;
  v9 <- getitem u "organization" ;;
  v10 <- getitem u "profile_image" ;;
  v11 <- getitem u "is_active" ;;
  v12 <- getitem u "is_verified" ;;
  lift (UserResponse_init S
          {| f_id := v1; f_email := v2; f_first_name := v3;
             f_last_name := v4; f_role := v5;
             f_teacher_id := get_or_none u "teacher_id";
             f_age := v7; f_gender := v8; f_organization := v9;
             f_profile_image := v10; f_is_active := v11;
             f_is_verified := v12 |}).

(** The [UserResponse(...)] of the user lists: the optional columns are
    read with [user.get(...)]. *)
Definition user_response_lenient (S : Services) (u : Dict.t)
  : M UserResponse :=
  v1 <- getitem u "id" ;;
  v2 <- getitem u "email" ;;
  v3 <- getitem u "first_name" ;;
  v4 <- getitem u "last_name" ;;
  v5 <- getitem u "role" ;;
  v11 <- getitem u "is_active" ;;
  v12 <- getitem u "is_verified" ;;
  lift (UserResponse_init S
          {| f_id := v1; f_email := v2; f_first_name := v3;
             f_last_name := v4; f_role := v5;
             f_teacher_id := get_or_none u "teacher_id";
             f_age := get_or_none u "age";
             f_gender := get_or_none u "gender";
             f_organization := get_or_none u "organization";
             f_profile_image := get_or_none u "profile_image";
             f_is_active := v11; f_is_verified := v12 |}).

(** ** [app/utils/token.py]

    A [datetime] is a number of microseconds since 0001-01-01T00:00:00, at
    most [max_datetime]; a [timedelta] is a number of microseconds of at most
    999999999 days in absolute value. *)

Definition max_datetime : Z := 315537897600 * 1000000 - 1.
Definition day : Z := 86400 * 1000000.
Definition hour : Z := 3600 * 1000000.

Definition OverflowError (msg : string) : Exception := Error msg.

(** [timedelta(hours=hours)] *)
Definition timedelta_hours (hours : Z) : Result Z :=
  let d := (hours * hour)%Z in
  if (Z.abs (d / day) >? 999999999)%Z
  then inl (OverflowError "days out of range")
  else inr d.

(** [t + d] *)
Definition datetime_add (t d : Z) : Result Z :=
  let t' := (t + d)%Z in
  if (t' <? 0)%Z || (t' >? max_datetime)%Z
  then inl (OverflowError "date value out of range")
  else inr t'.

Definition generate_reset_token (S : Services) : M string :=
  call (RandomToken 32) (inr (token_urlsafe S 32)).

Definition is_token_expired (S : Services) (expires_at : Z) : bool :=
  (utcnow S >? expires_at)%Z.

Definition get_token_expiry (S : Services) (hours : Z) : Result Z :=
  match timedelta_hours hours with
  | inl e => inl e
  | inr d => datetime_add (utcnow S) d
  end.

(** ** The database client *)

Definition select (S : Services) (table columns column : string)
    (value : json) : M (list Dict.t) :=
  call (Select table columns column value)
       (execute_select S table columns column value).

Definition insert (S : Services) (table : string) (row : Dict.t)
  : M (list Dict.t) :=
  call (Insert table row) (execute_insert S table row).

(** ** [app/controllers/login_controller.py] *)

Definition invalid_credentials : Exception :=
  HTTPException 401 "Invalid email or password".

Definition authenticate_user (S : Services) (credentials : UserLoginRequest)
  : M LoginResponse :=
  result <- select S "users" "*" "email"
              (JString (login_email credentials)) ;;
  match result with
  | [] => raise invalid_credentials
  | user :: _ =>
      hashed <- getitem user "password_hash" ;;
      verified <- call (VerifyPassword (login_password credentials) hashed)
                    (verify_password S (login_password credentials) hashed) ;;
      if negb verified then raise invalid_credentials
      else
        active <- getitem user "is_active" ;;
        if negb (truthy active)
        then raise (HTTPException 403 "Account is deactivated")
        else
          sub <- getitem user "id" ;;
          mail <- getitem user "email" ;;
          token <- call (CreateToken sub mail (access_token_expire_minutes S))
                     (create_access_token S sub mail
                        (access_token_expire_minutes S)) ;;
          best_effort
            (uid <- getitem user "id" ;;
             insert S "login_history"
               [("user_id", uid); ("success", JBool true)]) ;;;
          u <- user_response_strict S user ;;
          ret {| access_token := token; token_type := "bearer"; user := u |}
  end.

Definition reset_message : Dict.t :=
  [("message",
    JString "If the email exists, a password reset link has been sent");
   ("success", JBool true)].

Definition request_password_reset (S : Services) (email : string)
  : M Dict.t :=
  result <- select S "users" "id, email" "email" (JString email) ;;
  match result with
  | [] => ret reset_message
  | user :: _ =>
      reset_token <- generate_reset_token S ;;
      token_expiry <- lift (get_token_expiry S 24) ;;
      uid <- getitem user "id" ;;
      insert S "password_reset_tokens"
        [("user_id", uid); ("token", JString reset_token);
         ("expires_at", JString (isoformat S token_expiry))] ;;;
      ret reset_message
  end.

Definition logout_message : Dict.t :=
  [("message", JString "Successfully logged out"); ("success", JBool true)].

Definition logout_user (S : Services) (user_id : json) : M Dict.t :=
  best_effort
    (insert S "login_history"
       [("user_id", user_id); ("success", JBool true)]) ;;;
  ret logout_message.

(** ** [app/controllers/auth_controller.py] *)

Definition absent (o : option string) : bool :=
  match o with
  | None => true
  | Some s => PyStr.is_empty s
  end.

Definition register_user (S : Services) (user_data : UserRegisterRequest)
  : M UserResponse :=
  existing_user <- select S "users" "*" "email"
                     (JString (reg_email user_data)) ;;
  match existing_user with
  | _ :: _ => raise (HTTPException 400 "Email already registered")
  | [] =>
      match reg_role user_data with
      | student =>
          if absent (reg_teacher_id user_data)
          then raise (HTTPException 400
                        "Students must be associated with a teacher (teacher_id required)")
          else
            found <- select S "users" "id, role" "id"
                       (of_option_string (reg_teacher_id user_data)) ;;
            match found with
            | [] => raise (HTTPException 404 "Teacher not found")
            | t :: _ =>
                r <- getitem t "role" ;;
                if differs_from r "teacher"
                then raise (HTTPException 400
                              "The provided user is not a teacher")
                else ret tt
            end
      | teacher => ret tt
      end ;;;
      match reg_role user_data with
      | teacher =>
          if negb (absent (reg_teacher_id user_data))
          then raise (HTTPException 400
                        "Teachers cannot be associated with another teacher")
          else ret tt
      | student => ret tt
      end ;;;
      hashed_password <- call (HashPassword (reg_password user_data))
                           (hash_password S (reg_password user_data)) ;;
      result <- insert S "users"
        [("email", JString (reg_email user_data));
         ("first_name", JString (reg_first_name user_data));
         ("last_name", JString (reg_last_name user_data));
         ("password_hash", JString hashed_password);
         ("role", JString (role_name (reg_role user_data)));
         ("teacher_id",
          match reg_role user_data with
          | student => of_option_string (reg_teacher_id user_data)
          | teacher => JNull
          end);
         ("age", of_option_int (reg_age user_data));
         ("gender", of_option_string (reg_gender user_data));
         ("organization", of_option_string (reg_organization user_data));
         ("profile_image", of_option_string (reg_profile_image user_data))] ;;
      match result with
      | [] => raise (HTTPException 500 "Failed to create user")
      | user :: _ => user_response_strict S user
      end
  end.

(** ** [app/controllers/user_controller.py] *)

Fixpoint each_user (S : Services) (rows : list Dict.t)
  : M (list UserResponse) :=
  match rows with
  | [] => ret []
  | u :: rows' =>
      x <- user_response_lenient S u ;;
      xs <- each_user S rows' ;;
      ret (x :: xs)
  end.

Definition get_students_by_teacher (S : Services) (teacher_id : string)
  : M (list UserResponse) :=
  found <- select S "users" "id, role" "id" (JString teacher_id) ;;
  match found with
  | [] => raise (HTTPException 404 "Teacher not found")
  | t :: _ =>
      r <- getitem t "role" ;;
      if differs_from r "teacher"
      then raise (HTTPException 400 "The provided user is not a teacher")
      else
        result <- select S "users" "*" "teacher_id" (JString teacher_id) ;;
        each_user S result
  end.

(** ** [app/routes/auth_routes.py] and [app/routes/user_routes.py] *)

(** The [MessageResponse] built from a dictionary unpacked into keyword
    arguments: [message] is required, [success] defaults to [True]. *)
Definition MessageResponse_init (S : Services) (kwargs : Dict.t)
  : Result MessageResponse :=
  let r_message :=
    match Dict.get "message" kwargs with
    | None => inl [("message", "missing")]
    | Some v => field "message" (as_str S v)
    end in
  let r_success :=
    match Dict.get "success" kwargs with
    | None => inr true
    | Some v => field "success" (as_bool S v)
    end in
  match r_message, r_success with
  | inr m, inr b => inr {| message := m; message_success := b |}
  | _, _ =>
      inl (ValidationError "MessageResponse"
             (field_errors r_message ++ field_errors r_success)%list)
  end.

Definition register (S : Services) (user_data : UserRegisterRequest)
  : M UserResponse :=
  guarded S "An error occurred during registration: "
    (register_user S user_data).

Definition login (S : Services) (credentials : UserLoginRequest)
  : M LoginResponse :=
  guarded S "An error occurred during login: "
    (authenticate_user S credentials).

Definition forgot_password (S : Services) (email : string)
  : M MessageResponse :=
  wrapped S "An error occurred processing your request: "
    (result <- request_password_reset S email ;;
     lift (MessageResponse_init S result)).

Definition logout (S : Services) (authorization : option string)
  : M MessageResponse :=
  guarded S "An error occurred during logout: "
    (match authorization with
     | None =>
         raise (HTTPException 401 "Missing or invalid authorization header")
     | Some header =>
         if PyStr.is_empty header || negb (startswith header "Bearer ")
         then raise (HTTPException 401
                       "Missing or invalid authorization header")
         else
           let token := replace "Bearer " EmptyString header in
           payload <- call (DecodeToken token)
                        (decode_access_token S token) ;;
           match payload with
           | None | Some [] =>
               raise (HTTPException 401 "Invalid or expired token")
           | Some claims =>
               result <- logout_user S (get_or_none claims "sub") ;;
               lift (MessageResponse_init S result)
           end
     end).

Definition list_students_by_teacher (S : Services) (teacher_id : string)
  : M (list UserResponse) :=
  guarded S "An error occurred fetching students: "
    (get_students_by_teacher S teacher_id).

(** ** Vocabulary for the properties *)

(** The same services with another database for the insertions. *)
Definition with_insert (S : Services)
    (ins : string -> Dict.t -> Result (list Dict.t)) : Services :=
  {| execute_select := execute_select S;
     execute_insert := ins;
     hash_password := hash_password S;
     verify_password := verify_password S;
     create_access_token := create_access_token S;
     decode_access_token := decode_access_token S;
     access_token_expire_minutes := access_token_expire_minutes S;
     token_urlsafe := token_urlsafe S;
     utcnow := utcnow S;
     isoformat := isoformat S;
     str_of := str_of S;
     lenient_str := lenient_str S;
     lenient_int := lenient_int S;
     lenient_bool := lenient_bool S |}.

(** The same services at another time. *)
Definition at_time (S : Services) (now : Z) : Services :=
  {| execute_select := execute_select S;
     execute_insert := execute_insert S;
     hash_password := hash_password S;
     verify_password := verify_password S;
     create_access_token := create_access_token S;
     decode_access_token := decode_access_token S;
     access_token_expire_minutes := access_token_expire_minutes S;
     token_urlsafe := token_urlsafe S;
     utcnow := now;
     isoformat := isoformat S;
     str_of := str_of S;
     lenient_str := lenient_str S;
     lenient_int := lenient_int S;
     lenient_bool := lenient_bool S |}.

Definition is_select (c : Call) : bool :=
  match c with Select _ _ _ _ => true | _ => false end.

(** The query for the account of a login. *)
Definition account_query (S : Services) (credentials : UserLoginRequest)
  : Result (list Dict.t) :=
  execute_select S "users" "*" "email" (JString (login_email credentials)).

(** The email is unknown, or the password does not verify against the
    first row found. *)
Definition bad_login (S : Services) (credentials : UserLoginRequest)
    (calls : list Call) : Prop :=
  (account_query S credentials = inr []
   /\ calls = [Select "users" "*" "email"
                 (JString (login_email credentials))])
  \/ exists user rest hashed,
       account_query S credentials = inr (user :: rest)
       /\ Dict.get "password_hash" user = Some hashed
       /\ verify_password S (login_password credentials) hashed = inr false
       /\ calls = [Select "users" "*" "email"
                     (JString (login_email credentials));
                   VerifyPassword (login_password credentials) hashed].

Definition logged_out : MessageResponse :=
  {| message := "Successfully logged out"; message_success := true |}.

(** The row a password-reset request inserts. *)
Definition reset_row (S : Services) (uid : json) (expiry : Z) : Dict.t :=
  [("user_id", uid); ("token", JString (token_urlsafe S 32));
   ("expires_at", JString (isoformat S expiry))].

Definition reset_requested : MessageResponse :=
  {| message := "If the email exists, a password reset link has been sent";
     message_success := true |}.

(** Why a registration is refused, with the exception raised and the calls
    made. *)
Inductive refused (S : Services) (d : UserRegisterRequest)
  : Exception -> list Call -> Prop :=
| email_taken (row : Dict.t) (rows : list Dict.t) :
    execute_select S "users" "*" "email" (JString (reg_email d))
    = inr (row :: rows) ->
    refused S d (HTTPException 400 "Email already registered")
      [Select "users" "*" "email" (JString (reg_email d))]
| student_without_teacher :
    execute_select S "users" "*" "email" (JString (reg_email d)) = inr [] ->
    reg_role d = student ->
    absent (reg_teacher_id d) = true ->
    refused S d
      (HTTPException 400
         "Students must be associated with a teacher (teacher_id required)")
      [Select "users" "*" "email" (JString (reg_email d))]
| teacher_unknown (tid : string) :
    execute_select S "users" "*" "email" (JString (reg_email d)) = inr [] ->
    reg_role d = student ->
    reg_teacher_id d = Some tid ->
    tid <> EmptyString ->
    execute_select S "users" "id, role" "id" (JString tid) = inr [] ->
    refused S d (HTTPException 404 "Teacher not found")
      [Select "users" "*" "email" (JString (reg_email d));
       Select "users" "id, role" "id" (JString tid)]
| not_a_teacher (tid : string) (row : Dict.t) (rows : list Dict.t)
    (r : json) :
    execute_select S "users" "*" "email" (JString (reg_email d)) = inr [] ->
    reg_role d = student ->
    reg_teacher_id d = Some tid ->
    tid <> EmptyString ->
    execute_select S "users" "id, role" "id" (JString tid)
    = inr (row :: rows) ->
    Dict.get "role" row = Some r ->
    r <> JString "teacher" ->
    refused S d (HTTPException 400 "The provided user is not a teacher")
      [Select "users" "*" "email" (JString (reg_email d));
       Select "users" "id, role" "id" (JString tid)]
| teacher_with_teacher (tid : string) :
    execute_select S "users" "*" "email" (JString (reg_email d)) = inr [] ->
    reg_role d = teacher ->
    reg_teacher_id d = Some tid ->
    tid <> EmptyString ->
    refused S d
      (HTTPException 400 "Teachers cannot be associated with another teacher")
      [Select "users" "*" "email" (JString (reg_email d))].

(** The request passes the checks of the registration. *)
Definition admissible (S : Services) (d : UserRegisterRequest)
    (checks : list Call) : Prop :=
  execute_select S "users" "*" "email" (JString (reg_email d)) = inr []
  /\ match reg_role d with
     | teacher =>
         absent (reg_teacher_id d) = true
         /\ checks = [Select "users" "*" "email" (JString (reg_email d))]
     | student =>
         exists tid row rows,
           reg_teacher_id d = Some tid /\ tid <> EmptyString
           /\ execute_select S "users" "id, role" "id" (JString tid)
              = inr (row :: rows)
           /\ Dict.get "role" row = Some (JString "teacher")
           /\ checks = [Select "users" "*" "email" (JString (reg_email d));
                        Select "users" "id, role" "id" (JString tid)]
     end.

(** The row a registration inserts. *)
Definition new_user_row (d : UserRegisterRequest) (hashed : string)
  : Dict.t :=
  [("email", JString (reg_email d));
   ("first_name", JString (reg_first_name d));
   ("last_name", JString (reg_last_name d));
   ("password_hash", JString hashed);
   ("role", JString (role_name (reg_role d)));
   ("teacher_id",
    match reg_role d with
    | student => of_option_string (reg_teacher_id d)
    | teacher => JNull
    end);
   ("age", of_option_int (reg_age d));
   ("gender", of_option_string (reg_gender d));
   ("organization", of_option_string (reg_organization d));
   ("profile_image", of_option_string (reg_profile_image d))].

End Auth.

(** ** A small directory for the concrete runs *)

Module AuthDemo.

Definition row (uid mail name role_ hashed : string) (teacher : json)
    (active : bool) : Dict.t :=
  [("id", JString uid); ("email", JString mail);
   ("first_name", JString name); ("last_name", JString "Doe");
   ("password_hash", JString hashed); ("role", JString role_);
   ("teacher_id", teacher); ("age", JInt 30); ("gender", JNull);
   ("organization", JNull); ("profile_image", JNull);
   ("is_active", JBool active); ("is_verified", JBool false)].

Definition alice : Dict.t :=
  row "1" "alice@example.org" "Alice" "teacher" "h:Secret123" JNull true.
Definition bob : Dict.t :=
  row "2" "bob@example.org" "Bob" "student" "h:Passw0rdX" (JString "1") true.
Definition carol : Dict.t :=
  row "3" "carol@example.org" "Carol" "student" "h:Closed999" (JString "1")
    false.

Definition users : list Dict.t := [alice; bob; carol].

Definition json_eqb (a b : json) : bool :=
  match a, b with
  | JNull, JNull => true
  | JBool x, JBool y => Bool.eqb x y
  | JInt x, JInt y => (x =? y)%Z
  | JString x, JString y => String.eqb x y
  | _, _ => false
  end.

Definition matching (column : string) (value : json) (r : Dict.t) : bool :=
  match Dict.get column r with
  | Some v => json_eqb v value
  | None => false
  end.

Definition select_from (table columns column : string) (value : json)
  : Result (list Dict.t) :=
  if String.eqb table "users" then inr (filter (matching column value) users)
  else inr [].

(** The inserted row comes back with the columns the database fills in. *)
Definition insert_into (table : string) (r : Dict.t) : Result (list Dict.t) :=
  inr [(("id", JString "4") :: r
        ++ [("is_active", JBool true); ("is_verified", JBool false)])%list].

Definition failing_insert (table : string) (r : Dict.t)
  : Result (list Dict.t) := inl (Error "connection refused").

Definition services : Auth.Services :=
  {| Auth.execute_select := select_from;
     Auth.execute_insert := insert_into;
     Auth.hash_password := fun p => inr ("h:" ++ p);
     Auth.verify_password := fun p hashed =>
       match hashed with
       | JString h => inr (String.eqb h ("h:" ++ p))
       | _ => inl (TypeError "hash must be a string")
       end;
     Auth.create_access_token := fun sub mail minutes =>
       match sub with
       | JString s => inr ("token-of-" ++ s)
       | _ => inl (TypeError "sub must be a string")
       end;
     Auth.decode_access_token := fun token =>
       match JsonRef.strip_prefix "token-of-" token with
       | Some s => inr (Some [("sub", JString s)])
       | None => inr None
       end;
     Auth.access_token_expire_minutes := 30;
     Auth.token_urlsafe := fun _ => "r4nd0m";
     Auth.utcnow := 63900000000 * 1000000;
     Auth.isoformat := fun t => PyStr.of_Z t;
     Auth.str_of := Demo.str;
     Auth.lenient_str := fun _ => None;
     Auth.lenient_int := fun _ => None;
     Auth.lenient_bool := fun _ => None |}.

Definition credentials (mail password : string) : Auth.UserLoginRequest :=
  {| Auth.login_email := mail; Auth.login_password := password |}.

Definition newcomer (r : Auth.Role) (tid : option string)
  : Auth.UserRegisterRequest :=
  {| Auth.reg_email := "dave@example.org";
     Auth.reg_first_name := "Dave";
     Auth.reg_last_name := "Doe";
     Auth.reg_password := "Welcome123";
     Auth.reg_role := r;
     Auth.reg_teacher_id := tid;
     Auth.reg_age := Some 20%Z;
     Auth.reg_gender := None;
     Auth.reg_organization := None;
     Auth.reg_profile_image := None |}.

End AuthDemo.

(** ** Lemmas on the extraction loop *)

Lemma read_fresh (f : UploadFile) :
  position f = 0%nat -> fst (read f) = file f.
Proof.
  intros H. unfold read. simpl. now rewrite H.
Qed.

Lemma file_read (f : UploadFile) : file (snd (read f)) = file f.
Proof. reflexivity. Qed.

Lemma try_body_result (E : Env) (idx attempt : nat) (f : UploadFile) :
  fst (fst (try_body E idx attempt f)) = ocr E idx attempt (fst (read f)).
Proof.
  unfold try_body, ocr. simpl.
  destruct (Image_open E _) as [e | image]; [reflexivity |].
  destruct (generate_content E _ _ _ _); reflexivity.
Qed.

Lemma try_body_file (E : Env) (idx attempt : nat) (f : UploadFile) :
  file (snd (fst (try_body E idx attempt f))) = file f.
Proof.
  unfold try_body. simpl.
  destruct (Image_open E _) as [e | image]; [reflexivity |].
  destruct (generate_content E _ _ _ _); reflexivity.
Qed.

Lemma try_body_success_rewinds (E : Env) (idx attempt : nat) (f : UploadFile)
    (t : string) :
  fst (fst (try_body E idx attempt f)) = inr t ->
  position (snd (fst (try_body E idx attempt f))) = 0%nat.
Proof.
  unfold try_body. simpl.
  destruct (Image_open E _) as [e | image]; [discriminate |].
  destruct (generate_content E _ _ _ _); [discriminate | reflexivity].
Qed.

(** The retry loop, started fresh at attempt [attempt] with enough iterations
    left, appends the entry of the first success. *)
Lemma attempts_succeeds (E : Env) (idx : nat) (text : string)
    (acc : list string) :
  forall (k remaining attempt : nat) (f : UploadFile),
    position f = 0%nat ->
    (k < remaining)%nat ->
    (attempt + k < max_retries)%nat ->
    (forall j, (j < k)%nat ->
       exists e, ocr E idx (attempt + j) (file f) = inl e
                 /\ is_transient (exception_str E e) = true) ->
    ocr E idx (attempt + k) (file f) = inr text ->
    exists f' evs,
      attempts E idx remaining attempt acc f
      = (inr (acc ++ [entry idx text])%list, f', evs)
      /\ file f' = file f /\ position f' = 0%nat.
Proof.
  induction k as [| k IH]; intros remaining attempt f Hpos Hrem Hmax Hfail Hok.
  - destruct remaining as [| remaining]; [lia |].
    rewrite Nat.add_0_r in Hok. cbn [attempts].
    pose proof (try_body_result E idx attempt f) as Hr.
    pose proof (try_body_file E idx attempt f) as Hf.
    pose proof (try_body_success_rewinds E idx attempt f) as Hp.
    rewrite (read_fresh f Hpos), Hok in Hr.
    destruct (try_body E idx attempt f) as [[r f1] evs]. simpl in *.
    subst r. exists f1, evs. repeat split; eauto.
  - destruct remaining as [| remaining]; [lia |].
    destruct (Hfail 0%nat) as (e & He & Htr); [lia |].
    rewrite Nat.add_0_r in He. cbn [attempts].
    pose proof (try_body_result E idx attempt f) as Hr.
    pose proof (try_body_file E idx attempt f) as Hf.
    rewrite (read_fresh f Hpos), He in Hr.
    destruct (try_body E idx attempt f) as [[r f1] evs]. cbn [fst snd] in *.
    subst r. rewrite Htr.
    assert (Hlt : (attempt <? max_retries - 1)%nat = true).
    { apply Nat.ltb_lt. unfold max_retries in *. lia. }
    rewrite Hlt. cbn [andb].
    destruct (IH remaining (S attempt) (seek f1 0)) as (f' & evs' & Heq & Hf' & Hp').
    + reflexivity.
    + lia.
    + lia.
    + intros j Hj. simpl. rewrite Hf.
      replace (S (attempt + j)) with (attempt + S j)%nat by lia.
      apply Hfail. lia.
    + simpl. rewrite Hf.
      replace (S (attempt + k)) with (attempt + S k)%nat by lia. exact Hok.
    + rewrite Heq. eexists _, _. repeat split; eauto.
      simpl in Hf'. congruence.
Qed.

Lemma append_assoc (a b c : string) : (a ++ b) ++ c = a ++ b ++ c.
Proof.
  induction a as [| x a IH]; simpl; [reflexivity | now rewrite IH].
Qed.

Lemma append_nil_r (a : string) : a ++ EmptyString = a.
Proof.
  induction a as [| x a IH]; simpl; [reflexivity | now rewrite IH].
Qed.

Lemma length_append (a b : string) :
  String.length (a ++ b) = (String.length a + String.length b)%nat.
Proof.
  induction a as [| x a IH]; simpl; [reflexivity | now rewrite IH].
Qed.

Lemma each_image_succeeds (E : Env) :
  forall (files : list UploadFile) (texts : list string) (idx : nat)
         (acc : list string),
    all_succeed E idx files texts ->
    exists files' evs,
      each_image E idx files acc = (inr (acc ++ entries idx texts)%list, files', evs).
Proof.
  induction files as [| f files IH]; intros texts idx acc H.
  - destruct texts; [| contradiction].
    exists [], []. simpl. now rewrite app_nil_r.
  - destruct texts as [| t texts]; [contradiction |].
    destruct H as (Hpos & (k & Hk & Hfail & Hok) & Hrest).
    destruct (attempts_succeeds E idx t acc k max_retries 0 f)
      as (f' & evs & Heq & _ & _); auto.
    destruct (IH texts (S idx) (acc ++ [entry idx t])%list Hrest)
      as (files' & evs' & Heq').
    cbn [each_image]. rewrite Heq, Heq'.
    eexists _, _. simpl. now rewrite <- app_assoc.
Qed.

Lemma concat_entries :
  forall (texts : list string) (idx : nat),
    String.concat PyStr.nl (entries idx texts) = expected_text (idx + 1) texts.
Proof.
  induction texts as [| t texts IH]; intros idx; [reflexivity |].
  cbn [entries expected_text].
  destruct texts as [| t' texts].
  - cbn [entries String.concat]. unfold entry.
    now rewrite ?append_assoc, ?append_nil_r.
  - change (String.concat PyStr.nl (entry idx t :: entries (S idx) (t' :: texts)))
      with (entry idx t ++ PyStr.nl
            ++ String.concat PyStr.nl (entries (S idx) (t' :: texts))).
    rewrite IH. unfold entry.
    replace (S idx + 1)%nat with (S (idx + 1)) by lia.
    now rewrite ?append_assoc.
Qed.

Lemma at_once_succeeds (E : Env) :
  forall (files : list UploadFile) (texts : list string) (idx : nat),
    all_succeed_at_once E idx files texts -> all_succeed E idx files texts.
Proof.
  induction files as [| f files IH]; intros [| t texts] idx H;
    simpl in *; try contradiction; auto.
  destruct H as (Hpos & Hok & Hrest).
  repeat split; auto.
  exists 0%nat. unfold max_retries. repeat split; [lia | | exact Hok].
  intros j Hj. lia.
Qed.

Lemma extract_succeeds (E : Env) (w : World) (texts : list string) :
  all_succeed E 0 (images w) texts ->
  fst (extract_text_from_images E w) = inr (expected_text 1 texts).
Proof.
  intros H. unfold extract_text_from_images.
  destruct (each_image_succeeds E (images w) texts 0 [] H)
    as (files' & evs & Heq).
  rewrite Heq. simpl. now rewrite concat_entries.
Qed.

(** ** Lemmas on the generation *)

Lemma generate_unfold (E : Env) (content subject : string) (n : Z)
    (difficulty : string) (qts : option (list string)) (w : World)
    (raw : string) :
  invoke E (prompt_for subject n difficulty qts content) = inr raw ->
  fst (generate_questions_from_content E content subject n difficulty qts w)
  = match parse_response E content subject (PyStr.strip raw) with
    | inl e => inl (generation_error E (Some (PyStr.strip raw)) e)
    | inr response => inr response
    end.
Proof.
  intros H. unfold generate_questions_from_content.
  change (format_messages subject n difficulty
            match qts with Some l => l | None => default_question_types end
            content)
    with (prompt_for subject n difficulty qts content).
  rewrite H.
  destruct (parse_response E content subject (PyStr.strip raw)); reflexivity.
Qed.

Lemma is_empty_spec (s : string) :
  PyStr.is_empty s = true <-> s = EmptyString.
Proof.
  destruct s; simpl; split; intros H; congruence.
Qed.

Lemma is_empty_false (s : string) :
  s <> EmptyString -> PyStr.is_empty s = false.
Proof.
  destruct s; simpl; congruence.
Qed.

Lemma parse_response_empty (E : Env) (content subject : string) :
  parse_response E content subject EmptyString = inl empty_response.
Proof. reflexivity. Qed.

Lemma parse_response_no_array (E : Env) (content subject text : string) :
  text <> EmptyString ->
  PyStr.find "["%char text = (-1)%Z \/ PyStr.rfind "]"%char text = (-1)%Z ->
  parse_response E content subject text = inl (no_json_array text).
Proof.
  intros Hne H. unfold parse_response.
  rewrite (is_empty_false _ Hne).
  destruct H as [H | H]; rewrite H; simpl.
  - reflexivity.
  - now rewrite andb_false_r.
Qed.

Lemma parse_response_found (E : Env) (content subject text : string) :
  text <> EmptyString ->
  brackets_found text ->
  parse_response E content subject text
  = match json_loads E (bracketed text) with
    | inl e => inl e
    | inr questions_data =>
        match iterate questions_data with
        | inl e => inl e
        | inr items =>
            match construct_questions E items with
            | inl e => inl e
            | inr qs =>
                inr {| success := true;
                       response_subject := subject;
                       total_questions := Z.of_nat (List.length qs);
                       questions := qs;
                       extracted_text_preview := Some (text_preview content) |}
            end
        end
    end.
Proof.
  intros Hne [Hf Hr]. unfold parse_response.
  rewrite (is_empty_false _ Hne).
  assert (H1 : (PyStr.find "["%char text =? -1)%Z = false)
    by now apply Z.eqb_neq.
  assert (H2 : (PyStr.rfind "]"%char text + 1 =? 0)%Z = false)
    by (apply Z.eqb_neq; lia).
  rewrite H1, H2. reflexivity.
Qed.

Lemma parse_response_items (E : Env) (content subject raw : string)
    (items : list json) :
  reaches_coercion E raw items ->
  parse_response E content subject (PyStr.strip raw)
  = match construct_questions E items with
    | inl e => inl e
    | inr qs =>
        inr {| success := true;
               response_subject := subject;
               total_questions := Z.of_nat (List.length qs);
               questions := qs;
               extracted_text_preview := Some (text_preview content) |}
    end.
Proof.
  intros (Hne & Hb & data & Hd & Hi).
  rewrite (parse_response_found E content subject _ Hne Hb), Hd, Hi.
  reflexivity.
Qed.

(** ** Brackets, stripping and slicing *)

Lemma lstrip_before (c : ascii) (pre rest : string) :
  PyStr.isspace c = false ->
  PyStr.index_of c pre = None ->
  exists pre',
    PyStr.lstrip (pre ++ String c rest) = pre' ++ String c rest
    /\ PyStr.index_of c pre' = None.
Proof.
  intros Hc. induction pre as [| x pre IH]; intros Hno.
  - exists EmptyString. simpl. now rewrite Hc.
  - simpl in Hno. destruct (Ascii.eqb x c) eqn:Hx; [discriminate |].
    destruct (PyStr.index_of c pre) eqn:Hi; [discriminate |].
    simpl. destruct (PyStr.isspace x).
    + apply IH. reflexivity.
    + exists (String x pre). split; [reflexivity |].
      simpl. now rewrite Hx, Hi.
Qed.

Lemma rindex_of_rstrip (c : ascii) (s : string) :
  PyStr.rindex_of c s = None -> PyStr.rindex_of c (PyStr.rstrip s) = None.
Proof.
  induction s as [| x s IH]; intros H; [reflexivity |].
  simpl in H. destruct (PyStr.rindex_of c s) eqn:Hr; [discriminate |].
  destruct (Ascii.eqb x c) eqn:Hx; [discriminate |].
  simpl. destruct (PyStr.isspace x && PyStr.is_empty (PyStr.rstrip s));
    [reflexivity |].
  simpl. now rewrite (IH eq_refl), Hx.
Qed.

Lemma rstrip_after (c : ascii) (s post : string) :
  PyStr.isspace c = false ->
  PyStr.rstrip (s ++ String c post) = s ++ String c (PyStr.rstrip post).
Proof.
  intros Hc. induction s as [| x s IH].
  - simpl. now rewrite Hc.
  - simpl. rewrite IH.
    replace (PyStr.is_empty (s ++ String c (PyStr.rstrip post))) with false
      by (destruct s; reflexivity).
    now rewrite andb_false_r.
Qed.

Lemma index_of_app (c : ascii) (pre rest : string) :
  PyStr.index_of c pre = None ->
  PyStr.index_of c (pre ++ String c rest) = Some (String.length pre).
Proof.
  induction pre as [| x pre IH]; intros H; simpl.
  - now rewrite Ascii.eqb_refl.
  - simpl in H. destruct (Ascii.eqb x c); [discriminate |].
    destruct (PyStr.index_of c pre); [discriminate |].
    now rewrite IH.
Qed.

Lemma rindex_of_app (c : ascii) (s post : string) :
  PyStr.rindex_of c post = None ->
  PyStr.rindex_of c (s ++ String c post) = Some (String.length s).
Proof.
  intros H. induction s as [| x s IH]; simpl.
  - now rewrite H, Ascii.eqb_refl.
  - now rewrite IH.
Qed.

Lemma substring_prefix (b q : string) :
  substring 0 (String.length b) (b ++ q) = b.
Proof.
  induction b as [| x b IH]; simpl.
  - destruct q; reflexivity.
  - now rewrite IH.
Qed.

Lemma substring_middle (p b q : string) :
  substring (String.length p) (String.length b) (p ++ b ++ q) = b.
Proof.
  induction p as [| x p IH]; simpl.
  - apply substring_prefix.
  - exact IH.
Qed.

Lemma substring_all (n : nat) (s : string) :
  (String.length s <= n)%nat -> substring 0 n s = s.
Proof.
  revert n. induction s as [| x s IH]; intros n H.
  - destruct n; reflexivity.
  - destruct n; simpl in *; [lia |]. rewrite IH; [reflexivity | lia].
Qed.

(** [s[:n]] is the first [n] characters of [s], or [s] if it is shorter. *)
Lemma upto_substring (s : string) (n : nat) :
  PyStr.upto s (Z.of_nat n)
  = substring 0 (Nat.min n (String.length s)) s.
Proof.
  unfold PyStr.upto, PyStr.slice, PyStr.clamp.
  assert (H0 : (0 <? 0)%Z = false) by reflexivity. rewrite H0.
  assert (Hn : (Z.of_nat n <? 0)%Z = false) by (apply Z.ltb_ge; lia).
  rewrite Hn. f_equal.
  - lia.
  - lia.
Qed.

Lemma upto_short (s : string) (n : nat) :
  (String.length s <= n)%nat -> PyStr.upto s (Z.of_nat n) = s.
Proof.
  intros H. rewrite upto_substring.
  apply substring_all. lia.
Qed.

Lemma upto_long (s : string) (n : nat) :
  (n <= String.length s)%nat ->
  PyStr.upto s (Z.of_nat n) = substring 0 n s.
Proof.
  intros H. rewrite upto_substring. f_equal. lia.
Qed.

(** Noise around one bracketed body: stripping keeps the body, and the first
    ['['] and the last [']'] are those of the body. *)
Lemma bracketed_noise (pre inner post : string) :
  PyStr.index_of "["%char pre = None ->
  PyStr.rindex_of "]"%char post = None ->
  let text := PyStr.strip (pre ++ "[" ++ inner ++ "]" ++ post) in
  text <> EmptyString /\ brackets_found text
  /\ bracketed text = "[" ++ inner ++ "]".
Proof.
  intros Hpre Hpost text.
  destruct (lstrip_before "["%char pre (inner ++ "]" ++ post) eq_refl Hpre)
    as (pre' & Hl & Hpre').
  pose proof (rindex_of_rstrip _ _ Hpost) as Hpost'.
  assert (Htext : text = pre' ++ String "["%char (inner ++ String "]"%char
                                                    (PyStr.rstrip post))).
  { unfold text, PyStr.strip.
    change (pre ++ "[" ++ inner ++ "]" ++ post)
      with (pre ++ String "["%char (inner ++ "]" ++ post)).
    rewrite Hl.
    change (pre' ++ String "["%char (inner ++ "]" ++ post))
      with (pre' ++ String "["%char (inner ++ String "]"%char post)).
    replace (pre' ++ String "["%char (inner ++ String "]"%char post))
      with ((pre' ++ String "["%char inner) ++ String "]"%char post)
      by (now rewrite append_assoc).
    rewrite rstrip_after by reflexivity.
    now rewrite append_assoc. }
  assert (Hfind : PyStr.find "["%char text = Z.of_nat (String.length pre')).
  { rewrite Htext. unfold PyStr.find. now rewrite index_of_app. }
  assert (Hrfind : PyStr.rfind "]"%char text
                   = Z.of_nat (String.length pre' + S (String.length inner))).
  { rewrite Htext. unfold PyStr.rfind.
    replace (pre' ++ String "["%char (inner ++ String "]"%char (PyStr.rstrip post)))
      with ((pre' ++ String "["%char inner) ++ String "]"%char (PyStr.rstrip post))
      by (now rewrite append_assoc).
    rewrite rindex_of_app by assumption.
    rewrite length_append. reflexivity. }
  split; [| split].
  - rewrite Htext. destruct pre'; discriminate.
  - unfold brackets_found. rewrite Hfind, Hrfind. lia.
  - unfold bracketed, PyStr.slice, PyStr.clamp. rewrite Hfind, Hrfind.
    assert (Hlen : String.length text
                   = (String.length pre' + (S (S (String.length inner))
                      + String.length (PyStr.rstrip post)))%nat).
    { rewrite Htext. rewrite length_append. simpl. rewrite length_append.
      simpl. lia. }
    rewrite Hlen.
    set (a := String.length pre'). set (i := String.length inner).
    set (r := String.length (PyStr.rstrip post)).
    assert (H1 : (Z.of_nat a <? 0)%Z = false) by (apply Z.ltb_ge; lia).
    assert (H2 : (Z.of_nat (a + S i) + 1 <? 0)%Z = false)
      by (apply Z.ltb_ge; lia).
    rewrite H1, H2.
    replace (Z.to_nat (Z.min (Z.of_nat a) (Z.of_nat (a + (S (S i) + r)))))
      with a by lia.
    replace (Z.to_nat (Z.min (Z.of_nat (a + S i) + 1) (Z.of_nat (a + (S (S i) + r)))
                       - Z.min (Z.of_nat a) (Z.of_nat (a + (S (S i) + r)))))
      with (String.length ("[" ++ inner ++ "]")).
    2:{ simpl. rewrite length_append. simpl. fold i. lia. }
    rewrite Htext. subst a.
    change (pre' ++ String "["%char (inner ++ String "]"%char (PyStr.rstrip post)))
      with (pre' ++ String "["%char (inner ++ "]" ++ PyStr.rstrip post)).
    replace (String "["%char (inner ++ "]" ++ PyStr.rstrip post))
      with (("[" ++ inner ++ "]") ++ PyStr.rstrip post).
    2:{ simpl. now rewrite append_assoc. }
    apply substring_middle.
Qed.

Lemma upto_first (s : string) (n : nat) :
  PyStr.upto s (Z.of_nat n) = substring 0 n s.
Proof.
  destruct (Nat.le_ge_cases (String.length s) n) as [H | H].
  - rewrite upto_short by assumption. symmetry. now apply substring_all.
  - now apply upto_long.
Qed.

Lemma not_brackets_found (text : string) :
  ~ brackets_found text ->
  PyStr.find "["%char text = (-1)%Z \/ PyStr.rfind "]"%char text = (-1)%Z.
Proof.
  unfold brackets_found. intros H.
  destruct (Z.eq_dec (PyStr.find "["%char text) (-1)); [now left |].
  destruct (Z.eq_dec (PyStr.rfind "]"%char text) (-1)); [now right |].
  exfalso. apply H. now split.
Qed.

(** ** Lemmas on the conversion into [Question] records *)

Lemma construct_all (E : Env) :
  forall (items : list json) (qs : list Question),
    construct_questions E items = inr qs ->
    Forall2 (fun item q => Question_init E item = inr q) items qs.
Proof.
  induction items as [| item items IH]; intros qs H; simpl in H.
  - injection H as <-. constructor.
  - destruct (Question_init E item) as [e | q] eqn:Hq; [discriminate |].
    destruct (construct_questions E items) as [e | qs'] eqn:Hqs;
      [discriminate |].
    injection H as <-. constructor; auto.
Qed.

Lemma construct_fails (E : Env) :
  forall (items : list json) (item : json),
    In item items ->
    (exists e, Question_init E item = inl e) ->
    exists e, construct_questions E items = inl e.
Proof.
  induction items as [| x items IH]; intros item Hin Hfail; [contradiction |].
  simpl. destruct (Question_init E x) as [e | q] eqn:Hq; [now exists e |].
  destruct Hin as [-> | Hin].
  - destruct Hfail as (e & He). congruence.
  - destruct (IH item Hin Hfail) as (e & He). rewrite He. now exists e.
Qed.

Lemma required_str_missing (E : Env) (kwargs : Dict.t) (name : string) :
  Dict.get name kwargs = None ->
  required_str E kwargs name = inl [(name, "missing")].
Proof.
  intros H. unfold required_str. now rewrite H.
Qed.

Lemma Question_init_missing (E : Env) (item : json) :
  misses_required_field item ->
  exists errs, Question_init E item = inl (ValidationError "Question" errs).
Proof.
  intros (kwargs & name & -> & Hin & Hget).
  unfold Question_init.
  destruct Hin as [<- | [<- | [<- | [<- | []]]]];
    rewrite (required_str_missing E kwargs _ Hget);
    repeat match goal with
      | |- context [match ?x with inl _ => _ | inr _ => _ end] =>
          destruct x
      end; eexists; reflexivity.
Qed.

Lemma generation_error_is_500 (E : Env) (t : option string) (e : Exception)
    (A : Type) :
  exists detail,
    @inl Exception A (generation_error E t e) = inl (HTTPException 500 detail).
Proof.
  unfold generation_error. destruct (is_JSONDecodeError e); eexists; reflexivity.
Qed.

Lemma construct_error_kind (E : Env) :
  forall (items : list json) (e : Exception),
    construct_questions E items = inl e -> is_JSONDecodeError e = false.
Proof.
  induction items as [| x items IH]; intros e H; simpl in H; [discriminate |].
  destruct (Question_init E x) as [e' | q] eqn:Hq.
  - injection H as <-. unfold Question_init in Hq.
    destruct x; try (injection Hq as <-; reflexivity).
    repeat match type of Hq with
      | context [match ?x with inl _ => _ | inr _ => _ end] => destruct x
      end; try discriminate; injection Hq as <-; reflexivity.
  - destruct (construct_questions E items) as [e' | qs]; [| discriminate].
    injection H as <-. now apply IH.
Qed.

Lemma generate_success (E : Env) (content subject : string) (n : Z)
    (difficulty : string) (qts : option (list string)) (w w' : World)
    (resp : QuestionGenerationResponse) :
  generate_questions_from_content E content subject n difficulty qts w
  = (inr resp, w') ->
  exists raw items,
    invoke E (prompt_for subject n difficulty qts content) = inr raw
    /\ reaches_coercion E raw items
    /\ construct_questions E items = inr (questions resp)
    /\ resp = {| success := true;
                 response_subject := subject;
                 total_questions := Z.of_nat (List.length (questions resp));
                 questions := questions resp;
                 extracted_text_preview := Some (text_preview content) |}.
Proof.
  intros H.
  destruct (invoke E (prompt_for subject n difficulty qts content))
    as [e | raw] eqn:Hinv.
  - unfold generate_questions_from_content in H.
    change (format_messages subject n difficulty
              match qts with Some l => l | None => default_question_types end
              content)
      with (prompt_for subject n difficulty qts content) in H.
    rewrite Hinv in H. discriminate.
  - pose proof (generate_unfold E content subject n difficulty qts w raw Hinv)
      as Hu.
    rewrite H in Hu. simpl in Hu.
    exists raw.
    destruct (parse_response E content subject (PyStr.strip raw))
      as [e | r] eqn:Hp; [discriminate |].
    injection Hu as ->.
    unfold parse_response in Hp.
    destruct (PyStr.is_empty (PyStr.strip raw)) eqn:Hem; [discriminate |].
    destruct (negb (PyStr.find "["%char (PyStr.strip raw) =? -1)%Z
              && negb (PyStr.rfind "]"%char (PyStr.strip raw) + 1 =? 0)%Z)
      eqn:Hb; [| discriminate].
    apply andb_prop in Hb. destruct Hb as [Hb1 Hb2].
    apply negb_true_iff in Hb1, Hb2.
    apply Z.eqb_neq in Hb1, Hb2.
    destruct (json_loads E _) as [e | data] eqn:Hd; [discriminate |].
    destruct (iterate data) as [e | items] eqn:Hi; [discriminate |].
    destruct (construct_questions E items) as [e | qs] eqn:Hc; [discriminate |].
    injection Hp as <-. simpl.
    exists items. repeat split; auto.
    + intros Habs. rewrite Habs in Hem. discriminate.
    + lia.
    + exists data. split; [exact Hd | exact Hi].
Qed.

(** ** Lemmas on failures and on the log of the retry loop *)

Lemma rewind_fresh (f : UploadFile) :
  position f = 0%nat -> seek (snd (read f)) 0 = f.
Proof.
  destruct f as [ct bytes pos]. simpl. intros ->. reflexivity.
Qed.

Lemma try_body_failure_file (E : Env) (idx attempt : nat) (f : UploadFile)
    (e : Exception) :
  fst (fst (try_body E idx attempt f)) = inl e ->
  snd (fst (try_body E idx attempt f)) = snd (read f).
Proof.
  unfold try_body. simpl.
  destruct (Image_open E _) as [e' | image]; [reflexivity |].
  destruct (generate_content E _ _ _ _); [reflexivity | discriminate].
Qed.

Lemma try_body_success_file (E : Env) (idx attempt : nat) (f : UploadFile)
    (t : string) :
  fst (fst (try_body E idx attempt f)) = inr t ->
  snd (fst (try_body E idx attempt f)) = seek (snd (read f)) 0.
Proof.
  unfold try_body. simpl.
  destruct (Image_open E _) as [e' | image]; [discriminate |].
  destruct (generate_content E _ _ _ _); [discriminate | reflexivity].
Qed.

(** After [k] transient failures the loop is at attempt [attempt + k], on the
    rewound upload, having logged a delay of [retry_delay] seconds and a
    rewinding after each failure. *)
Lemma attempts_retried (E : Env) (idx : nat) (acc : list string) :
  forall (k remaining attempt : nat) (f : UploadFile),
    position f = 0%nat ->
    (attempt + k < max_retries)%nat ->
    (forall j, (j < k)%nat ->
       exists e, ocr E idx (attempt + j) (file f) = inl e
                 /\ is_transient (exception_str E e) = true) ->
    attempts E idx (k + remaining) attempt acc f
    = let '(r, f', evs) := attempts E idx remaining (attempt + k) acc f in
      (r, f', (retried_log E idx attempt k f ++ evs)%list).
Proof.
  induction k as [| k IH]; intros remaining attempt f Hpos Hmax Hfail.
  - rewrite Nat.add_0_r. simpl.
    destruct (attempts E idx remaining attempt acc f) as [[r f'] evs].
    reflexivity.
  - destruct (Hfail 0%nat) as (e & He & Htr); [lia |].
    rewrite Nat.add_0_r in He.
    change (S k + remaining)%nat with (S (k + remaining)).
    cbn [attempts retried_log].
    pose proof (try_body_result E idx attempt f) as Hr.
    rewrite (read_fresh f Hpos), He in Hr.
    pose proof (try_body_failure_file E idx attempt f e Hr) as Hf.
    destruct (try_body E idx attempt f) as [[r f1] evs]. cbn [fst snd] in *.
    subst r f1. rewrite Htr.
    assert (Hlt : (attempt <? max_retries - 1)%nat = true).
    { apply Nat.ltb_lt. unfold max_retries in *. lia. }
    rewrite Hlt. cbn [andb].
    rewrite (rewind_fresh f Hpos).
    rewrite (IH remaining (S attempt) f Hpos).
    + replace (S attempt + k)%nat with (attempt + S k)%nat by lia.
      destruct (attempts E idx remaining (attempt + S k) acc f)
        as [[r f'] evs'].
      now rewrite <- !app_assoc.
    + lia.
    + intros j Hj.
      replace (S attempt + j)%nat with (attempt + S j)%nat by lia.
      apply Hfail. lia.
Qed.

(** A failure that is not retried aborts the loop with the extraction error
    of the image. *)
Lemma attempts_aborts (E : Env) (idx k : nat) (acc : list string)
    (f : UploadFile) (e : Exception) :
  position f = 0%nat ->
  (k < max_retries)%nat ->
  fails_at E idx k f e ->
  attempts E idx max_retries 0 acc f
  = (inl (extraction_error idx (exception_str E e)), snd (read f),
     (retried_log E idx 0 k f ++ snd (try_body E idx k f))%list).
Proof.
  intros Hpos Hk (Hfail & He & Hstop).
  replace max_retries with (k + (max_retries - k))%nat at 1 by lia.
  rewrite (attempts_retried E idx acc k (max_retries - k) 0 f Hpos);
    [| simpl; lia | exact Hfail].
  simpl (0 + k)%nat.
  destruct (max_retries - k)%nat as [| remaining] eqn:Hrem; [lia |].
  cbn [attempts].
  pose proof (try_body_result E idx k f) as Hr.
  rewrite (read_fresh f Hpos), He in Hr.
  pose proof (try_body_failure_file E idx k f e Hr) as Hf.
  destruct (try_body E idx k f) as [[r f1] evs]. cbn [fst snd] in *.
  subst r f1.
  assert (Hno : is_transient (exception_str E e)
                && (k <? max_retries - 1)%nat = false).
  { destruct Hstop as [Hnt | ->].
    - now rewrite Hnt.
    - rewrite Nat.ltb_irrefl. apply andb_false_r. }
  rewrite Hno. reflexivity.
Qed.

(** The log of a successful image: a delay and a rewinding between any two
    consecutive attempts, and nothing else between them. *)
Lemma attempts_succeeds_log (E : Env) (idx k : nat) (acc : list string)
    (f : UploadFile) (text : string) :
  position f = 0%nat ->
  (k < max_retries)%nat ->
  succeeds_at E idx k f text ->
  attempts E idx max_retries 0 acc f
  = (inr (acc ++ [entry idx text])%list, f,
     (retried_log E idx 0 k f ++ snd (try_body E idx k f))%list).
Proof.
  intros Hpos Hk (Hfail & Hok).
  replace max_retries with (k + (max_retries - k))%nat at 1 by lia.
  rewrite (attempts_retried E idx acc k (max_retries - k) 0 f Hpos);
    [| simpl; lia | exact Hfail].
  simpl (0 + k)%nat.
  destruct (max_retries - k)%nat as [| remaining] eqn:Hrem; [lia |].
  cbn [attempts].
  pose proof (try_body_result E idx k f) as Hr.
  rewrite (read_fresh f Hpos), Hok in Hr.
  pose proof (try_body_success_file E idx k f text Hr) as Hf.
  rewrite (rewind_fresh f Hpos) in Hf.
  destruct (try_body E idx k f) as [[r f1] evs]. cbn [fst snd] in *.
  subst r f1. reflexivity.
Qed.

(** The batch is aborted at the first image that fails for good: the images
    before it succeeded, none after it is touched, and no text is returned. *)
Lemma each_image_aborts (E : Env) :
  forall (before : list UploadFile) (texts : list string) (idx k : nat)
         (acc : list string) (f : UploadFile) (after : list UploadFile)
         (e : Exception),
    all_succeed E idx before texts ->
    position f = 0%nat ->
    (k < max_retries)%nat ->
    fails_at E (idx + List.length before) k f e ->
    exists files' evs,
      each_image E idx (before ++ f :: after) acc
      = (inl (extraction_error (idx + List.length before)
                (exception_str E e)),
         (files' ++ snd (read f) :: after)%list, evs).
Proof.
  induction before as [| b before IH];
    intros texts idx k acc f after e Hall Hpos Hk Hfail.
  - simpl List.length in *. rewrite Nat.add_0_r in *.
    cbn [app each_image].
    rewrite (attempts_aborts E idx k acc f e Hpos Hk Hfail).
    eexists [], _. reflexivity.
  - destruct texts as [| t texts]; [contradiction |].
    destruct Hall as (Hb & (j & Hj & Hsucc) & Hrest).
    simpl List.length in *. simpl app.
    cbn [each_image].
    rewrite (attempts_succeeds_log E idx j acc b t Hb Hj Hsucc).
    replace (idx + S (List.length before))%nat
      with (S idx + List.length before)%nat in * by lia.
    destruct (IH texts (S idx) k (acc ++ [entry idx t])%list f after e
                Hrest Hpos Hk Hfail) as (files' & evs & Heq).
    rewrite Heq. eexists (b :: files'), _. reflexivity.
Qed.

Lemma extract_aborts (E : Env) (w : World) (before : list UploadFile)
    (texts : list string) (k : nat) (f : UploadFile)
    (after : list UploadFile) (e : Exception) :
  images w = (before ++ f :: after)%list ->
  all_succeed E 0 before texts ->
  position f = 0%nat ->
  (k < max_retries)%nat ->
  fails_at E (List.length before) k f e ->
  fst (extract_text_from_images E w)
  = inl (extraction_error (List.length before) (exception_str E e)).
Proof.
  intros Himg Hall Hpos Hk Hfail. unfold extract_text_from_images.
  rewrite Himg.
  destruct (each_image_aborts E before texts 0 k [] f after e Hall Hpos Hk Hfail)
    as (files' & evs & Heq).
  simpl in Heq. rewrite Heq. reflexivity.
Qed.

(** ** Lemmas on the validation *)

Lemma mem_In (x : string) (l : list string) :
  PyStr.mem x l = true <-> In x l.
Proof.
  unfold PyStr.mem. rewrite existsb_exists. split.
  - intros (y & Hy & Heq). apply String.eqb_eq in Heq. now subst.
  - intros H. exists x. split; [assumption | apply String.eqb_refl].
Qed.

Lemma process_rejects (E : Env) (subject : string) (n : Z)
    (difficulty : string) (types_list : option (list string)) (w : World) :
  bad_image_count_or_type 1 (images w) ->
  exists detail,
    process_images_and_generate_questions E subject n difficulty types_list w
    = (inl (HTTPException 400 detail), w).
Proof.
  intros Hbad. unfold process_images_and_generate_questions.
  destruct (List.length (images w) <? 1)%nat eqn:Hlen.
  - eexists. reflexivity.
  - destruct (List.find (fun image => negb (valid_content_type image))
                (images w)) as [image |] eqn:Hfind.
    + eexists. reflexivity.
    + exfalso. destruct Hbad as [Hlt | (image & Hin & Hct)].
      * apply Nat.ltb_ge in Hlen. lia.
      * pose proof (find_none _ _ Hfind image Hin) as Hn. cbv beta in Hn.
        rewrite Hct in Hn. discriminate.
Qed.

Lemma generate_questions_rejects (E : Env) (subject : string) (n : Z)
    (difficulty question_types : string) (w : World) :
  invalid_request (images w) difficulty question_types ->
  exists detail,
    generate_questions E subject n difficulty question_types w
    = (inl (HTTPException 400 detail), w).
Proof.
  intros Hinv. unfold generate_questions.
  destruct (List.length (images w) <? 2)%nat eqn:Hlen; [eexists; reflexivity |].
  apply Nat.ltb_ge in Hlen.
  destruct (match parse_types question_types with
            | Some l => List.find (fun qt => negb (PyStr.mem qt valid_types)) l
            | None => None
            end) as [qt |] eqn:Hqt; [eexists; reflexivity |].
  destruct (PyStr.mem difficulty valid_difficulties) eqn:Hd;
    [| eexists; reflexivity].
  cbn [negb].
  destruct Hinv as [[Hlt | Hct] | [Hdiff | (l & qt & Hp & Hin & Hnot)]].
  - lia.
  - destruct (process_rejects E subject n difficulty
                (parse_types question_types) w) as (detail & Heq).
    { right. exact Hct. }
    rewrite Heq. simpl. eexists. reflexivity.
  - exfalso. apply Hdiff. now apply mem_In.
  - exfalso. rewrite Hp in Hqt.
    pose proof (find_none _ _ Hqt qt Hin) as Hn. cbv beta in Hn.
    apply negb_false_iff in Hn. apply mem_In in Hn. contradiction.
Qed.

Lemma Question_init_options (E : Env) (item : json) (q : Question) :
  Question_init E item = inr q -> options_given E item q.
Proof.
  intros H. destruct item; try discriminate.
  exists members. split; [reflexivity |].
  unfold Question_init in H.
  destruct (required_str E members "question"); try discriminate.
  destruct (required_str E members "question_type"); try discriminate.
  destruct (optional_str_list E members "options") as [errs | o] eqn:Ho;
    try discriminate.
  destruct (optional_str E members "correct_answer"); try discriminate.
  destruct (required_str E members "difficulty"); try discriminate.
  destruct (required_str E members "subject"); try discriminate.
  injection H as <-. simpl.
  unfold optional_str_list in Ho.
  destruct (Dict.get "options" members) as [v |]; [| congruence].
  destruct v; try congruence.
  destruct (str_values E items) as [ss |]; [| discriminate].
  exists ss. split; [reflexivity | congruence].
Qed.

(** * Main results *)

(** ** Extraction *)

(** C1: for a batch of fresh uploads on which the OCR capability eventually
    succeeds for every image (within the three attempts, after transient
    failures only), [extract_text_from_images] returns the texts in input
    order, each under its marker line "--- Image k ---" for k = 1..N, with an
    empty line between two entries.  The texts themselves are arbitrary, and
    the function returns the empty text for the empty batch instead of
    raising: an empty or blank concatenation is returned as it is. *)
Theorem extract_text_from_images_in_input_order (E : Env) (w : World)
    (texts : list string) :
  all_succeed E 0 (images w) texts ->
  fst (extract_text_from_images E w) = inr (expected_text 1 texts)
  /\ (texts = [] -> fst (extract_text_from_images E w) = inr EmptyString).
Proof.
  intros H. split.
  - now apply extract_succeeds.
  - intros ->. now rewrite (extract_succeeds E w [] H).
Qed.

Lemma flaky_batch_succeeds :
  all_succeed (Demo.env Runs.flaky_vision Runs.no_llm) 0
    [Runs.png; Runs.jpeg] ["hello"; "world"].
Proof.
  simpl. repeat split.
  - exists 2%nat. split; [unfold max_retries; lia |]. split.
    + intros j Hj.
      destruct j as [| [| j]]; [| | lia]; eexists; split; reflexivity.
    + reflexivity.
  - exists 0%nat. split; [unfold max_retries; lia |]. split.
    + intros j Hj. lia.
    + reflexivity.
Defined.

Lemma extract_text_from_images_in_input_order_witness :
  fst (extract_text_from_images (Demo.env Runs.flaky_vision Runs.no_llm)
         (Demo.request [Runs.png; Runs.jpeg]))
  = inr (expected_text 1 ["hello"; "world"])
  /\ (["hello"; "world"] = [] ->
      fst (extract_text_from_images (Demo.env Runs.flaky_vision Runs.no_llm)
             (Demo.request [Runs.png; Runs.jpeg])) = inr EmptyString).
Proof.
  apply (extract_text_from_images_in_input_order
           (Demo.env Runs.flaky_vision Runs.no_llm)
           (Demo.request [Runs.png; Runs.jpeg]) ["hello"; "world"]).
  exact flaky_batch_succeeds.
Defined.

(** C2: at the failing input, one image that the vision model refuses at the
    first attempt with a non-transient error.  The batch is aborted after a
    single vision call, and the error names image 1, but it says "after 3
    attempts": the count in the message is the constant [max_retries], not
    the number of attempts made. *)
Theorem extraction_error_counts_max_retries :
  extract_text_from_images (Demo.env Runs.rejecting_vision Runs.no_llm)
    (Demo.request [Runs.png])
  = (inl (HTTPException 500
            "Error extracting text from image 1 after 3 attempts: 400 invalid image"),
     {| images := [snd (read Runs.png)];
        log := [Read 0; Decode 0; VisionCall 0 0] |})
  /\ vision_calls
       (snd (extract_text_from_images
               (Demo.env Runs.rejecting_vision Runs.no_llm)
               (Demo.request [Runs.png])))
     = [(0%nat, 0%nat)].
Proof.
  split; reflexivity.
Qed.

(** C6: on the same batch, an execution in which the OCR calls of some
    images fail transiently before they succeed within the three attempts
    returns exactly what an execution returns in which every call succeeds
    at once with the same texts. *)
Theorem retries_are_transparent (E1 E2 : Env) (w : World)
    (texts : list string) :
  all_succeed E1 0 (images w) texts ->
  all_succeed_at_once E2 0 (images w) texts ->
  fst (extract_text_from_images E1 w) = fst (extract_text_from_images E2 w).
Proof.
  intros H1 H2.
  rewrite (extract_succeeds E1 w texts H1).
  rewrite (extract_succeeds E2 w texts (at_once_succeeds E2 _ _ _ H2)).
  reflexivity.
Qed.

Lemma steady_batch_succeeds :
  all_succeed_at_once (Demo.env Runs.steady_vision Runs.no_llm) 0
    [Runs.png; Runs.jpeg] ["hello"; "world"].
Proof.
  simpl. repeat split.
Defined.

Lemma retries_are_transparent_witness :
  fst (extract_text_from_images (Demo.env Runs.flaky_vision Runs.no_llm)
         (Demo.request [Runs.png; Runs.jpeg]))
  = fst (extract_text_from_images (Demo.env Runs.steady_vision Runs.no_llm)
           (Demo.request [Runs.png; Runs.jpeg])).
Proof.
  apply (retries_are_transparent
           (Demo.env Runs.flaky_vision Runs.no_llm)
           (Demo.env Runs.steady_vision Runs.no_llm)
           (Demo.request [Runs.png; Runs.jpeg]) ["hello"; "world"]).
  - exact flaky_batch_succeeds.
  - exact steady_batch_succeeds.
Defined.

(** ** Validation *)

(** C4, as amended: a request with fewer than two images, with an image
    whose declared MIME type is not one of the four image types, with a
    difficulty or with a question type outside the valid ones is refused by
    the route with status 400 and the state of the request unchanged: no
    upload was read or decoded, and neither model was called.  The
    controller refuses in the same way an empty batch and a wrong MIME type,
    whatever the difficulty and the question types it is given. *)
Theorem invalid_requests_fail_before_any_call (E : Env) (subject : string)
    (num_questions : Z) (difficulty question_types : string) (w : World) :
  (invalid_request (images w) difficulty question_types ->
   exists detail,
     generate_questions E subject num_questions difficulty question_types w
     = (inl (HTTPException 400 detail), w))
  /\ (bad_image_count_or_type 1 (images w) ->
      forall types_list,
      exists detail,
        process_images_and_generate_questions E subject num_questions
          difficulty types_list w
        = (inl (HTTPException 400 detail), w)).
Proof.
  split.
  - intros Hinv. now apply generate_questions_rejects.
  - intros Hbad types_list. now apply process_rejects.
Qed.

Lemma invalid_requests_fail_before_any_call_witness :
  (exists detail,
     generate_questions (Demo.env Runs.steady_vision Runs.no_llm) "Physics" 10
       "impossible" "multiple_choice,short_answer,true_false"
       (Demo.request [Runs.png; Runs3.gif])
     = (inl (HTTPException 400 detail),
        Demo.request [Runs.png; Runs3.gif]))
  /\ (forall types_list,
      exists detail,
        process_images_and_generate_questions
          (Demo.env Runs.steady_vision Runs.no_llm) "Physics" 10 "impossible"
          types_list (Demo.request [Runs.png; Runs3.gif])
        = (inl (HTTPException 400 detail),
           Demo.request [Runs.png; Runs3.gif])).
Proof.
  destruct (invalid_requests_fail_before_any_call
              (Demo.env Runs.steady_vision Runs.no_llm) "Physics" 10
              "impossible" "multiple_choice,short_answer,true_false"
              (Demo.request [Runs.png; Runs3.gif])) as [route controller].
  split.
  - apply route. right. left. simpl.
    intros [H | [H | [H | []]]]; discriminate.
  - apply controller. right. exists Runs3.gif.
    split; [simpl; auto | reflexivity].
Defined.

(** C4, as stated, fails for the controller: called with two valid images,
    the difficulty "impossible" and the question type "essay", it validates
    neither, calls the vision model for both images and the language model
    once, and returns a response. *)
Lemma controller_checks_neither_difficulty_nor_types :
  ~ In "impossible" valid_difficulties
  /\ ~ In "essay" valid_types
  /\ (exists response,
        fst (process_images_and_generate_questions
               (Demo.env Runs.steady_vision (Runs.answering Runs.noisy_output))
               "Math" 1 "impossible" (Some ["essay"])
               (Demo.request [Runs.png; Runs.jpeg]))
        = inr response
        /\ success response = true)
  /\ vision_calls
       (snd (process_images_and_generate_questions
               (Demo.env Runs.steady_vision (Runs.answering Runs.noisy_output))
               "Math" 1 "impossible" (Some ["essay"])
               (Demo.request [Runs.png; Runs.jpeg])))
     = [(0, 0); (1, 0)]%nat
  /\ List.length
       (llm_prompts
          (snd (process_images_and_generate_questions
                  (Demo.env Runs.steady_vision
                     (Runs.answering Runs.noisy_output))
                  "Math" 1 "impossible" (Some ["essay"])
                  (Demo.request [Runs.png; Runs.jpeg]))))
     = 1%nat.
Proof.
  split; [| split; [| split; [| split]]].
  - simpl. intros [H | [H | [H | []]]]; discriminate.
  - simpl. intros [H | [H | [H | []]]]; discriminate.
  - eexists. split; vm_compute; reflexivity.
  - vm_compute. reflexivity.
  - vm_compute. reflexivity.
Qed.

(** ** Generation *)

(** C3: with [text] the stripped model output, the call fails with the
    empty-response error when [text] is empty; it fails with the
    no-JSON-array error, which quotes the first 200 characters of [text], when
    the first ['['] or the last [']'] is missing; otherwise the part of [text]
    from the first ['['] to the last [']'] is handed to [json.loads], and a
    decode error fails the call with the parse error, which quotes the decode
    error and the first 300 characters of [text].  The first two errors are
    raised inside the [try] and reach the caller through its last handler.
    In particular, noise around one well-formed array of one object yields
    exactly the question of that object. *)
Theorem generate_locates_and_parses_the_array (E : Env)
    (content subject : string) (n : Z) (difficulty : string)
    (qts : option (list string)) (w : World) (raw : string) :
  invoke E (prompt_for subject n difficulty qts content) = inr raw ->
  let text := PyStr.strip raw in
  let result :=
    fst (generate_questions_from_content E content subject n difficulty qts w)
  in
  (text = EmptyString ->
   result = inl (generation_failure E
                   (HTTPException 500 "LLM returned an empty response")))
  /\ (text <> EmptyString -> ~ brackets_found text ->
      result = inl (generation_failure E
                      (HTTPException 500
                         ("Could not find JSON array in response. Response preview: "
                          ++ substring 0 200 text))))
  /\ (text <> EmptyString -> brackets_found text ->
      forall m p,
        json_loads E (bracketed text) = inl (JSONDecodeError m p) ->
        result = inl (HTTPException 500
                        ("Failed to parse generated questions: "
                         ++ exception_str E (JSONDecodeError m p)
                         ++ ". Response was: " ++ substring 0 300 text)))
  /\ (forall pre inner post kwargs q,
        raw = pre ++ "[" ++ inner ++ "]" ++ post ->
        PyStr.index_of "["%char pre = None ->
        PyStr.rindex_of "]"%char post = None ->
        json_loads E ("[" ++ inner ++ "]") = inr (JArray [JObject kwargs]) ->
        Question_init E (JObject kwargs) = inr q ->
        exists response,
          result = inr response /\ questions response = [q]).
Proof.
  intros Hinv text result.
  pose proof (generate_unfold E content subject n difficulty qts w raw Hinv)
    as Hu.
  fold text in Hu. fold result in Hu.
  repeat split.
  - intros He. rewrite Hu, He. reflexivity.
  - intros Hne Hnb. rewrite Hu.
    rewrite (parse_response_no_array E content subject text Hne
               (not_brackets_found text Hnb)).
    unfold no_json_array.
    change 200%Z with (Z.of_nat 200). rewrite upto_first. reflexivity.
  - intros Hne Hb m p Hd. rewrite Hu.
    rewrite (parse_response_found E content subject text Hne Hb), Hd.
    unfold generation_error. cbn [is_JSONDecodeError].
    change 300%Z with (Z.of_nat 300). rewrite upto_first. reflexivity.
  - intros pre inner post kwargs q Hraw Hpre Hpost Hd Hq.
    destruct (bracketed_noise pre inner post Hpre Hpost) as (Hne & Hb & Hbr).
    rewrite <- Hraw in Hne, Hb, Hbr. fold text in Hne, Hb, Hbr.
    rewrite Hu.
    rewrite (parse_response_found E content subject text Hne Hb), Hbr, Hd.
    cbn [iterate construct_questions]. rewrite Hq.
    eexists. split; reflexivity.
Qed.

Lemma generate_locates_and_parses_the_array_witness :
  exists response,
    fst (generate_questions_from_content
           (Demo.env Runs.steady_vision (Runs.answering Runs.noisy_output))
           "The content." "Math" 1 "easy" None (Demo.request []))
    = inr response
    /\ questions response = [Runs.the_question].
Proof.
  apply (generate_locates_and_parses_the_array
           (Demo.env Runs.steady_vision (Runs.answering Runs.noisy_output))
           "The content." "Math" 1 "easy" None (Demo.request [])
           Runs.noisy_output eq_refl)
    with (pre := "noise") (post := "trailing")
         (inner := PyStr.quoted
                     "{'question':'Q','question_type':'short_answer','correct_answer':'A','difficulty':'easy','subject':'Math'}")
         (kwargs := [("question", JString "Q");
                     ("question_type", JString "short_answer");
                     ("correct_answer", JString "A");
                     ("difficulty", JString "easy");
                     ("subject", JString "Math")]);
    reflexivity.
Defined.

(** C5: once the model output has been parsed into items, an item that is an
    object without one of the required fields fails the whole call (with the
    error of the last handler, status 500), and a call that returns has
    converted every item, in order: the returned list is never a part of the
    items. *)
Theorem coercion_is_all_or_nothing (E : Env) (content subject : string)
    (n : Z) (difficulty : string) (qts : option (list string)) (w : World)
    (raw : string) (items : list json) :
  invoke E (prompt_for subject n difficulty qts content) = inr raw ->
  reaches_coercion E raw items ->
  let result :=
    fst (generate_questions_from_content E content subject n difficulty qts w)
  in
  (Exists misses_required_field items ->
   exists e, result = inl (generation_failure E e))
  /\ (forall response,
        result = inr response ->
        Forall2 (fun item q => Question_init E item = inr q)
          items (questions response))
  /\ ((exists detail, result = inl (HTTPException 500 detail))
      \/ (exists response,
            result = inr response
            /\ List.length (questions response) = List.length items)).
Proof.
  intros Hinv Hreach result.
  pose proof (generate_unfold E content subject n difficulty qts w raw Hinv)
    as Hu.
  fold result in Hu.
  rewrite (parse_response_items E content subject raw items Hreach) in Hu.
  repeat split.
  - intros Hex. apply Exists_exists in Hex. destruct Hex as (item & Hin & Hmiss).
    destruct (Question_init_missing E item Hmiss) as (errs & Herr).
    destruct (construct_fails E items item Hin) as (e & He); [eauto |].
    rewrite He in Hu. rewrite Hu. exists e.
    unfold generation_error.
    now rewrite (construct_error_kind E items e He).
  - intros response Hres. rewrite Hres in Hu.
    destruct (construct_questions E items) as [e | qs] eqn:Hc; [discriminate |].
    injection Hu as ->. simpl. now apply construct_all.
  - destruct (construct_questions E items) as [e | qs] eqn:Hc.
    + left. rewrite Hu. apply generation_error_is_500.
    + right. eexists. split; [exact Hu |]. simpl.
      symmetry. exact (Forall2_length (construct_all E items qs Hc)).
Qed.

Lemma partial_output_reaches_coercion :
  reaches_coercion
    (Demo.env Runs.steady_vision (Runs.answering Runs.partial_output))
    Runs.partial_output Runs.partial_items.
Proof.
  split; [| split].
  - vm_compute. discriminate.
  - split; vm_compute; discriminate.
  - eexists. split; vm_compute; reflexivity.
Defined.

Lemma coercion_is_all_or_nothing_witness :
  exists e,
    fst (generate_questions_from_content
           (Demo.env Runs.steady_vision (Runs.answering Runs.partial_output))
           "The content." "Math" 2 "easy" None (Demo.request []))
    = inl (generation_failure
             (Demo.env Runs.steady_vision (Runs.answering Runs.partial_output))
             e).
Proof.
  apply (coercion_is_all_or_nothing
           (Demo.env Runs.steady_vision (Runs.answering Runs.partial_output))
           "The content." "Math" 2 "easy" None (Demo.request [])
           Runs.partial_output Runs.partial_items eq_refl
           partial_output_reaches_coercion).
  apply Exists_cons_tl. apply Exists_cons_hd.
  eexists _, "subject". split; [reflexivity |]. split.
  - simpl. auto.
  - reflexivity.
Defined.

(** C7: in every response the pipeline returns, [total_questions] is the
    length of [questions], and [extracted_text_preview] is the extracted text
    itself when it has at most 500 characters, and its first 500 characters
    followed by "..." when it is longer. *)
Theorem response_counts_and_previews (E : Env) (subject : string) (n : Z)
    (difficulty : string) (qts : option (list string)) (w w' : World)
    (response : QuestionGenerationResponse) :
  process_images_and_generate_questions E subject n difficulty qts w
  = (inr response, w') ->
  exists extracted_text,
    fst (extract_text_from_images E w) = inr extracted_text
    /\ total_questions response
       = Z.of_nat (List.length (questions response))
    /\ ((String.length extracted_text <= 500)%nat ->
        extracted_text_preview response = Some extracted_text)
    /\ ((500 < String.length extracted_text)%nat ->
        extracted_text_preview response
        = Some (substring 0 500 extracted_text ++ "...")).
Proof.
  unfold process_images_and_generate_questions. intros H.
  destruct (List.length (images w) <? 1)%nat; [discriminate |].
  destruct (List.find _ (images w)); [discriminate |].
  destruct (extract_text_from_images E w) as [[e | extracted] w1];
    [discriminate |].
  destruct (PyStr.is_empty (PyStr.strip extracted)); [discriminate |].
  exists extracted. split; [reflexivity |].
  destruct (generate_success E extracted subject n difficulty qts w1 w'
              response H) as (raw & items & _ & _ & _ & Hshape).
  rewrite Hshape. cbn [total_questions questions extracted_text_preview].
  unfold text_preview. repeat split.
  - intros Hle.
    assert (Hgt : (Z.of_nat (String.length extracted) >? 500)%Z = false).
    { rewrite Z.gtb_ltb. apply Z.ltb_ge. lia. }
    now rewrite Hgt.
  - intros Hlt.
    assert (Hgt : (Z.of_nat (String.length extracted) >? 500)%Z = true).
    { rewrite Z.gtb_ltb. apply Z.ltb_lt. lia. }
    rewrite Hgt. change 500%Z with (Z.of_nat 500).
    now rewrite upto_first.
Qed.

Lemma response_counts_and_previews_witness :
  exists extracted_text,
    fst (extract_text_from_images Runs.long_env (Demo.request [Runs.png]))
    = inr extracted_text
    /\ total_questions Runs.long_response
       = Z.of_nat (List.length (questions Runs.long_response))
    /\ ((String.length extracted_text <= 500)%nat ->
        extracted_text_preview Runs.long_response = Some extracted_text)
    /\ ((500 < String.length extracted_text)%nat ->
        extracted_text_preview Runs.long_response
        = Some (substring 0 500 extracted_text ++ "...")).
Proof.
  apply (response_counts_and_previews Runs.long_env "Math" 1 "easy" None
           (Demo.request [Runs.png]) (snd Runs.long_run)
           Runs.long_response).
  vm_compute. reflexivity.
Defined.

(** C8, as amended: the questions of a response are those built from the
    items of the array found in the output of the model, one per item and in
    their order, and the [options] of each question are what its item gave
    under the key "options": null when the key is absent or null, and
    otherwise the list of the strings given there, of any length.  The value
    of [question_type] plays no part in it. *)
Theorem options_are_those_of_the_model (E : Env) (content subject : string)
    (n : Z) (difficulty : string) (qts : option (list string)) (w w' : World)
    (response : QuestionGenerationResponse) :
  generate_questions_from_content E content subject n difficulty qts w
  = (inr response, w') ->
  exists raw items,
    invoke E (prompt_for subject n difficulty qts content) = inr raw
    /\ reaches_coercion E raw items
    /\ Forall2 (options_given E) items (questions response).
Proof.
  intros H.
  destruct (generate_success E content subject n difficulty qts w w' response H)
    as (raw & items & Hinv & Hreach & Hc & _).
  exists raw, items. split; [exact Hinv |]. split; [exact Hreach |].
  eapply Forall2_impl; [| exact (construct_all E items _ Hc)].
  intros item q. apply Question_init_options.
Qed.

Lemma options_are_those_of_the_model_witness :
  exists raw items,
    invoke Runs.loose_env (prompt_for "Math" 2 "easy" None "The content.")
    = inr raw
    /\ reaches_coercion Runs.loose_env raw items
    /\ Forall2 (options_given Runs.loose_env) items Runs.loose_questions.
Proof.
  apply (options_are_those_of_the_model Runs.loose_env "The content." "Math"
           2 "easy" None (Demo.request [])
           (snd (generate_questions_from_content Runs.loose_env
                   "The content." "Math" 2 "easy" None (Demo.request [])))
           Runs.loose_response).
  vm_compute. reflexivity.
Defined.

(** C8, as stated, fails: the model may give options to a short-answer
    question and two options to a multiple-choice one, and both questions
    are returned. *)
Lemma options_invariant_is_not_enforced :
  fst (generate_questions_from_content Runs.loose_env "The content." "Math"
         2 "easy" None (Demo.request []))
  = inr Runs.loose_response
  /\ ~ Forall options_invariant (questions Runs.loose_response).
Proof.
  split; [vm_compute; reflexivity |].
  intros H. inversion H as [| q qs [Hnot _] _]; subst.
  assert (Habs : options (List.hd Runs.the_question Runs.loose_questions) = None).
  { apply Hnot. simpl. discriminate. }
  discriminate Habs.
Qed.

(** C9: at the failing inputs.  With [num_questions] 100, and with 0, the
    route refuses nothing: the images are read, the language model is asked
    for that many questions, and the response is returned.  A request
    without [num_questions] asks for 10. *)
Theorem num_questions_is_not_range_checked :
  fst (Runs.post 100)
  = inr {| success := true;
           response_subject := "Physics";
           total_questions := 0;
           questions := [];
           extracted_text_preview :=
             Some (expected_text 1 ["hello"; "world"]) |}
  /\ map (PyStr.contains "Generate 100 questions")
       (llm_prompts (snd (Runs.post 100))) = [true]
  /\ fst (Runs.post 0) = fst (Runs.post 100)
  /\ map (PyStr.contains "Generate 0 questions")
       (llm_prompts (snd (Runs.post 0))) = [true]
  /\ map (PyStr.contains "Generate 10 questions")
       (llm_prompts
          (snd (post_generate_questions
                  (Demo.env Runs.steady_vision (Runs.answering "[]"))
                  (Runs.form None None)
                  (Demo.request [Runs.png; Runs.jpeg])))) = [true].
Proof.
  repeat split; vm_compute; reflexivity.
Qed.

(** C10: when the model output is an empty array, with or without noise
    around it, the call succeeds with no question and a count of 0; and
    whatever the number of items the model produces, the call returns one
    question per item: the requested [num_questions] is not compared with
    it. *)
Theorem any_number_of_questions_is_accepted (E : Env)
    (content subject : string) (n : Z) (difficulty : string)
    (qts : option (list string)) (w : World) (raw : string) :
  invoke E (prompt_for subject n difficulty qts content) = inr raw ->
  let result :=
    fst (generate_questions_from_content E content subject n difficulty qts w)
  in
  (forall pre post,
     raw = pre ++ "[]" ++ post ->
     PyStr.index_of "["%char pre = None ->
     PyStr.rindex_of "]"%char post = None ->
     json_loads E "[]" = inr (JArray []) ->
     result = inr {| success := true;
                     response_subject := subject;
                     total_questions := 0;
                     questions := [];
                     extracted_text_preview := Some (text_preview content) |})
  /\ (forall items qs,
        reaches_coercion E raw items ->
        construct_questions E items = inr qs ->
        result = inr {| success := true;
                        response_subject := subject;
                        total_questions := Z.of_nat (List.length items);
                        questions := qs;
                        extracted_text_preview :=
                          Some (text_preview content) |}).
Proof.
  intros Hinv result.
  pose proof (generate_unfold E content subject n difficulty qts w raw Hinv)
    as Hu.
  fold result in Hu. split.
  - intros pre post Hraw Hpre Hpost Hd.
    destruct (bracketed_noise pre EmptyString post Hpre Hpost)
      as (Hne & Hb & Hbr).
    change (pre ++ "[" ++ EmptyString ++ "]" ++ post)
      with (pre ++ "[]" ++ post) in Hne, Hb, Hbr.
    rewrite <- Hraw in Hne, Hb, Hbr.
    change ("[" ++ EmptyString ++ "]") with "[]" in Hbr.
    rewrite Hu.
    rewrite (parse_response_found E content subject _ Hne Hb), Hbr, Hd.
    reflexivity.
  - intros items qs Hreach Hc.
    rewrite Hu, (parse_response_items E content subject raw items Hreach), Hc.
    now rewrite (Forall2_length (construct_all E items qs Hc)).
Qed.

Lemma any_number_of_questions_is_accepted_witness :
  fst (generate_questions_from_content
         (Demo.env Runs.steady_vision (Runs.answering "Here you are: [] "))
         "The content." "Math" 10 "easy" None (Demo.request []))
  = inr {| success := true;
           response_subject := "Math";
           total_questions := 0;
           questions := [];
           extracted_text_preview := Some (text_preview "The content.") |}.
Proof.
  apply (any_number_of_questions_is_accepted
           (Demo.env Runs.steady_vision (Runs.answering "Here you are: [] "))
           "The content." "Math" 10 "easy" None (Demo.request [])
           "Here you are: [] " eq_refl)
    with (pre := "Here you are: ") (post := " ");
    reflexivity.
Defined.

(** * Further properties of the pipeline *)

(** ** The footprint of the extraction *)

Lemma within_weaken (lo hi lo' hi' : nat) (ev : Event) :
  (lo' <= lo)%nat -> (hi <= hi')%nat -> within lo hi ev -> within lo' hi' ev.
Proof.
  intros Hlo Hhi. destruct ev; simpl; intros H; try exact H; lia.
Qed.

Lemma count_vision_app (a b : list Event) :
  count_vision (a ++ b) = (count_vision a + count_vision b)%nat.
Proof.
  unfold count_vision. now rewrite filter_app, length_app.
Qed.

Lemma count_llm_app (a b : list Event) :
  count_llm (a ++ b) = (count_llm a + count_llm b)%nat.
Proof.
  unfold count_llm. now rewrite filter_app, length_app.
Qed.

Lemma slept_app (a b : list Event) : slept (a ++ b) = (slept a + slept b)%Z.
Proof.
  induction a as [| ev a IH]; [reflexivity |].
  destruct ev; simpl; rewrite IH; lia.
Qed.

Ltac events_within :=
  repeat (apply Forall_cons; [simpl; try lia; auto |]); try apply Forall_nil.

Lemma within_no_llm (lo hi : nat) (evs : list Event) :
  Forall (within lo hi) evs -> count_llm evs = 0%nat.
Proof.
  induction 1 as [| ev evs Hev _ IH]; [reflexivity |].
  destruct ev; simpl in *; try exact IH. contradiction.
Qed.

(** One pass through the body of the [try]. *)
Lemma try_body_footprint (E : Env) (idx attempt : nat) (f : UploadFile) :
  (attempt < max_retries)%nat ->
  let '(r, f', evs) := try_body E idx attempt f in
  same_upload f f'
  /\ Forall (within idx (S idx)) evs
  /\ (count_vision evs <= 1)%nat
  /\ slept evs = 0%Z
  /\ match r with
     | inr _ => position f' = 0%nat
     | inl _ => True
     end.
Proof.
  intros Ha. unfold try_body, same_upload. simpl.
  destruct (Image_open E _) as [e | image].
  - repeat split; auto; try (simpl; lia); events_within.
  - destruct (generate_content E _ _ _ _) as [e | t].
    + repeat split; auto; try (simpl; lia); events_within.
    + repeat split; auto; try (simpl; lia); events_within.
Qed.

(** The retry loop on one image, for any environment and any upload. *)
Lemma attempts_footprint (E : Env) (idx : nat) (acc : list string) :
  forall (remaining attempt : nat) (f : UploadFile),
    (attempt + remaining = max_retries)%nat ->
    (0 < remaining)%nat ->
    let '(r, f', evs) := attempts E idx remaining attempt acc f in
    same_upload f f'
    /\ Forall (within idx (S idx)) evs
    /\ (count_vision evs <= remaining)%nat
    /\ (slept evs <= 2 * (Z.of_nat remaining - 1))%Z
    /\ match r with
       | inr acc' =>
           (exists t, acc' = (acc ++ [entry idx t])%list)
           /\ position f' = 0%nat
       | inl e => exists msg, e = extraction_error idx msg
       end.
Proof.
  induction remaining as [| remaining IH]; intros attempt f Hsum Hpos;
    [lia |].
  cbn [attempts].
  assert (Ha : (attempt < max_retries)%nat) by lia.
  pose proof (try_body_footprint E idx attempt f Ha) as Hb.
  destruct (try_body E idx attempt f) as [[r f1] evs].
  destruct Hb as (Hsame & Hw & Hc & Hs & Hr).
  destruct r as [e | t].
  - destruct (is_transient (exception_str E e)
              && (attempt <? max_retries - 1)%nat) eqn:Hretry.
    + apply andb_prop in Hretry. destruct Hretry as [_ Hlt].
      apply Nat.ltb_lt in Hlt.
      assert (Hrem : (0 < remaining)%nat) by (unfold max_retries in *; lia).
      specialize (IH (S attempt) (seek f1 0) ltac:(lia) Hrem).
      destruct (attempts E idx remaining (S attempt) acc (seek f1 0))
        as [[r' f2] evs'].
      destruct IH as (Hsame' & Hw' & Hc' & Hs' & Hr').
      split; [| split; [| split; [| split]]].
      * destruct Hsame as [H1 H2], Hsame' as [H3 H4]. simpl in H3, H4.
        split; congruence.
      * apply Forall_app. split; [exact Hw |].
        apply Forall_app. split; [| exact Hw'].
        events_within.
      * rewrite !count_vision_app.
        assert (H0 : count_vision [Print (retry_notice idx attempt);
                                   Sleep retry_delay; Seek idx 0] = 0%nat)
          by reflexivity.
        rewrite H0. lia.
      * rewrite !slept_app.
        assert (H0 : slept [Print (retry_notice idx attempt);
                            Sleep retry_delay; Seek idx 0] = 2%Z)
          by reflexivity.
        rewrite H0. lia.
      * exact Hr'.
    + split; [exact Hsame |].
      repeat split; auto; try lia. eexists. reflexivity.
  - split; [exact Hsame |].
    repeat split; auto; try lia. eexists. reflexivity.
Qed.

Lemma same_upload_rewound (f f' : UploadFile) :
  same_upload f f' -> position f' = 0%nat -> f' = rewound f.
Proof.
  destruct f as [ct b p], f' as [ct' b' p']. unfold same_upload, rewound, seek.
  simpl. intros [-> ->] ->. reflexivity.
Qed.

Lemma same_upload_refl (f : UploadFile) : same_upload f f.
Proof. split; reflexivity. Qed.

Lemma Forall2_same_upload_refl (files : list UploadFile) :
  Forall2 same_upload files files.
Proof.
  induction files; constructor; auto using same_upload_refl.
Qed.

(** The loop over the images, for any environment and any uploads. *)
Lemma each_image_footprint (E : Env) :
  forall (files : list UploadFile) (idx : nat) (acc : list string),
    let '(r, files', evs) := each_image E idx files acc in
    Forall (within idx (idx + List.length files)) evs
    /\ (count_vision evs <= 3 * List.length files)%nat
    /\ (slept evs <= 4 * Z.of_nat (List.length files))%Z
    /\ Forall2 same_upload files files'
    /\ match r with
       | inr acc' =>
           (exists texts,
              List.length texts = List.length files
              /\ acc' = (acc ++ entries idx texts)%list)
           /\ files' = map rewound files
       | inl e =>
           exists k msg,
             (k < List.length files)%nat
             /\ e = extraction_error (idx + k) msg
             /\ skipn (S k) files' = skipn (S k) files
             /\ firstn k files' = map rewound (firstn k files)
             /\ Forall (within idx (idx + S k)) evs
       end.
Proof.
  induction files as [| f files IH]; intros idx acc.
  - simpl. repeat split; auto; try lia.
    exists []. split; [reflexivity | now rewrite app_nil_r].
  - cbn [each_image].
    pose proof (attempts_footprint E idx acc max_retries 0 f eq_refl
                  ltac:(unfold max_retries; lia)) as Ha.
    destruct (attempts E idx max_retries 0 acc f) as [[r f'] evs].
    destruct Ha as (Hsame & Hw & Hc & Hs & Hr).
    cbn [List.length].
    destruct r as [e | acc'].
    + destruct Hr as (msg & ->).
      split; [| split; [| split; [| split]]].
      * eapply Forall_impl; [| exact Hw].
        intros ev. apply within_weaken; lia.
      * unfold max_retries in Hc. lia.
      * unfold max_retries in Hs. lia.
      * constructor; [exact Hsame | apply Forall2_same_upload_refl].
      * exists 0%nat, msg. rewrite Nat.add_0_r. repeat split.
        -- lia.
        -- eapply Forall_impl; [| exact Hw].
           intros ev. apply within_weaken; lia.
    + destruct Hr as ((t & ->) & Hp).
      specialize (IH (S idx) (acc ++ [entry idx t])%list).
      destruct (each_image E (S idx) files (acc ++ [entry idx t])%list)
        as [[r' files'] evs'].
      destruct IH as (Hw' & Hc' & Hs' & Hsame' & Hr').
      split; [| split; [| split; [| split]]].
      * apply Forall_app. split.
        -- eapply Forall_impl; [| exact Hw].
           intros ev. apply within_weaken; lia.
        -- eapply Forall_impl; [| exact Hw'].
           intros ev. apply within_weaken; lia.
      * rewrite count_vision_app. unfold max_retries in Hc. lia.
      * rewrite slept_app. unfold max_retries in Hs. lia.
      * constructor; assumption.
      * destruct r' as [e | acc''].
        -- destruct Hr' as (k & msg & Hk & -> & Hskip & Hfirst & Hwk).
           exists (S k), msg. repeat split.
           ++ lia.
           ++ f_equal. lia.
           ++ exact Hskip.
           ++ cbn [firstn map]. rewrite Hfirst.
              now rewrite (same_upload_rewound f f' Hsame Hp).
           ++ apply Forall_app. split.
              ** eapply Forall_impl; [| exact Hw].
                 intros ev. apply within_weaken; lia.
              ** eapply Forall_impl; [| exact Hwk].
                 intros ev. apply within_weaken; lia.
        -- destruct Hr' as ((texts & Hlen & ->) & ->).
           split.
           ++ exists (t :: texts). split; [simpl; lia |].
              cbn [entries]. now rewrite <- app_assoc.
           ++ cbn [map]. now rewrite (same_upload_rewound f f' Hsame Hp).
Qed.

(** The events of the loop over the images, cut per image. *)
Lemma each_image_segments (E : Env) :
  forall (files : list UploadFile) (idx : nat) (acc : list string),
    let '(r, files', evs) := each_image E idx files acc in
    exists segments,
      evs = List.concat segments
      /\ (List.length segments <= List.length files)%nat
      /\ per_image idx segments.
Proof.
  induction files as [| f files IH]; intros idx acc.
  - simpl. exists []. repeat split; auto.
  - cbn [each_image].
    pose proof (attempts_footprint E idx acc max_retries 0 f eq_refl
                  ltac:(unfold max_retries; lia)) as Ha.
    destruct (attempts E idx max_retries 0 acc f) as [[r f'] evs].
    destruct Ha as (_ & Hw & Hc & Hs & _).
    assert (Hone : one_image idx evs).
    { unfold max_retries in Hc, Hs. repeat split; auto; lia. }
    destruct r as [e | acc'].
    + exists [evs]. cbn [List.concat List.length per_image].
      rewrite app_nil_r. repeat split; auto; lia.
    + specialize (IH (S idx) acc').
      destruct (each_image E (S idx) files acc') as [[r' files'] evs'].
      destruct IH as (segments & -> & Hlen & Hp).
      exists (evs :: segments). cbn [List.concat List.length per_image].
      repeat split; auto; lia.
Qed.

Lemma count_vision_of_app (idx : nat) (a b : list Event) :
  count_vision_of idx (a ++ b)
  = (count_vision_of idx a + count_vision_of idx b)%nat.
Proof.
  unfold count_vision_of. now rewrite filter_app, length_app.
Qed.

Lemma count_vision_of_le (idx : nat) (evs : list Event) :
  (count_vision_of idx evs <= count_vision evs)%nat.
Proof.
  unfold count_vision_of, count_vision.
  induction evs as [| ev evs IH]; [simpl; lia |].
  destruct ev as [i | i | i attempt | seconds | i offset | line | messages];
    simpl; try exact IH.
  destruct (i =? idx)%nat; simpl; lia.
Qed.

Lemma count_vision_of_outside (lo hi idx : nat) (evs : list Event) :
  Forall (within lo hi) evs ->
  (idx < lo \/ hi <= idx)%nat ->
  count_vision_of idx evs = 0%nat.
Proof.
  intros H Hout. unfold count_vision_of.
  induction H as [| ev evs Hev _ IH]; [reflexivity |].
  destruct ev as [i | i | i attempt | seconds | i offset | line | messages];
    simpl; try exact IH.
  destruct Hev as [Hi _].
  assert (Hne : (i =? idx)%nat = false) by (apply Nat.eqb_neq; lia).
  now rewrite Hne.
Qed.

Lemma count_vision_of_no_call (idx : nat) (evs : list Event) :
  count_vision evs = 0%nat -> count_vision_of idx evs = 0%nat.
Proof.
  pose proof (count_vision_of_le idx evs). lia.
Qed.

Lemma per_image_later (idx : nat) :
  forall (segments : list (list Event)) (lo : nat),
    per_image lo segments -> (idx < lo)%nat ->
    count_vision_of idx (List.concat segments) = 0%nat.
Proof.
  induction segments as [| evs segments IH]; intros lo Hp Hlt;
    [reflexivity |].
  destruct Hp as [(Hw & _) Hp]. cbn [List.concat].
  rewrite count_vision_of_app,
    (count_vision_of_outside lo (S lo) idx evs Hw) by lia.
  apply (IH (S lo) Hp). lia.
Qed.

(** Every image gets at most three calls of the vision model. *)
Lemma per_image_calls (idx : nat) :
  forall (segments : list (list Event)) (lo : nat),
    per_image lo segments ->
    (count_vision_of idx (List.concat segments) <= 3)%nat.
Proof.
  induction segments as [| evs segments IH]; intros lo Hp;
    [simpl; unfold count_vision_of; simpl; lia |].
  destruct Hp as [(Hw & Hc & _) Hp]. cbn [List.concat].
  rewrite count_vision_of_app.
  destruct (Nat.eq_dec idx lo) as [-> | Hne].
  - rewrite (per_image_later lo segments (S lo) Hp) by lia.
    pose proof (count_vision_of_le lo evs). lia.
  - rewrite (count_vision_of_outside lo (S lo) idx evs Hw) by lia.
    apply (IH (S lo) Hp).
Qed.

Lemma per_upload_calls (n idx : nat) (evs : list Event) :
  per_upload n evs -> (count_vision_of idx evs <= 3)%nat.
Proof.
  intros (segments & -> & _ & Hp). now apply (per_image_calls idx segments 0).
Qed.

Lemma per_upload_nil (n : nat) : per_upload n [].
Proof.
  exists []. repeat split; simpl; auto; lia.
Qed.

(** X1: whatever the environment answers, the events an extraction over N
    uploads appends to the log are those of at most N retry loops, one per
    image and in the order of the batch, each with the events of its image
    only: at most three calls of the vision model, each one of the three
    attempts of that image, and at most four seconds of delay, in delays of 2
    seconds.  No image gets more than three calls, the language model is
    never called, and nothing of an upload changes but its cursor. *)
Theorem extraction_is_bounded (E : Env) (w : World) :
  exists evs,
    log (snd (extract_text_from_images E w)) = (log w ++ evs)%list
    /\ per_upload (List.length (images w)) evs
    /\ (forall idx, (count_vision_of idx evs <= 3)%nat)
    /\ count_llm evs = 0%nat
    /\ Forall2 same_upload (images w)
         (images (snd (extract_text_from_images E w))).
Proof.
  unfold extract_text_from_images.
  pose proof (each_image_footprint E (images w) 0 []) as H.
  pose proof (each_image_segments E (images w) 0 []) as Hseg.
  destruct (each_image E 0 (images w) []) as [[r files'] evs].
  destruct H as (Hw & _ & _ & Hsame & _).
  assert (Hup : per_upload (List.length (images w)) evs) by exact Hseg.
  exists evs. destruct r; simpl; repeat split; auto;
    try (intros idx; now apply (per_upload_calls (List.length (images w))));
    now apply (within_no_llm 0 (List.length (images w))).
Qed.

Lemma strip_not_empty (c : ascii) (s : string) :
  PyStr.isspace c = false -> PyStr.strip (String c s) <> EmptyString.
Proof.
  intros Hc. unfold PyStr.strip. simpl. rewrite Hc. simpl. rewrite Hc.
  discriminate.
Qed.

Lemma expected_text_not_blank (k : nat) (texts : list string) :
  texts <> [] -> PyStr.strip (expected_text k texts) <> EmptyString.
Proof.
  destruct texts as [| t texts]; [congruence |]. intros _.
  cbn [expected_text].
  change ("--- Image " ++ PyStr.of_nat k ++ " ---" ++ PyStr.nl ++ t
          ++ PyStr.nl
          ++ match texts with
             | [] => EmptyString
             | _ :: _ => PyStr.nl ++ expected_text (S k) texts
             end)
    with (String "-"%char
            ("-- Image " ++ PyStr.of_nat k ++ " ---" ++ PyStr.nl ++ t
             ++ PyStr.nl
             ++ match texts with
                | [] => EmptyString
                | _ :: _ => PyStr.nl ++ expected_text (S k) texts
                end)).
  now apply strip_not_empty.
Qed.

Lemma extraction_shape (E : Env) (w : World) (text : string) :
  fst (extract_text_from_images E w) = inr text ->
  exists texts,
    List.length texts = List.length (images w)
    /\ text = expected_text 1 texts
    /\ images (snd (extract_text_from_images E w)) = map rewound (images w).
Proof.
  unfold extract_text_from_images.
  pose proof (each_image_footprint E (images w) 0 []) as H.
  destruct (each_image E 0 (images w) []) as [[r files'] evs].
  destruct H as (_ & _ & _ & _ & Hr).
  destruct r as [e | acc]; simpl; intros Heq; [discriminate |].
  destruct Hr as ((texts & Hlen & ->) & ->).
  exists texts. repeat split; auto.
  injection Heq as <-. simpl. apply concat_entries.
Qed.

(** X2: whenever the extraction returns, for whatever environment, the text
    is made of exactly one entry per upload, under the markers 1..N in this
    order, and every upload is left with its cursor back at the start.  The
    text of a batch that is not empty is therefore never blank, even if
    every image reads as the empty text. *)
Theorem extraction_returns_one_entry_per_image (E : Env) (w : World)
    (text : string) :
  fst (extract_text_from_images E w) = inr text ->
  (exists texts,
     List.length texts = List.length (images w)
     /\ text = expected_text 1 texts)
  /\ images (snd (extract_text_from_images E w)) = map rewound (images w)
  /\ (images w <> [] -> PyStr.strip text <> EmptyString).
Proof.
  intros H.
  destruct (extraction_shape E w text H) as (texts & Hlen & Htext & Himg).
  split; [| split].
  - exists texts. now split.
  - exact Himg.
  - intros Hne. rewrite Htext. apply expected_text_not_blank.
    intros ->. destruct (images w); [congruence | discriminate].
Qed.

Lemma extraction_returns_one_entry_per_image_witness :
  (exists texts,
     List.length texts = 2%nat
     /\ expected_text 1 [EmptyString; EmptyString] = expected_text 1 texts)
  /\ images (snd (extract_text_from_images
                    (Demo.env Runs3.blank_vision Runs.no_llm)
                    (Demo.request [Runs.png; Runs.jpeg])))
     = map rewound [Runs.png; Runs.jpeg]
  /\ ([Runs.png; Runs.jpeg] <> [] ->
      PyStr.strip (expected_text 1 [EmptyString; EmptyString])
      <> EmptyString).
Proof.
  apply (extraction_returns_one_entry_per_image
           (Demo.env Runs3.blank_vision Runs.no_llm)
           (Demo.request [Runs.png; Runs.jpeg])
           (expected_text 1 [EmptyString; EmptyString])).
  vm_compute. reflexivity.
Defined.

Lemma extraction_fails_at_some_image (E : Env) (w : World) (e : Exception) :
  fst (extract_text_from_images E w) = inl e ->
  exists k msg, e = extraction_error k msg.
Proof.
  unfold extract_text_from_images.
  pose proof (each_image_footprint E (images w) 0 []) as H.
  destruct (each_image E 0 (images w) []) as [[r files'] evs].
  destruct H as (_ & _ & _ & _ & Hr).
  destruct r as [e' | acc]; simpl; intros Heq; [| discriminate].
  injection Heq as <-.
  destruct Hr as (k & msg & _ & -> & _). now exists k, msg.
Qed.

(** X3: whenever the extraction raises, for whatever environment, the
    exception is the status-500 extraction error of one image of the batch;
    the uploads before that image are rewound, those after it are as they
    were, and nothing was read, decoded or sent for them. *)
Theorem extraction_fails_at_one_image (E : Env) (w : World) (e : Exception) :
  fst (extract_text_from_images E w) = inl e ->
  exists k msg evs,
    (k < List.length (images w))%nat
    /\ e = extraction_error k msg
    /\ log (snd (extract_text_from_images E w)) = (log w ++ evs)%list
    /\ Forall (within 0 (S k)) evs
    /\ skipn (S k) (images (snd (extract_text_from_images E w)))
       = skipn (S k) (images w)
    /\ firstn k (images (snd (extract_text_from_images E w)))
       = map rewound (firstn k (images w)).
Proof.
  unfold extract_text_from_images.
  pose proof (each_image_footprint E (images w) 0 []) as H.
  destruct (each_image E 0 (images w) []) as [[r files'] evs].
  destruct H as (_ & _ & _ & _ & Hr).
  destruct r as [e' | acc]; simpl; intros Heq; [| discriminate].
  injection Heq as <-.
  destruct Hr as (k & msg & Hk & -> & Hskip & Hfirst & Hw).
  exists k, msg, evs. repeat split; auto.
Qed.

Lemma extraction_fails_at_one_image_witness :
  exists k msg evs,
    (k < 3)%nat
    /\ HTTPException 500
         "Error extracting text from image 2 after 3 attempts: 403 permission denied"
       = extraction_error k msg
    /\ log (snd (extract_text_from_images
                   (Demo.env Runs3.middle_vision Runs.no_llm)
                   (Demo.request [Runs.png; Runs.jpeg; Runs.png])))
       = ([] ++ evs)%list
    /\ Forall (within 0 (S k)) evs
    /\ skipn (S k)
         (images (snd (extract_text_from_images
                         (Demo.env Runs3.middle_vision Runs.no_llm)
                         (Demo.request [Runs.png; Runs.jpeg; Runs.png]))))
       = skipn (S k) [Runs.png; Runs.jpeg; Runs.png]
    /\ firstn k
         (images (snd (extract_text_from_images
                         (Demo.env Runs3.middle_vision Runs.no_llm)
                         (Demo.request [Runs.png; Runs.jpeg; Runs.png]))))
       = map rewound (firstn k [Runs.png; Runs.jpeg; Runs.png]).
Proof.
  apply (extraction_fails_at_one_image
           (Demo.env Runs3.middle_vision Runs.no_llm)
           (Demo.request [Runs.png; Runs.jpeg; Runs.png])).
  vm_compute. reflexivity.
Defined.

(** ** The outcomes of the generation and of the handlers *)

Lemma generation_error_500 (E : Env) (t : option string) (e : Exception) :
  exists detail, generation_error E t e = HTTPException 500 detail.
Proof.
  unfold generation_error. destruct (is_JSONDecodeError e); eexists; reflexivity.
Qed.

Lemma parse_response_well_formed (E : Env) (content subject text : string)
    (r : QuestionGenerationResponse) :
  parse_response E content subject text = inr r ->
  well_formed_response subject content r.
Proof.
  unfold parse_response.
  destruct (PyStr.is_empty text); [discriminate |].
  destruct (negb _ && negb _); [| discriminate].
  destruct (json_loads E _) as [e | data]; [discriminate |].
  destruct (iterate data) as [e | items]; [discriminate |].
  destruct (construct_questions E items) as [e | qs]; [discriminate |].
  intros H. injection H as <-. repeat split.
Qed.

Lemma generation_outcome (E : Env) (content subject : string)
    (n : Z) (difficulty : string) (qts : option (list string)) (w : World) :
  outcome_in [500%Z] subject content
    (fst (generate_questions_from_content E content subject n difficulty
            qts w)).
Proof.
  unfold generate_questions_from_content.
  destruct (invoke E _) as [e | raw]; simpl.
  - destruct (generation_error_500 E None e) as (detail & ->).
    exists 500%Z, detail. split; [now left | reflexivity].
  - destruct (parse_response E content subject (PyStr.strip raw))
      as [e | r] eqn:Hp; simpl.
    + destruct (generation_error_500 E (Some (PyStr.strip raw)) e)
        as (detail & ->).
      exists 500%Z, detail. split; [now left | reflexivity].
    + exact (parse_response_well_formed E content subject _ r Hp).
Qed.

(** X4: whatever the two models answer, [generate_questions_from_content]
    either returns a response with [success] set, the subject of the request,
    [total_questions] equal to the number of questions and the preview of the
    content, or raises an [HTTPException] of status 500: no other exception
    and no other status leaves it. *)
Theorem generation_returns_or_raises_500 (E : Env) (content subject : string)
    (n : Z) (difficulty : string) (qts : option (list string)) (w : World) :
  match fst (generate_questions_from_content E content subject n difficulty
               qts w) with
  | inr response =>
      success response = true
      /\ response_subject response = subject
      /\ total_questions response
         = Z.of_nat (List.length (questions response))
      /\ extracted_text_preview response = Some (text_preview content)
  | inl e => exists detail, e = HTTPException 500 detail
  end.
Proof.
  pose proof (generation_outcome E content subject n difficulty qts w) as H.
  destruct (fst (generate_questions_from_content E content subject n
                   difficulty qts w)) as [e | response].
  - destruct H as (c & detail & [<- | []] & ->). now exists detail.
  - exact H.
Qed.

(** X5: a call of [generate_questions_from_content] calls the language model
    exactly once, with the prompt built from its arguments, whatever the
    model answers: a failed or unusable answer is not asked for again.  It
    never calls the vision model, never sleeps, and leaves the uploads as
    they are. *)
Theorem generation_calls_the_model_once (E : Env) (content subject : string)
    (n : Z) (difficulty : string) (qts : option (list string)) (w : World) :
  exists evs,
    log (snd (generate_questions_from_content E content subject n difficulty
                qts w))
    = (log w ++ evs)%list
    /\ filter is_llm_call evs
       = [LlmCall (prompt_for subject n difficulty qts content)]
    /\ count_vision evs = 0%nat
    /\ slept evs = 0%Z
    /\ images (snd (generate_questions_from_content E content subject n
                      difficulty qts w))
       = images w.
Proof.
  unfold generate_questions_from_content.
  change (format_messages subject n difficulty
            match qts with Some l => l | None => default_question_types end
            content)
    with (prompt_for subject n difficulty qts content).
  destruct (invoke E _) as [e | raw].
  - exists [LlmCall (prompt_for subject n difficulty qts content)].
    simpl. repeat split.
  - exists [LlmCall (prompt_for subject n difficulty qts content);
            Print ("LLM Response: " ++ PyStr.upto (PyStr.strip raw) 500
                   ++ "...")].
    destruct (parse_response E content subject (PyStr.strip raw));
      simpl; rewrite <- app_assoc; repeat split.
Qed.

(** ** The pipeline as a composition *)

Lemma extracted_text_not_blank (E : Env) (w : World) (text : string) :
  fst (extract_text_from_images E w) = inr text ->
  images w <> [] ->
  PyStr.is_empty (PyStr.strip text) = false.
Proof.
  intros H Hne.
  destruct (extraction_shape E w text H) as (texts & Hlen & -> & _).
  apply is_empty_false. apply expected_text_not_blank.
  intros ->. destruct (images w); [congruence | discriminate].
Qed.

Lemma process_unfold (E : Env) (subject : string) (n : Z)
    (difficulty : string) (qts : option (list string)) (w : World) :
  (1 <= List.length (images w))%nat ->
  Forall (fun image => valid_content_type image = true) (images w) ->
  process_images_and_generate_questions E subject n difficulty qts w
  = match extract_text_from_images E w with
    | (inl e, w1) => (inl e, w1)
    | (inr extracted_content, w1) =>
        generate_questions_from_content E extracted_content subject n
          difficulty qts w1
    end.
Proof.
  intros Hlen Hall. unfold process_images_and_generate_questions.
  assert (H1 : (List.length (images w) <? 1)%nat = false)
    by (apply Nat.ltb_ge; lia).
  rewrite H1.
  destruct (List.find (fun image => negb (valid_content_type image))
              (images w)) as [image |] eqn:Hfind.
  - apply find_some in Hfind. destruct Hfind as [Hin Hbad].
    rewrite Forall_forall in Hall. rewrite (Hall image Hin) in Hbad.
    discriminate.
  - destruct (extract_text_from_images E w) as [[e | text] w1] eqn:Hx;
      [reflexivity |].
    assert (Hnb : PyStr.is_empty (PyStr.strip text) = false).
    { apply (extracted_text_not_blank E w text).
      - now rewrite Hx.
      - intros Hnil. rewrite Hnil in Hlen. simpl in Hlen. lia. }
    now rewrite Hnb.
Qed.

Lemma outcome_400_500 (codes : list Z) (subject content : string)
    (r : Result QuestionGenerationResponse) :
  outcome_in [500%Z] subject content r -> is_no_text_error r = false.
Proof.
  destruct r as [e | response]; [| reflexivity].
  intros (c & detail & [<- | []] & ->). reflexivity.
Qed.

(** X6: the check for an empty extracted text, lines 232-236, never fires:
    for no environment and no request does
    [process_images_and_generate_questions] raise "No text could be
    extracted from the images". *)
Theorem no_text_error_is_never_raised (E : Env) (subject : string) (n : Z)
    (difficulty : string) (qts : option (list string)) (w : World) :
  is_no_text_error
    (fst (process_images_and_generate_questions E subject n difficulty qts w))
  = false.
Proof.
  unfold process_images_and_generate_questions.
  destruct (List.length (images w) <? 1)%nat eqn:Hlen; [reflexivity |].
  destruct (List.find _ (images w)) as [image |]; [reflexivity |].
  destruct (extract_text_from_images E w) as [[e | text] w1] eqn:Hx.
  - destruct (extraction_fails_at_some_image E w e) as (k & msg & ->);
      [now rewrite Hx | reflexivity].
  - assert (Hnb : PyStr.is_empty (PyStr.strip text) = false).
    { apply (extracted_text_not_blank E w text).
      - now rewrite Hx.
      - intros Hnil. rewrite Hnil in Hlen. discriminate. }
    rewrite Hnb.
    apply (outcome_400_500 [500%Z] subject text).
    apply generation_outcome.
Qed.

(** X7: for a batch that passes the checks of the controller (at least one
    upload, each of a valid image type), the pipeline is the extraction
    followed by the generation on the extracted text: an extraction error is
    passed on as it is, and any returned text, also one with empty entries
    only, goes to the language model. *)
Theorem pipeline_is_extraction_then_generation (E : Env) (subject : string)
    (n : Z) (difficulty : string) (qts : option (list string)) (w : World) :
  (1 <= List.length (images w))%nat ->
  Forall (fun image => valid_content_type image = true) (images w) ->
  process_images_and_generate_questions E subject n difficulty qts w
  = match extract_text_from_images E w with
    | (inl e, w1) => (inl e, w1)
    | (inr extracted_content, w1) =>
        generate_questions_from_content E extracted_content subject n
          difficulty qts w1
    end.
Proof.
  intros Hlen Hall. now apply process_unfold.
Qed.

Lemma pipeline_is_extraction_then_generation_witness :
  process_images_and_generate_questions
    (Demo.env Runs3.blank_vision (Runs.answering "[]")) "Math" 5 "easy" None
    (Demo.request [Runs.png; Runs.jpeg])
  = match extract_text_from_images
            (Demo.env Runs3.blank_vision (Runs.answering "[]"))
            (Demo.request [Runs.png; Runs.jpeg]) with
    | (inl e, w1) => (inl e, w1)
    | (inr extracted_content, w1) =>
        generate_questions_from_content
          (Demo.env Runs3.blank_vision (Runs.answering "[]"))
          extracted_content "Math" 5 "easy" None w1
    end.
Proof.
  apply (pipeline_is_extraction_then_generation
           (Demo.env Runs3.blank_vision (Runs.answering "[]")) "Math" 5
           "easy" None (Demo.request [Runs.png; Runs.jpeg])).
  - simpl. lia.
  - repeat constructor.
Defined.

(** ** Outcomes and cost of the controller and of the route *)

Lemma process_outcome (E : Env) (subject : string) (n : Z)
    (difficulty : string) (qts : option (list string)) (w : World) :
  match fst (process_images_and_generate_questions E subject n difficulty
               qts w) with
  | inr response =>
      exists text,
        fst (extract_text_from_images E w) = inr text
        /\ well_formed_response subject text response
  | inl e =>
      exists detail,
        (e = HTTPException 400 detail
         /\ bad_image_count_or_type 1 (images w))
        \/ e = HTTPException 500 detail
  end.
Proof.
  unfold process_images_and_generate_questions.
  destruct (List.length (images w) <? 1)%nat eqn:Hlen.
  { simpl. eexists. left. split; [reflexivity |].
    left. now apply Nat.ltb_lt. }
  destruct (List.find _ (images w)) as [image |] eqn:Hfind.
  { simpl. eexists. left. split; [reflexivity |].
    right. apply find_some in Hfind. destruct Hfind as [Hin Hbad].
    exists image. split; [exact Hin |]. now apply negb_true_iff. }
  destruct (extract_text_from_images E w) as [[e | text] w1] eqn:Hx.
  - simpl. destruct (extraction_fails_at_some_image E w e) as (k & msg & ->);
      [now rewrite Hx |].
    eexists. right. reflexivity.
  - assert (Hnb : PyStr.is_empty (PyStr.strip text) = false).
    { apply (extracted_text_not_blank E w text).
      - now rewrite Hx.
      - intros Hnil. rewrite Hnil in Hlen. discriminate. }
    rewrite Hnb.
    pose proof (generation_outcome E text subject n difficulty qts w1) as H.
    destruct (fst (generate_questions_from_content E text subject n
                     difficulty qts w1)) as [e | response].
    + destruct H as (c & detail & [<- | []] & ->).
      exists detail. now right.
    + exists text. now split.
Qed.

Lemma request_cost_refl (w : World) : request_cost w w.
Proof.
  exists [], []. cbn [app]. rewrite app_nil_r.
  split; [reflexivity |]. split; [apply per_upload_nil |].
  split; [intros idx; apply Nat.le_0_l |]. split; [reflexivity |].
  split; [apply Nat.le_0_l |]. split; [reflexivity |].
  split; [reflexivity |]. apply Forall2_same_upload_refl.
Qed.

Lemma process_cost (E : Env) (subject : string) (n : Z)
    (difficulty : string) (qts : option (list string)) (w : World) :
  request_cost w
    (snd (process_images_and_generate_questions E subject n difficulty qts
            w)).
Proof.
  unfold process_images_and_generate_questions.
  destruct (List.length (images w) <? 1)%nat.
  { apply request_cost_refl. }
  destruct (List.find _ (images w)).
  { apply request_cost_refl. }
  unfold extract_text_from_images.
  pose proof (each_image_footprint E (images w) 0 []) as H.
  pose proof (each_image_segments E (images w) 0 []) as Hseg.
  destruct (each_image E 0 (images w) []) as [[r files'] evs].
  destruct H as (Hw & _ & _ & Hsame & _).
  assert (Hup : per_upload (List.length (images w)) evs) by exact Hseg.
  pose proof (within_no_llm _ _ _ Hw) as Hllm.
  assert (Hcalls : forall rest idx,
             count_vision rest = 0%nat ->
             (count_vision_of idx (evs ++ rest) <= 3)%nat).
  { intros rest idx H0. rewrite count_vision_of_app,
      (count_vision_of_no_call idx rest H0), Nat.add_0_r.
    now apply (per_upload_calls (List.length (images w))). }
  assert (Hstop : request_cost w
                    {| images := files'; log := (log w ++ evs)%list |}).
  { exists evs, []. rewrite app_nil_r. cbn [log images].
    split; [reflexivity |]. split; [exact Hup |].
    split; [intros idx; now apply (per_upload_calls (List.length (images w)))
           |].
    split; [exact Hllm |]. split; [apply Nat.le_0_l |].
    split; [reflexivity |]. split; [reflexivity | exact Hsame]. }
  assert (Hgen : forall rest w',
             log w' = ((log w ++ evs) ++ rest)%list ->
             images w' = files' ->
             (count_llm rest <= 1)%nat ->
             count_vision rest = 0%nat ->
             slept rest = 0%Z ->
             request_cost w w').
  { intros rest w' Hlog Himg H1 H0 Hs. exists evs, rest.
    rewrite Hlog, Himg, <- app_assoc.
    split; [reflexivity |]. split; [exact Hup |].
    split; [intros idx; now apply Hcalls |].
    split; [exact Hllm |]. split; [exact H1 |].
    split; [exact H0 |]. split; [exact Hs | exact Hsame]. }
  destruct r as [e | acc]; [exact Hstop |].
  destruct (PyStr.is_empty _); [exact Hstop |].
  unfold generate_questions_from_content.
  destruct (invoke E _) as [e | raw].
  - eapply (Hgen [_]); cbn [fst snd log images emit];
      try reflexivity; try apply Nat.le_refl.
  - destruct (parse_response E _ subject (PyStr.strip raw));
      eapply (Hgen [_; _]); cbn [fst snd log images emit];
      try (rewrite <- !app_assoc); try reflexivity; try apply Nat.le_refl.
Qed.

(** X8: whatever the form and whatever the two models answer, what one
    request to the route appends to the log is the events of the extraction
    followed by those of the generation.  The former are those of at most
    one retry loop per upload, in the order of the batch, each with at most
    three calls of the vision model and at most four seconds of delay; the
    latter hold at most one call of the language model, no call of the
    vision model and no delay.  No upload gets more than three calls of the
    vision model, and nothing of an upload changes but its cursor. *)
Theorem request_cost_is_bounded (E : Env) (subject : string) (n : Z)
    (difficulty question_types : string) (w : World) :
  exists evs rest,
    log (snd (generate_questions E subject n difficulty question_types w))
    = (log w ++ evs ++ rest)%list
    /\ per_upload (List.length (images w)) evs
    /\ (forall idx, (count_vision_of idx (evs ++ rest) <= 3)%nat)
    /\ count_llm evs = 0%nat
    /\ (count_llm rest <= 1)%nat
    /\ count_vision rest = 0%nat
    /\ slept rest = 0%Z
    /\ Forall2 same_upload (images w)
         (images (snd (generate_questions E subject n difficulty
                         question_types w))).
Proof.
  change (request_cost w
            (snd (generate_questions E subject n difficulty question_types
                    w))).
  unfold generate_questions.
  destruct (List.length (images w) <? 2)%nat; [apply request_cost_refl |].
  destruct (match parse_types question_types with
            | Some l => List.find (fun qt => negb (PyStr.mem qt valid_types)) l
            | None => None
            end); [apply request_cost_refl |].
  destruct (negb (PyStr.mem difficulty valid_difficulties));
    [apply request_cost_refl |].
  pose proof (process_cost E subject n difficulty
                (parse_types question_types) w) as H.
  destruct (process_images_and_generate_questions E subject n difficulty
              (parse_types question_types) w) as [[e | r] w'].
  - destruct (is_HTTPException e); exact H.
  - exact H.
Qed.

(** X9: the route answers with a response, with status 400 or with status
    500, and with nothing else.  Status 400 is only given to an invalid
    request: too few images, a wrong MIME type, difficulty or question type.
    A response has [success] set, the subject of the request, a count equal
    to the number of questions and the preview of the extracted text. *)
Theorem route_outcomes (E : Env) (subject : string) (n : Z)
    (difficulty question_types : string) (w : World) :
  match fst (generate_questions E subject n difficulty question_types w) with
  | inr response =>
      exists text,
        fst (extract_text_from_images E w) = inr text
        /\ success response = true
        /\ response_subject response = subject
        /\ total_questions response
           = Z.of_nat (List.length (questions response))
        /\ extracted_text_preview response = Some (text_preview text)
  | inl e =>
      exists detail,
        (e = HTTPException 400 detail
         /\ invalid_request (images w) difficulty question_types)
        \/ e = HTTPException 500 detail
  end.
Proof.
  unfold generate_questions.
  destruct (List.length (images w) <? 2)%nat eqn:Hlen.
  { simpl. eexists. left. split; [reflexivity |].
    left. left. now apply Nat.ltb_lt. }
  destruct (match parse_types question_types with
            | Some l => List.find (fun qt => negb (PyStr.mem qt valid_types)) l
            | None => None
            end) as [qt |] eqn:Hqt.
  { simpl. eexists. left. split; [reflexivity |].
    right. right.
    destruct (parse_types question_types) as [l |]; [| discriminate].
    apply find_some in Hqt. destruct Hqt as [Hin Hbad].
    exists l, qt. repeat split; auto.
    apply negb_true_iff in Hbad. intros Hv. apply mem_In in Hv. congruence. }
  destruct (PyStr.mem difficulty valid_difficulties) eqn:Hd; cbn [negb].
  2:{ simpl. eexists. left. split; [reflexivity |].
      right. left. intros Hv. apply mem_In in Hv. congruence. }
  pose proof (process_outcome E subject n difficulty
                (parse_types question_types) w) as H.
  destruct (process_images_and_generate_questions E subject n difficulty
              (parse_types question_types) w) as [[e | r] w'];
    cbn [fst] in H.
  - destruct H as (detail & [[-> Hbad] | ->]); simpl.
    + exists detail. left. split; [reflexivity |].
      left. destruct Hbad as [Hlt | Hex].
      * left. lia.
      * right. exact Hex.
    + exists detail. now right.
  - destruct H as (text & Hx & Hs & Hsub & Ht & Hp). simpl.
    exists text. repeat split; assumption.
Qed.

(** ** What the generation sees of the content and of the answer *)

Lemma substring_substring (n m : nat) :
  forall s : string,
    (n <= m)%nat -> substring 0 n (substring 0 m s) = substring 0 n s.
Proof.
  revert m. induction n as [| n IH]; intros m s H.
  - destruct m, s; reflexivity.
  - destruct m as [| m]; [lia |].
    destruct s as [| c s]; [reflexivity |].
    simpl. rewrite IH by lia. reflexivity.
Qed.

Lemma text_preview_long (content : string) :
  (500 < String.length content)%nat ->
  text_preview content = substring 0 500 content ++ "...".
Proof.
  intros H. unfold text_preview.
  assert (Hgt : (Z.of_nat (String.length content) >? 500)%Z = true).
  { rewrite Z.gtb_ltb. apply Z.ltb_lt. lia. }
  rewrite Hgt. change 500%Z with (Z.of_nat 500). now rewrite upto_first.
Qed.

Lemma prompt_for_truncates (subject : string) (n : Z) (difficulty : string)
    (qts : option (list string)) (c1 c2 : string) :
  substring 0 (Z.to_nat 8000) c1 = substring 0 (Z.to_nat 8000) c2 ->
  prompt_for subject n difficulty qts c1
  = prompt_for subject n difficulty qts c2.
Proof.
  intros H. unfold prompt_for, format_messages.
  replace 8000%Z with (Z.of_nat (Z.to_nat 8000)) by (apply Z2Nat.id; lia).
  now rewrite !upto_first, H.
Qed.

(** X10: of a content longer than 500 characters, the generation uses the
    first 8000 characters and nothing else: two contents that agree on them
    give the same prompt, the same outcome and the same log, whatever
    follows. *)
Theorem content_beyond_8000_is_ignored (E : Env) (c1 c2 subject : string)
    (n : Z) (difficulty : string) (qts : option (list string)) (w : World) :
  substring 0 (Z.to_nat 8000) c1 = substring 0 (Z.to_nat 8000) c2 ->
  (500 < String.length c1)%nat ->
  (500 < String.length c2)%nat ->
  prompt_for subject n difficulty qts c1
  = prompt_for subject n difficulty qts c2
  /\ generate_questions_from_content E c1 subject n difficulty qts w
     = generate_questions_from_content E c2 subject n difficulty qts w.
Proof.
  intros H8000 H1 H2.
  pose proof (prompt_for_truncates subject n difficulty qts c1 c2 H8000)
    as Hprompt.
  split; [exact Hprompt |].
  assert (Hpreview : text_preview c1 = text_preview c2).
  { rewrite !text_preview_long by assumption.
    rewrite <- (substring_substring 500 (Z.to_nat 8000) c1) by lia.
    rewrite <- (substring_substring 500 (Z.to_nat 8000) c2) by lia.
    now rewrite H8000. }
  unfold generate_questions_from_content.
  change (format_messages subject n difficulty
            match qts with Some l => l | None => default_question_types end
            c1)
    with (prompt_for subject n difficulty qts c1).
  change (format_messages subject n difficulty
            match qts with Some l => l | None => default_question_types end
            c2)
    with (prompt_for subject n difficulty qts c2).
  rewrite Hprompt.
  destruct (invoke E _) as [e | raw]; [reflexivity |].
  unfold parse_response. rewrite Hpreview. reflexivity.
Qed.

Lemma content_beyond_8000_is_ignored_witness :
  prompt_for "Math" 3 "easy" None Runs3.content_x
  = prompt_for "Math" 3 "easy" None Runs3.content_y
  /\ generate_questions_from_content
       (Demo.env Runs.steady_vision (Runs.answering Runs.noisy_output))
       Runs3.content_x "Math" 3 "easy" None (Demo.request [])
     = generate_questions_from_content
         (Demo.env Runs.steady_vision (Runs.answering Runs.noisy_output))
         Runs3.content_y "Math" 3 "easy" None (Demo.request []).
Proof.
  apply (content_beyond_8000_is_ignored
           (Demo.env Runs.steady_vision (Runs.answering Runs.noisy_output))
           Runs3.content_x Runs3.content_y "Math" 3 "easy" None
           (Demo.request [])).
  - vm_compute. reflexivity.
  - apply Nat.ltb_lt. vm_compute. reflexivity.
  - apply Nat.ltb_lt. vm_compute. reflexivity.
Defined.

Lemma index_of_split (c : ascii) :
  forall (s : string) (i : nat),
    PyStr.index_of c s = Some i ->
    exists pre rest,
      s = pre ++ String c rest /\ String.length pre = i
      /\ PyStr.index_of c pre = None.
Proof.
  induction s as [| x s IH]; intros i H; simpl in H; [discriminate |].
  destruct (Ascii.eqb x c) eqn:Hx.
  - injection H as <-. apply Ascii.eqb_eq in Hx. subst x.
    exists EmptyString, s. repeat split.
  - destruct (PyStr.index_of c s) as [j |] eqn:Hj; [| discriminate].
    injection H as <-.
    destruct (IH j eq_refl) as (pre & rest & -> & Hlen & Hno).
    exists (String x pre), rest. repeat split.
    + simpl. now rewrite Hlen.
    + simpl. now rewrite Hx, Hno.
Qed.

Lemma rindex_of_split (c : ascii) :
  forall (s : string) (j : nat),
    PyStr.rindex_of c s = Some j ->
    exists before post,
      s = before ++ String c post /\ String.length before = j
      /\ PyStr.rindex_of c post = None.
Proof.
  induction s as [| x s IH]; intros j H; simpl in H; [discriminate |].
  destruct (PyStr.rindex_of c s) as [k |] eqn:Hk.
  - injection H as <-.
    destruct (IH k eq_refl) as (before & post & -> & Hlen & Hno).
    exists (String x before), post. repeat split;
      [simpl; now rewrite Hlen | exact Hno].
  - destruct (Ascii.eqb x c) eqn:Hx; [| discriminate].
    injection H as <-. apply Ascii.eqb_eq in Hx. subst x.
    exists EmptyString, s. repeat split. exact Hk.
Qed.

Lemma append_split :
  forall (a b c d : string),
    a ++ b = c ++ d ->
    (String.length a <= String.length c)%nat ->
    exists m, c = a ++ m /\ b = m ++ d.
Proof.
  induction a as [| x a IH]; intros b c d H Hlen.
  - exists c. split; [reflexivity | exact H].
  - destruct c as [| y c]; [simpl in Hlen; lia |].
    simpl in H. injection H as -> H.
    destruct (IH b c d H) as (m & -> & ->); [simpl in Hlen; lia |].
    exists m. split; reflexivity.
Qed.

Lemma substring_zero :
  forall (n : nat) (s : string), substring n 0 s = EmptyString.
Proof.
  induction n as [| n IH]; intros s; destruct s; simpl; auto.
Qed.

Lemma brackets_found_indices (text : string) :
  brackets_found text ->
  exists i j,
    PyStr.index_of "["%char text = Some i
    /\ PyStr.rindex_of "]"%char text = Some j
    /\ PyStr.find "["%char text = Z.of_nat i
    /\ PyStr.rfind "]"%char text = Z.of_nat j.
Proof.
  unfold brackets_found, PyStr.find, PyStr.rfind. intros [Hf Hr].
  destruct (PyStr.index_of "["%char text) as [i |]; [| now elim Hf].
  destruct (PyStr.rindex_of "]"%char text) as [j |]; [| now elim Hr].
  exists i, j. repeat split.
Qed.

Lemma brackets_found_not_empty (text : string) :
  brackets_found text -> text <> EmptyString.
Proof.
  intros [Hf _] ->. now apply Hf.
Qed.

(** The slice of lines 164-168 on a text whose first ['['] and last [']']
    are known. *)
Lemma bracketed_span (pre mid post : string) :
  PyStr.index_of "["%char pre = None ->
  PyStr.rindex_of "]"%char post = None ->
  bracketed (pre ++ "[" ++ mid ++ "]" ++ post) = "[" ++ mid ++ "]".
Proof.
  intros Hpre Hpost.
  set (text := pre ++ "[" ++ mid ++ "]" ++ post).
  assert (Hfind : PyStr.find "["%char text = Z.of_nat (String.length pre)).
  { unfold text, PyStr.find.
    change (pre ++ "[" ++ mid ++ "]" ++ post)
      with (pre ++ String "["%char (mid ++ "]" ++ post)).
    now rewrite index_of_app. }
  assert (Hrfind : PyStr.rfind "]"%char text
                   = Z.of_nat (String.length pre + S (String.length mid))).
  { unfold text, PyStr.rfind.
    replace (pre ++ "[" ++ mid ++ "]" ++ post)
      with ((pre ++ String "["%char mid) ++ String "]"%char post)
      by (now rewrite append_assoc).
    rewrite rindex_of_app by assumption.
    rewrite length_append. reflexivity. }
  assert (Hlen : String.length text
                 = (String.length pre + (S (S (String.length mid))
                    + String.length post))%nat).
  { unfold text. rewrite length_append. simpl. rewrite length_append.
    simpl. lia. }
  unfold bracketed, PyStr.slice, PyStr.clamp. rewrite Hfind, Hrfind, Hlen.
  set (a := String.length pre). set (i := String.length mid).
  set (r := String.length post).
  assert (H1 : (Z.of_nat a <? 0)%Z = false) by (apply Z.ltb_ge; lia).
  assert (H2 : (Z.of_nat (a + S i) + 1 <? 0)%Z = false)
    by (apply Z.ltb_ge; lia).
  rewrite H1, H2.
  replace (Z.to_nat (Z.min (Z.of_nat a) (Z.of_nat (a + (S (S i) + r)))))
    with a by lia.
  replace (Z.to_nat (Z.min (Z.of_nat (a + S i) + 1)
                       (Z.of_nat (a + (S (S i) + r)))
                     - Z.min (Z.of_nat a) (Z.of_nat (a + (S (S i) + r)))))
    with (String.length ("[" ++ mid ++ "]")).
  2:{ simpl. rewrite length_append. simpl. fold i. lia. }
  unfold text. subst a.
  replace ("[" ++ mid ++ "]" ++ post) with (("[" ++ mid ++ "]") ++ post).
  2:{ simpl. now rewrite append_assoc. }
  apply substring_middle.
Qed.

Lemma parse_response_after_loads (E : Env) (content subject text : string) :
  brackets_found text ->
  parse_response E content subject text
  = after_loads E content subject (json_loads E (bracketed text)).
Proof.
  intros Hb.
  exact (parse_response_found E content subject text
           (brackets_found_not_empty text Hb) Hb).
Qed.

(** X13: what [json.loads] is given is the text from its first ['['] to its
    last [']']: what stands before the first ['['] and after the last [']']
    is dropped, and all that stands between them is kept, further brackets
    included, so that two arrays in one answer are read as one string.  When
    the last [']'] stands before the first ['['], [json.loads] is given the
    empty string. *)
Theorem the_widest_bracket_span_is_parsed (E : Env)
    (content subject text : string) :
  brackets_found text ->
  ((PyStr.find "["%char text < PyStr.rfind "]"%char text)%Z ->
   exists pre mid post,
     text = pre ++ "[" ++ mid ++ "]" ++ post
     /\ PyStr.index_of "["%char pre = None
     /\ PyStr.rindex_of "]"%char post = None
     /\ parse_response E content subject text
        = after_loads E content subject (json_loads E ("[" ++ mid ++ "]")))
  /\ ((PyStr.rfind "]"%char text < PyStr.find "["%char text)%Z ->
      parse_response E content subject text
      = after_loads E content subject (json_loads E EmptyString)).
Proof.
  intros Hb.
  rewrite (parse_response_after_loads E content subject text Hb).
  destruct (brackets_found_indices text Hb) as (i & j & Hi & Hj & Hf & Hr).
  rewrite Hf, Hr. split.
  - intros Hlt.
    destruct (index_of_split _ _ _ Hi) as (pre & rest & Ht1 & Hl1 & Hno1).
    destruct (rindex_of_split _ _ _ Hj) as (before & post & Ht2 & Hl2 & Hno2).
    assert (Hs : (pre ++ "[") ++ rest = before ++ String "]"%char post).
    { rewrite append_assoc. simpl. congruence. }
    destruct (append_split (pre ++ "[") rest before (String "]"%char post) Hs)
      as (mid & Hbefore & Hrest).
    { rewrite length_append. simpl. lia. }
    exists pre, mid, post.
    assert (Htext : text = pre ++ "[" ++ mid ++ "]" ++ post).
    { rewrite Ht1, Hrest. reflexivity. }
    repeat split; auto.
    rewrite Htext at 1. now rewrite bracketed_span.
  - intros Hlt. f_equal. f_equal.
    unfold bracketed, PyStr.slice, PyStr.clamp. rewrite Hf, Hr.
    assert (H1 : (Z.of_nat i <? 0)%Z = false) by (apply Z.ltb_ge; lia).
    assert (H2 : (Z.of_nat j + 1 <? 0)%Z = false) by (apply Z.ltb_ge; lia).
    rewrite H1, H2.
    replace (Z.to_nat (Z.min (Z.of_nat j + 1)
                         (Z.of_nat (String.length text))
                       - Z.min (Z.of_nat i) (Z.of_nat (String.length text))))
      with 0%nat by lia.
    apply substring_zero.
Qed.

Lemma two_arrays_brackets : brackets_found Runs4.two_arrays.
Proof.
  split; vm_compute; discriminate.
Defined.

Lemma the_widest_bracket_span_is_parsed_witness :
  ((PyStr.find "["%char Runs4.two_arrays
    < PyStr.rfind "]"%char Runs4.two_arrays)%Z ->
   exists pre mid post,
     Runs4.two_arrays = pre ++ "[" ++ mid ++ "]" ++ post
     /\ PyStr.index_of "["%char pre = None
     /\ PyStr.rindex_of "]"%char post = None
     /\ parse_response (Demo.env Runs.steady_vision Runs.no_llm)
          "The content." "Math" Runs4.two_arrays
        = after_loads (Demo.env Runs.steady_vision Runs.no_llm)
            "The content." "Math"
            (json_loads (Demo.env Runs.steady_vision Runs.no_llm)
               ("[" ++ mid ++ "]")))
  /\ ((PyStr.rfind "]"%char Runs4.two_arrays
       < PyStr.find "["%char Runs4.two_arrays)%Z ->
      parse_response (Demo.env Runs.steady_vision Runs.no_llm)
        "The content." "Math" Runs4.two_arrays
      = after_loads (Demo.env Runs.steady_vision Runs.no_llm)
          "The content." "Math"
          (json_loads (Demo.env Runs.steady_vision Runs.no_llm) EmptyString)).
Proof.
  apply (the_widest_bracket_span_is_parsed
           (Demo.env Runs.steady_vision Runs.no_llm)
           "The content." "Math" Runs4.two_arrays).
  exact two_arrays_brackets.
Defined.

(** ** More on the conversion into [Question] records *)

Lemma Question_init_unusable (E : Env) (item : json) :
  unusable_item item ->
  exists e, Question_init E item = inl e.
Proof.
  intros [Hnot | (kwargs & name & v & -> & Hin & Hget & Hv)].
  - destruct item; try (eexists; reflexivity).
    now elim (Hnot members).
  - assert (Hreq : required_str E kwargs name = inl [(name, "invalid")]).
    { unfold required_str. rewrite Hget.
      destruct v; try contradiction; reflexivity. }
    unfold Question_init.
    destruct Hin as [<- | [<- | [<- | [<- | []]]]]; rewrite Hreq;
      repeat match goal with
        | |- context [match ?x with inl _ => _ | inr _ => _ end] =>
            destruct x
        end; eexists; reflexivity.
Qed.

(** X11: an item of the parsed array that is not an object (a number, a
    string, null, an array), or an object in which a required field is null,
    an array or an object, fails the whole call with the status-500 error of
    the last handler, whatever the other items are. *)
Theorem unusable_item_fails_the_call (E : Env) (content subject : string)
    (n : Z) (difficulty : string) (qts : option (list string)) (w : World)
    (raw : string) (items : list json) :
  invoke E (prompt_for subject n difficulty qts content) = inr raw ->
  reaches_coercion E raw items ->
  Exists unusable_item items ->
  exists e,
    fst (generate_questions_from_content E content subject n difficulty qts w)
    = inl (generation_failure E e).
Proof.
  intros Hinv Hreach Hex.
  rewrite (generate_unfold E content subject n difficulty qts w raw Hinv).
  rewrite (parse_response_items E content subject raw items Hreach).
  apply Exists_exists in Hex. destruct Hex as (item & Hin & Hbad).
  destruct (construct_fails E items item Hin (Question_init_unusable E item Hbad))
    as (e & He).
  rewrite He. exists e. unfold generation_error.
  now rewrite (construct_error_kind E items e He).
Qed.

Lemma mixed_output_reaches_coercion :
  reaches_coercion
    (Demo.env Runs.steady_vision (Runs.answering Runs4.mixed_output))
    Runs4.mixed_output Runs4.mixed_items.
Proof.
  split; [| split].
  - vm_compute. discriminate.
  - split; vm_compute; discriminate.
  - eexists. split; vm_compute; reflexivity.
Defined.

Lemma unusable_item_fails_the_call_witness :
  exists e,
    fst (generate_questions_from_content
           (Demo.env Runs.steady_vision (Runs.answering Runs4.mixed_output))
           "The content." "Math" 2 "easy" None (Demo.request []))
    = inl (generation_failure
             (Demo.env Runs.steady_vision (Runs.answering Runs4.mixed_output))
             e).
Proof.
  apply (unusable_item_fails_the_call
           (Demo.env Runs.steady_vision (Runs.answering Runs4.mixed_output))
           "The content." "Math" 2 "easy" None (Demo.request [])
           Runs4.mixed_output Runs4.mixed_items eq_refl
           mixed_output_reaches_coercion).
  apply Exists_cons_tl. apply Exists_cons_hd.
  left. intros kwargs. discriminate.
Defined.

(** X12: the conversion of an object looks at the six keys of the schema
    only: two objects that agree on them are converted alike, whatever other
    keys they have and in whatever order. *)
Theorem other_keys_are_ignored (E : Env) (kwargs kwargs' : Dict.t) :
  (forall name, In name question_fields ->
     Dict.get name kwargs = Dict.get name kwargs') ->
  Question_init E (JObject kwargs) = Question_init E (JObject kwargs').
Proof.
  intros H. unfold Question_init, required_str, optional_str,
    optional_str_list.
  rewrite (H "question"), (H "question_type"), (H "options"),
    (H "correct_answer"), (H "difficulty"), (H "subject");
    try reflexivity; simpl; auto 10.
Qed.

Lemma other_keys_are_ignored_witness :
  Question_init (Demo.env Runs.steady_vision Runs.no_llm)
    (JObject Runs4.plain_object)
  = Question_init (Demo.env Runs.steady_vision Runs.no_llm)
      (JObject Runs4.annotated_object).
Proof.
  apply (other_keys_are_ignored (Demo.env Runs.steady_vision Runs.no_llm)
           Runs4.plain_object Runs4.annotated_object).
  intros name [<- | [<- | [<- | [<- | [<- | [<- | []]]]]]]; reflexivity.
Defined.

(** ** The retry schedule and the abort, image by image *)

Lemma slept_retried_log (E : Env) (idx : nat) (f : UploadFile) :
  forall (k attempt : nat),
    (attempt + k <= max_retries)%nat ->
    slept (retried_log E idx attempt k f) = (2 * Z.of_nat k)%Z
    /\ (count_vision (retried_log E idx attempt k f) <= k)%nat.
Proof.
  induction k as [| k IH]; intros attempt Hle; [split; reflexivity |].
  cbn [retried_log].
  pose proof (try_body_footprint E idx attempt f ltac:(lia)) as Hb.
  destruct (try_body E idx attempt f) as [[r f1] evs].
  destruct Hb as (_ & _ & Hc & Hs & _). cbn [snd].
  destruct (IH (S attempt) ltac:(lia)) as [IHs IHc].
  rewrite !slept_app, !count_vision_app, Hs, IHs.
  assert (H0 : slept [Print (retry_notice idx attempt); Sleep retry_delay;
                      Seek idx 0] = 2%Z) by reflexivity.
  assert (H1 : count_vision [Print (retry_notice idx attempt);
                             Sleep retry_delay; Seek idx 0] = 0%nat)
    by reflexivity.
  rewrite H0, H1. split; lia.
Qed.

(** X14: when the OCR of a fresh upload succeeds at attempt [k] after [k]
    transient failures, the retry loop logs, for each failed attempt, the
    events of the attempt, the notice, one delay of 2 seconds and the
    rewinding of the upload, and then the events of the successful attempt;
    it has slept 2 k seconds, it appends the entry of the image, and it
    leaves the upload as it found it. *)
Theorem retry_schedule (E : Env) (idx k : nat) (acc : list string)
    (f : UploadFile) (text : string) :
  position f = 0%nat ->
  (k < max_retries)%nat ->
  succeeds_at E idx k f text ->
  attempts E idx max_retries 0 acc f
  = (inr (acc ++ [entry idx text])%list, f,
     (retried_log E idx 0 k f ++ snd (try_body E idx k f))%list)
  /\ slept (retried_log E idx 0 k f ++ snd (try_body E idx k f))
     = (2 * Z.of_nat k)%Z
  /\ (count_vision (retried_log E idx 0 k f ++ snd (try_body E idx k f))
      <= k + 1)%nat.
Proof.
  intros Hpos Hk Hsucc. split.
  - now apply attempts_succeeds_log.
  - destruct (slept_retried_log E idx f k 0 ltac:(simpl; lia)) as [Hs Hc].
    pose proof (try_body_footprint E idx k f Hk) as Hb.
    destruct (try_body E idx k f) as [[r f1] evs].
    destruct Hb as (_ & _ & Hc' & Hs' & _). cbn [snd].
    rewrite slept_app, count_vision_app, Hs, Hs'. split; lia.
Qed.

Lemma flaky_first_image : succeeds_at
  (Demo.env Runs.flaky_vision Runs.no_llm) 0 2 Runs.png "hello".
Proof.
  split.
  - intros j Hj.
    destruct j as [| [| j]]; [| | lia]; eexists; split; reflexivity.
  - reflexivity.
Defined.

Lemma retry_schedule_witness :
  attempts (Demo.env Runs.flaky_vision Runs.no_llm) 0 max_retries 0 []
    Runs.png
  = (inr ([] ++ [entry 0 "hello"])%list, Runs.png,
     (retried_log (Demo.env Runs.flaky_vision Runs.no_llm) 0 0 2 Runs.png
      ++ snd (try_body (Demo.env Runs.flaky_vision Runs.no_llm) 0 2
                Runs.png))%list)
  /\ slept (retried_log (Demo.env Runs.flaky_vision Runs.no_llm) 0 0 2
              Runs.png
            ++ snd (try_body (Demo.env Runs.flaky_vision Runs.no_llm) 0 2
                      Runs.png))
     = (2 * Z.of_nat 2)%Z
  /\ (count_vision
        (retried_log (Demo.env Runs.flaky_vision Runs.no_llm) 0 0 2 Runs.png
         ++ snd (try_body (Demo.env Runs.flaky_vision Runs.no_llm) 0 2
                   Runs.png))
      <= 2 + 1)%nat.
Proof.
  apply (retry_schedule (Demo.env Runs.flaky_vision Runs.no_llm) 0 2 []
           Runs.png "hello").
  - reflexivity.
  - unfold max_retries. lia.
  - exact flaky_first_image.
Defined.

(** X15: when the images before an upload succeed and the OCR of that
    upload, fresh, fails for good at attempt [k] (with an error that is not
    transient, or with any error at the third attempt, after transient
    failures only), the batch is aborted: the call raises the status-500
    error whose detail gives the 1-based index of the image and, after the
    words "after 3 attempts", the message of the last error, and the texts
    of the images before it are not returned. *)
Theorem failed_image_aborts_the_batch (E : Env) (w : World)
    (before : list UploadFile) (texts : list string) (k : nat)
    (f : UploadFile) (after : list UploadFile) (e : Exception) :
  images w = (before ++ f :: after)%list ->
  all_succeed E 0 before texts ->
  position f = 0%nat ->
  (k < max_retries)%nat ->
  fails_at E (List.length before) k f e ->
  fst (extract_text_from_images E w)
  = inl (HTTPException 500
           ("Error extracting text from image "
            ++ PyStr.of_nat (List.length before + 1)
            ++ " after 3 attempts: " ++ exception_str E e)).
Proof.
  intros Himg Hall Hpos Hk Hfail.
  now rewrite (extract_aborts E w before texts k f after e Himg Hall Hpos Hk
                 Hfail).
Qed.

Lemma failed_image_aborts_the_batch_witness :
  fst (extract_text_from_images (Demo.env Runs3.stubborn_vision Runs.no_llm)
         (Demo.request [Runs.png; Runs.jpeg; Runs.png]))
  = inl (HTTPException 500
           ("Error extracting text from image "
            ++ PyStr.of_nat (List.length [Runs.png] + 1)
            ++ " after 3 attempts: "
            ++ exception_str (Demo.env Runs3.stubborn_vision Runs.no_llm)
                 (Error "Request Timeout"))).
Proof.
  apply (failed_image_aborts_the_batch
           (Demo.env Runs3.stubborn_vision Runs.no_llm)
           (Demo.request [Runs.png; Runs.jpeg; Runs.png])
           [Runs.png] ["page"] 2 Runs.jpeg [Runs.png]
           (Error "Request Timeout")).
  - reflexivity.
  - simpl. repeat split.
    exists 0%nat. split; [unfold max_retries; lia |]. split.
    + intros j Hj. lia.
    + reflexivity.
  - reflexivity.
  - unfold max_retries. lia.
  - split; [| split].
    + intros j Hj.
      destruct j as [| [| j]]; [| | lia]; eexists; split; reflexivity.
    + reflexivity.
    + right. reflexivity.
Defined.

(** ** The form field [question_types] *)

Lemma split_not_nil (sep : ascii) (s : string) : PyStr.split sep s <> [].
Proof.
  destruct s as [| c s]; simpl; [discriminate |].
  destruct (Ascii.eqb c sep); [discriminate |].
  destruct (PyStr.split sep s); discriminate.
Qed.

Lemma split_trailing_separator (sep : ascii) :
  forall s : string,
    PyStr.split sep (s ++ String sep EmptyString)
    = (PyStr.split sep s ++ [EmptyString])%list.
Proof.
  induction s as [| c s IH]; simpl.
  - now rewrite Ascii.eqb_refl.
  - destruct (Ascii.eqb c sep); [now rewrite IH |].
    rewrite IH.
    destruct (PyStr.split sep s) as [| x xs] eqn:Hs; [| reflexivity].
    now elim (split_not_nil sep s).
Qed.

(** X16: a [question_types] field that ends with a comma is refused with
    status 400, whatever stands before the comma and whatever the rest of
    the request is: the empty name after the last comma is not a valid
    type.  Nothing is read and no model is called. *)
Theorem trailing_comma_is_refused (E : Env) (subject : string) (n : Z)
    (difficulty question_types : string) (w : World) :
  exists detail,
    generate_questions E subject n difficulty (question_types ++ ",") w
    = (inl (HTTPException 400 detail), w).
Proof.
  apply generate_questions_rejects.
  right. right.
  exists (map PyStr.strip (PyStr.split ","%char (question_types ++ ","))),
    EmptyString.
  repeat split.
  - unfold parse_types.
    destruct question_types; reflexivity.
  - change (question_types ++ ",")
      with (question_types ++ String ","%char EmptyString).
    rewrite split_trailing_separator, map_app. apply in_or_app.
    right. now left.
  - simpl. intros [H | [H | [H | []]]]; discriminate.
Qed.

(** X17: an empty [question_types] field stands for the three types: the
    request is handled exactly as with the default value of the field, the
    prompt naming all three types. *)
Theorem empty_question_types_means_all (E : Env) (subject : string) (n : Z)
    (difficulty : string) (w : World) :
  generate_questions E subject n difficulty EmptyString w
  = generate_questions E subject n difficulty
      "multiple_choice,short_answer,true_false" w.
Proof.
  unfold generate_questions.
  destruct (List.length (images w) <? 2)%nat; [reflexivity |].
  change (parse_types EmptyString) with (@None (list string)).
  change (parse_types "multiple_choice,short_answer,true_false")
    with (Some default_question_types).
  change (List.find (fun qt => negb (PyStr.mem qt valid_types))
            default_question_types) with (@None string).
  destruct (negb (PyStr.mem difficulty valid_difficulties)); reflexivity.
Qed.

(** * Properties of the authentication and user controllers *)

Ltac monad :=
  cbv beta iota zeta
      delta [Auth.bind Auth.ret Auth.raise Auth.lift Auth.call Auth.select
             Auth.insert Auth.best_effort Auth.getitem Auth.guarded
             Auth.wrapped].

Lemma user_response_strict_pure (S : Auth.Services) (u : Dict.t)
    (log : list Auth.Call) :
  Auth.user_response_strict S u log
  = (fst (Auth.user_response_strict S u []), log).
Proof.
  unfold Auth.user_response_strict. monad.
  repeat match goal with
    | |- context [Dict.get ?k u] => destruct (Dict.get k u)
    end; reflexivity.
Qed.

Lemma user_response_lenient_pure (S : Auth.Services) (u : Dict.t)
    (log : list Auth.Call) :
  Auth.user_response_lenient S u log
  = (fst (Auth.user_response_lenient S u []), log).
Proof.
  unfold Auth.user_response_lenient. monad.
  repeat match goal with
    | |- context [match Dict.get ?k u with Some _ => _ | None => _ end] =>
        destruct (Dict.get k u)
    end; reflexivity.
Qed.

Lemma user_response_strict_insert (S : Auth.Services)
    (ins : string -> Dict.t -> Result (list Dict.t)) (u : Dict.t) :
  fst (Auth.user_response_strict (Auth.with_insert S ins) u [])
  = fst (Auth.user_response_strict S u []).
Proof. reflexivity. Qed.

(** X18: the record of a login in [login_history] is best effort: whether
    the insertion succeeds, fails or raises has no influence on what the
    login route returns or raises. *)
Theorem login_does_not_depend_on_its_history (S : Auth.Services)
    (ins : string -> Dict.t -> Result (list Dict.t))
    (credentials : Auth.UserLoginRequest) (log : list Auth.Call) :
  fst (Auth.login (Auth.with_insert S ins) credentials log)
  = fst (Auth.login S credentials log).
Proof.
  unfold Auth.login, Auth.guarded, Auth.authenticate_user. monad.
  cbn [Auth.execute_select Auth.with_insert Auth.verify_password
       Auth.create_access_token Auth.access_token_expire_minutes
       Auth.str_of Auth.execute_insert].
  destruct (Auth.execute_select S "users" "*" "email" _) as [e | rows];
    [reflexivity |].
  destruct rows as [| user rows]; [reflexivity |].
  destruct (Dict.get "password_hash" user) as [hashed |]; [| reflexivity].
  destruct (Auth.verify_password S _ hashed) as [e | verified];
    [reflexivity |].
  destruct verified; cbn [negb]; [| reflexivity].
  destruct (Dict.get "is_active" user) as [active |]; [| reflexivity].
  destruct (Auth.truthy active); cbn [negb]; [| reflexivity].
  destruct (Dict.get "id" user) as [sub |]; [| reflexivity].
  destruct (Dict.get "email" user) as [mail |]; [| reflexivity].
  destruct (Auth.create_access_token S sub mail _) as [e | token];
    [reflexivity |].
  cbn [snd fst].
  rewrite (user_response_strict_pure (Auth.with_insert S ins) user).
  rewrite (user_response_strict_pure S user).
  rewrite user_response_strict_insert.
  destruct (fst (Auth.user_response_strict S user [])); reflexivity.
Qed.

Lemma logout_message_response (S : Auth.Services) :
  Auth.MessageResponse_init S Auth.logout_message = inr Auth.logged_out.
Proof. reflexivity. Qed.

Lemma reset_message_response (S : Auth.Services) :
  Auth.MessageResponse_init S Auth.reset_message = inr Auth.reset_requested.
Proof. reflexivity. Qed.

(** X19: a logout never fails because of the database, and the insertion
    into [login_history] has no influence on its outcome; the route returns
    the message "Successfully logged out" or raises an [HTTPException], and
    nothing else. *)
Theorem logout_is_best_effort (S : Auth.Services)
    (ins : string -> Dict.t -> Result (list Dict.t))
    (authorization : option string) (log : list Auth.Call) :
  fst (Auth.logout (Auth.with_insert S ins) authorization log)
  = fst (Auth.logout S authorization log)
  /\ match fst (Auth.logout S authorization log) with
     | inr m => m = Auth.logged_out
     | inl e => is_HTTPException e = true
     end.
Proof.
  unfold Auth.logout, Auth.logout_user. monad.
  cbn [Auth.decode_access_token Auth.with_insert Auth.str_of].
  destruct authorization as [header |]; [| split; reflexivity].
  destruct (PyStr.is_empty header || negb (Auth.startswith header "Bearer "));
    [split; reflexivity |].
  destruct (Auth.decode_access_token S _) as [e | payload].
  - split; [reflexivity |]. cbn [fst].
    destruct (is_HTTPException e) eqn:He; [exact He | reflexivity].
  - destruct payload as [[| claim claims] |]; split; reflexivity.
Qed.

(** X20: the forgot-password route has two outcomes, the message "If the
    email exists, a password reset link has been sent" with [success] set,
    and status 500.  An unknown email costs one query, inserts nothing and
    gets the message.  A known email costs the query, a token of 32 random
    bytes and the insertion of one row holding the id of the user, the token
    and the expiry 24 hours later; it gets the same message when the
    insertion returns, and status 500 with the text of the error when the
    insertion raises, so that the two answers agree only as long as the
    insertion succeeds. *)
Theorem reset_request_outcomes (S : Auth.Services) (email : string)
    (log : list Auth.Call) :
  match fst (Auth.forgot_password S email log) with
  | inr m => m = Auth.reset_requested
  | inl e => exists detail, e = HTTPException 500 detail
  end
  /\ (Auth.execute_select S "users" "id, email" "email" (JString email)
      = inr [] ->
      Auth.forgot_password S email log
      = (inr Auth.reset_requested,
         (log ++ [Auth.Select "users" "id, email" "email"
                    (JString email)])%list))
  /\ (forall (user : Dict.t) (rest : list Dict.t) (uid : json) (expiry : Z),
        Auth.execute_select S "users" "id, email" "email" (JString email)
        = inr (user :: rest) ->
        Dict.get "id" user = Some uid ->
        Auth.get_token_expiry S 24 = inr expiry ->
        Auth.forgot_password S email log
        = (match Auth.execute_insert S "password_reset_tokens"
                   (Auth.reset_row S uid expiry) with
           | inr _ => inr Auth.reset_requested
           | inl e =>
               inl (HTTPException 500
                      ("An error occurred processing your request: "
                       ++ Auth.str_of S e))
           end,
           (log ++ [Auth.Select "users" "id, email" "email" (JString email);
                    Auth.RandomToken 32;
                    Auth.Insert "password_reset_tokens"
                      (Auth.reset_row S uid expiry)])%list)).
Proof.
  unfold Auth.forgot_password, Auth.request_password_reset,
    Auth.generate_reset_token, Auth.reset_row. monad.
  split; [| split].
  - destruct (Auth.execute_select S _ _ _ _) as [e | rows];
      [cbn; eauto |].
    destruct rows as [| user rows]; [reflexivity |].
    destruct (Auth.get_token_expiry S 24) as [e | t]; [cbn; eauto |].
    destruct (Dict.get "id" user) as [uid |]; [| cbn; eauto].
    destruct (Auth.execute_insert S _ _) as [e | inserted];
      [cbn; eauto | reflexivity].
  - intros H. rewrite H. reflexivity.
  - intros user rest uid expiry Hq Hid Hexp. rewrite Hq, Hexp, Hid.
    destruct (Auth.execute_insert S _ _) as [e | inserted].
    + cbn. now rewrite <- !app_assoc.
    + cbn. now rewrite <- !app_assoc.
Qed.

Lemma reset_request_outcomes_witness :
  Auth.forgot_password
    (Auth.with_insert AuthDemo.services AuthDemo.failing_insert)
    "alice@example.org" []
  = (inl (HTTPException 500
            "An error occurred processing your request: connection refused"),
     [Auth.Select "users" "id, email" "email" (JString "alice@example.org");
      Auth.RandomToken 32;
      Auth.Insert "password_reset_tokens"
        (Auth.reset_row AuthDemo.services (JString "1")
           63900086400000000)])
  /\ Auth.forgot_password
       (Auth.with_insert AuthDemo.services AuthDemo.failing_insert)
       "nobody@example.org" []
     = (inr Auth.reset_requested,
        [Auth.Select "users" "id, email" "email"
           (JString "nobody@example.org")]).
Proof.
  split.
  - destruct (reset_request_outcomes
                (Auth.with_insert AuthDemo.services AuthDemo.failing_insert)
                "alice@example.org" []) as (_ & _ & known).
    apply (known AuthDemo.alice [] (JString "1") 63900086400000000%Z);
      vm_compute; reflexivity.
  - destruct (reset_request_outcomes
                (Auth.with_insert AuthDemo.services AuthDemo.failing_insert)
                "nobody@example.org" []) as (_ & unknown & _).
    apply unknown. vm_compute. reflexivity.
Defined.

(** X21: an unknown email and a wrong password are answered alike: in both
    cases the login route raises status 401 with the detail "Invalid email
    or password", after the query for the account and, for a known email,
    the verification of the password; no token is created and nothing is
    inserted. *)
Theorem bad_logins_look_alike (S : Auth.Services)
    (credentials : Auth.UserLoginRequest) (calls log : list Auth.Call) :
  Auth.bad_login S credentials calls ->
  Auth.login S credentials log
  = (inl (HTTPException 401 "Invalid email or password"),
     (log ++ calls)%list).
Proof.
  unfold Auth.bad_login, Auth.account_query, Auth.login,
    Auth.authenticate_user.
  intros [[Hq ->] | (user & rest & hashed & Hq & Hh & Hv & ->)]; monad;
    rewrite Hq.
  - reflexivity.
  - rewrite Hh, Hv. cbn. now rewrite <- app_assoc.
Qed.

Lemma bad_logins_look_alike_witness :
  Auth.login AuthDemo.services
    (AuthDemo.credentials "alice@example.org" "guess") []
  = (inl (HTTPException 401 "Invalid email or password"),
     ([] ++ [Auth.Select "users" "*" "email" (JString "alice@example.org");
             Auth.VerifyPassword "guess" (JString "h:Secret123")])%list).
Proof.
  apply (bad_logins_look_alike AuthDemo.services
           (AuthDemo.credentials "alice@example.org" "guess")).
  right. exists AuthDemo.alice, [], (JString "h:Secret123").
  repeat split.
Defined.

(** X22: a login that returns has found an account for the email, verified
    the password against the hash of the first row, and found the account
    active; the token returned is the one created for the id and the email
    of that row, its type is "bearer", and the user returned is built from
    that row. *)
Theorem successful_login (S : Auth.Services)
    (credentials : Auth.UserLoginRequest) (log : list Auth.Call)
    (response : Auth.LoginResponse) :
  fst (Auth.login S credentials log) = inr response ->
  exists account rest hashed active sub mail,
    Auth.account_query S credentials = inr (account :: rest)
    /\ Dict.get "password_hash" account = Some hashed
    /\ Auth.verify_password S (Auth.login_password credentials) hashed
       = inr true
    /\ Dict.get "is_active" account = Some active
    /\ Auth.truthy active = true
    /\ Dict.get "id" account = Some sub
    /\ Dict.get "email" account = Some mail
    /\ Auth.create_access_token S sub mail
         (Auth.access_token_expire_minutes S)
       = inr (Auth.access_token response)
    /\ Auth.token_type response = "bearer"
    /\ fst (Auth.user_response_strict S account [])
       = inr (Auth.user response).
Proof.
  unfold Auth.login, Auth.authenticate_user, Auth.account_query. monad.
  destruct (Auth.execute_select S "users" "*" "email" _) as [e | rows]
    eqn:Hq.
  { cbn. destruct (is_HTTPException e); discriminate. }
  destruct rows as [| account rest]; [discriminate |].
  destruct (Dict.get "password_hash" account) as [hashed |] eqn:Hh;
    [| discriminate].
  destruct (Auth.verify_password S _ hashed) as [e | verified] eqn:Hv.
  { cbn. destruct (is_HTTPException e); discriminate. }
  destruct verified; cbn [negb]; [| discriminate].
  destruct (Dict.get "is_active" account) as [active |] eqn:Ha;
    [| discriminate].
  destruct (Auth.truthy active) eqn:Hactive; cbn [negb]; [| discriminate].
  destruct (Dict.get "id" account) as [sub |] eqn:Hi; [| discriminate].
  destruct (Dict.get "email" account) as [mail |] eqn:Hm; [| discriminate].
  destruct (Auth.create_access_token S sub mail _) as [e | token] eqn:Htoken.
  { cbn. destruct (is_HTTPException e); discriminate. }
  cbn [snd fst].
  rewrite (user_response_strict_pure S account).
  destruct (fst (Auth.user_response_strict S account [])) as [e | u] eqn:Hu.
  { cbn. destruct (is_HTTPException e); discriminate. }
  cbn. intros H. injection H as <-.
  exists account, rest, hashed, active, sub, mail. cbn. repeat split; auto.
Qed.

Lemma successful_login_witness :
  exists account rest hashed active sub mail,
    Auth.account_query AuthDemo.services
      (AuthDemo.credentials "bob@example.org" "Passw0rdX")
    = inr (account :: rest)
    /\ Dict.get "password_hash" account = Some hashed
    /\ Auth.verify_password AuthDemo.services "Passw0rdX" hashed = inr true
    /\ Dict.get "is_active" account = Some active
    /\ Auth.truthy active = true
    /\ Dict.get "id" account = Some sub
    /\ Dict.get "email" account = Some mail
    /\ Auth.create_access_token AuthDemo.services sub mail 30
       = inr "token-of-2"
    /\ "bearer" = "bearer"
    /\ fst (Auth.user_response_strict AuthDemo.services account [])
       = fst (Auth.user_response_strict AuthDemo.services AuthDemo.bob []).
Proof.
  apply (successful_login AuthDemo.services
           (AuthDemo.credentials "bob@example.org" "Passw0rdX") []
           {| Auth.access_token := "token-of-2";
              Auth.token_type := "bearer";
              Auth.user :=
                match fst (Auth.user_response_strict AuthDemo.services
                             AuthDemo.bob []) with
                | inr u => u
                | inl _ =>
                    {| Auth.id := EmptyString; Auth.email := EmptyString;
                       Auth.first_name := EmptyString;
                       Auth.last_name := EmptyString;
                       Auth.role := EmptyString; Auth.teacher_id := None;
                       Auth.age := None; Auth.gender := None;
                       Auth.organization := None;
                       Auth.profile_image := None;
                       Auth.is_active := false; Auth.is_verified := false |}
                end |}).
  vm_compute. reflexivity.
Defined.

(** X23: a token issued for [hours] hours expires [hours] hours after the
    time of issue and not before: it counts as expired at the instants that
    are strictly later, the instant of expiry itself being still valid. *)
Theorem token_lifetime (S : Auth.Services) (hours expires_at now : Z) :
  Auth.get_token_expiry S hours = inr expires_at ->
  expires_at = (Auth.utcnow S + hours * Auth.hour)%Z
  /\ (0 <= expires_at <= Auth.max_datetime)%Z
  /\ (Auth.is_token_expired (Auth.at_time S now) expires_at = true
      <-> (Auth.utcnow S + hours * Auth.hour < now)%Z).
Proof.
  unfold Auth.get_token_expiry, Auth.timedelta_hours, Auth.datetime_add,
    Auth.is_token_expired.
  destruct (Z.abs (hours * Auth.hour / Auth.day) >? 999999999)%Z;
    [discriminate |].
  destruct ((Auth.utcnow S + hours * Auth.hour <? 0)%Z
            || (Auth.utcnow S + hours * Auth.hour >? Auth.max_datetime)%Z)
    eqn:Hrange; [discriminate |].
  intros H. injection H as <-.
  apply orb_false_elim in Hrange. destruct Hrange as [H0 Hmax].
  apply Z.ltb_ge in H0. rewrite Z.gtb_ltb in Hmax. apply Z.ltb_ge in Hmax.
  split; [reflexivity |]. split; [lia |].
  cbn [Auth.utcnow Auth.at_time]. rewrite Z.gtb_ltb. apply Z.ltb_lt.
Qed.

Lemma token_lifetime_witness :
  63900086400000000%Z = (Auth.utcnow AuthDemo.services + 24 * Auth.hour)%Z
  /\ (0 <= 63900086400000000 <= Auth.max_datetime)%Z
  /\ (Auth.is_token_expired
        (Auth.at_time AuthDemo.services 63900086400000000)
        63900086400000000 = true
      <-> (Auth.utcnow AuthDemo.services + 24 * Auth.hour
           < 63900086400000000)%Z).
Proof.
  apply (token_lifetime AuthDemo.services 24 63900086400000000
           63900086400000000).
  reflexivity.
Defined.

Lemma prefix_nil (s : string) : String.prefix EmptyString s = true.
Proof. destruct s; reflexivity. Qed.

Lemma prefix_append (p s : string) : String.prefix p (p ++ s) = true.
Proof.
  induction p as [| c p IH]; simpl; [apply prefix_nil |].
  destruct (ascii_dec c c); [exact IH | congruence].
Qed.

Lemma drop_append (p s : string) : Auth.drop (String.length p) (p ++ s) = s.
Proof.
  induction p as [| c p IH]; simpl; [reflexivity | exact IH].
Qed.

Lemma replace_absent (old new : string) :
  forall (fuel : nat) (s : string),
    PyStr.contains old s = false ->
    Auth.replace_fuel fuel old new s = s.
Proof.
  induction fuel as [| fuel IH]; intros s H; [reflexivity |].
  destruct s as [| c s]; [reflexivity |].
  simpl in H. apply orb_false_elim in H. destruct H as [Hp Hc].
  cbn [Auth.replace_fuel].
  change (String.prefix old (String c s)) with
    (match old with
     | EmptyString => true
     | String a old' =>
         if ascii_dec a c then String.prefix old' s else false
     end).
  rewrite Hp. now rewrite IH.
Qed.

Lemma replace_bearer (t : string) :
  PyStr.contains "Bearer " t = false ->
  Auth.replace "Bearer " EmptyString ("Bearer " ++ t) = t.
Proof.
  intros H. unfold Auth.replace.
  change (String.length ("Bearer " ++ t)) with (S (6 + String.length t)).
  cbn [Auth.replace_fuel].
  change (String.prefix "Bearer " ("Bearer " ++ t)) with
    (String.prefix EmptyString t).
  rewrite prefix_nil.
  change (Auth.drop (String.length "Bearer ") ("Bearer " ++ t)) with t.
  now rewrite replace_absent.
Qed.

(** X24: the logout route takes the token out of the header: for a header
    made of "Bearer " and a token that does not itself contain "Bearer ",
    the first thing the route does is to decode exactly that token.  A
    header that does not start with "Bearer ", or no header, is refused with
    status 401 before any service is called. *)
Theorem bearer_token_is_decoded (S : Auth.Services) (t : string)
    (log : list Auth.Call) :
  PyStr.contains "Bearer " t = false ->
  (exists r calls,
     Auth.logout S (Some ("Bearer " ++ t)) log
     = (r, (log ++ Auth.DecodeToken t :: calls)%list))
  /\ (forall header,
        Auth.startswith header "Bearer " = false ->
        Auth.logout S (Some header) log
        = (inl (HTTPException 401 "Missing or invalid authorization header"),
           log))
  /\ Auth.logout S None log
     = (inl (HTTPException 401 "Missing or invalid authorization header"),
        log).
Proof.
  intros Ht. split; [| split].
  - unfold Auth.logout, Auth.logout_user. monad.
    change (PyStr.is_empty ("Bearer " ++ t)) with false.
    unfold Auth.startswith. rewrite (prefix_append "Bearer " t).
    cbn [orb negb].
    rewrite (replace_bearer t Ht).
    destruct (Auth.decode_access_token S t) as [e | payload].
    + destruct (is_HTTPException e); eexists _, []; reflexivity.
    + destruct payload as [[| claim claims] |].
      * eexists _, []. reflexivity.
      * eexists _, [_]. cbn. rewrite <- app_assoc. reflexivity.
      * eexists _, []. reflexivity.
  - intros header H. unfold Auth.logout. monad. rewrite H.
    now rewrite orb_true_r.
  - reflexivity.
Qed.

Lemma bearer_token_is_decoded_witness :
  (exists r calls,
     Auth.logout AuthDemo.services (Some ("Bearer " ++ "token-of-2")) []
     = (r, ([] ++ Auth.DecodeToken "token-of-2" :: calls)%list))
  /\ (forall header,
        Auth.startswith header "Bearer " = false ->
        Auth.logout AuthDemo.services (Some header) []
        = (inl (HTTPException 401 "Missing or invalid authorization header"),
           []))
  /\ Auth.logout AuthDemo.services None []
     = (inl (HTTPException 401 "Missing or invalid authorization header"),
        []).
Proof.
  apply (bearer_token_is_decoded AuthDemo.services "token-of-2" []).
  reflexivity.
Defined.

Lemma absent_some (tid : string) :
  tid <> EmptyString -> Auth.absent (Some tid) = false.
Proof.
  intros H. simpl. now apply is_empty_false.
Qed.

Lemma differs_from_teacher (r : json) :
  r <> JString "teacher" -> Auth.differs_from r "teacher" = true.
Proof.
  intros H. destruct r; try reflexivity. simpl.
  destruct (String.eqb s "teacher") eqn:Heq; [| reflexivity].
  apply String.eqb_eq in Heq. subst. now elim H.
Qed.

(** X25: a registration is refused, before anything is hashed or inserted,
    when the email is already registered (400), when a student names no
    teacher (400), a teacher that does not exist (404) or a user that is not
    a teacher (400), and when a teacher names a teacher (400); the only
    calls made are the queries. *)
Theorem refused_registration (S : Auth.Services)
    (d : Auth.UserRegisterRequest) (e : Exception)
    (calls log : list Auth.Call) :
  Auth.refused S d e calls ->
  Auth.register S d log = (inl e, (log ++ calls)%list)
  /\ Forall (fun c => Auth.is_select c = true) calls.
Proof.
  intros H. unfold Auth.register, Auth.register_user.
  destruct H as [row rows Hq | Hq Hr Ha | tid Hq Hr Ht Hne Hf
                 | tid row rows r Hq Hr Ht Hne Hf Hrole Hnot
                 | tid Hq Hr Ht Hne]; monad; rewrite Hq.
  - split; [reflexivity | repeat constructor].
  - rewrite Hr, Ha. split; [reflexivity | repeat constructor].
  - rewrite Hr, Ht, (absent_some tid Hne). cbn [Auth.of_option_string].
    rewrite Hf. cbn. rewrite <- app_assoc.
    split; [reflexivity | repeat constructor].
  - rewrite Hr, Ht, (absent_some tid Hne). cbn [Auth.of_option_string].
    rewrite Hf, Hrole, (differs_from_teacher r Hnot). cbn.
    rewrite <- app_assoc. split; [reflexivity | repeat constructor].
  - rewrite Hr, Ht, (absent_some tid Hne). cbn.
    split; [reflexivity | repeat constructor].
Qed.

Lemma refused_registration_witness :
  Auth.register AuthDemo.services (AuthDemo.newcomer Auth.student (Some "2"))
    []
  = (inl (HTTPException 400 "The provided user is not a teacher"),
     ([] ++ [Auth.Select "users" "*" "email" (JString "dave@example.org");
             Auth.Select "users" "id, role" "id" (JString "2")])%list)
  /\ Forall (fun c => Auth.is_select c = true)
       [Auth.Select "users" "*" "email" (JString "dave@example.org");
        Auth.Select "users" "id, role" "id" (JString "2")].
Proof.
  apply (refused_registration AuthDemo.services
           (AuthDemo.newcomer Auth.student (Some "2"))).
  apply (Auth.not_a_teacher AuthDemo.services
           (AuthDemo.newcomer Auth.student (Some "2")) "2" AuthDemo.bob []
           (JString "student")); try reflexivity; discriminate.
Defined.

(** X26: a registration that passes the checks hashes the password and
    inserts one row into [users]: the row holds the hash under
    [password_hash] and has no column for the password itself, the role, and
    the teacher of a student, a teacher being stored without one.  The response is built from
    the row the database returns. *)
Theorem accepted_registration (S : Auth.Services)
    (d : Auth.UserRegisterRequest) (checks : list Auth.Call)
    (hashed : string) (row : Dict.t) (rows : list Dict.t)
    (log : list Auth.Call) :
  Auth.admissible S d checks ->
  Auth.hash_password S (Auth.reg_password d) = inr hashed ->
  Auth.execute_insert S "users" (Auth.new_user_row d hashed)
  = inr (row :: rows) ->
  snd (Auth.register S d log)
  = (log ++ checks
     ++ [Auth.HashPassword (Auth.reg_password d);
         Auth.Insert "users" (Auth.new_user_row d hashed)])%list
  /\ (forall u,
        fst (Auth.user_response_strict S row []) = inr u ->
        fst (Auth.register S d log) = inr u).
Proof.
  intros [Hq Hrole] Hh Hi.
  unfold Auth.register, Auth.register_user, Auth.new_user_row in *. monad.
  rewrite Hq.
  destruct (Auth.reg_role d) eqn:Hr.
  - destruct Hrole as [Ha ->]. rewrite Ha. cbn [negb].
    rewrite Hh, Hi.
    rewrite (user_response_strict_pure S row).
    destruct (fst (Auth.user_response_strict S row [])) as [e | u'].
    + destruct (is_HTTPException e); cbn; rewrite <- !app_assoc;
        (split; [reflexivity | intros u H; discriminate]).
    + cbn. rewrite <- !app_assoc. split; [reflexivity |].
      intros u H. exact H.
  - destruct Hrole as (tid & trow & trows & Ht & Hne & Hf & Hrole & ->).
    rewrite Ht in *. rewrite (absent_some tid Hne).
    cbn [Auth.of_option_string] in *.
    rewrite Hf, Hrole.
    change (Auth.differs_from (JString "teacher") "teacher") with false.
    cbv iota. rewrite Hh, Hi.
    rewrite (user_response_strict_pure S row).
    destruct (fst (Auth.user_response_strict S row [])) as [e | u'].
    + destruct (is_HTTPException e); cbn; rewrite <- !app_assoc;
        (split; [reflexivity | intros u H; discriminate]).
    + cbn. rewrite <- !app_assoc. split; [reflexivity |].
      intros u H. exact H.
Qed.

Lemma accepted_registration_witness :
  snd (Auth.register AuthDemo.services
         (AuthDemo.newcomer Auth.student (Some "1")) [])
  = ([] ++ [Auth.Select "users" "*" "email" (JString "dave@example.org");
            Auth.Select "users" "id, role" "id" (JString "1")]
     ++ [Auth.HashPassword "Welcome123";
         Auth.Insert "users"
           (Auth.new_user_row (AuthDemo.newcomer Auth.student (Some "1"))
              "h:Welcome123")])%list
  /\ (forall u,
        fst (Auth.user_response_strict AuthDemo.services
               ((("id", JString "4")
                 :: Auth.new_user_row
                      (AuthDemo.newcomer Auth.student (Some "1"))
                      "h:Welcome123"
                 ++ [("is_active", JBool true);
                     ("is_verified", JBool false)])%list) [])
        = inr u ->
        fst (Auth.register AuthDemo.services
               (AuthDemo.newcomer Auth.student (Some "1")) [])
        = inr u).
Proof.
  apply (accepted_registration AuthDemo.services
           (AuthDemo.newcomer Auth.student (Some "1"))
           [Auth.Select "users" "*" "email" (JString "dave@example.org");
            Auth.Select "users" "id, role" "id" (JString "1")]
           "h:Welcome123"
           ((("id", JString "4")
             :: Auth.new_user_row (AuthDemo.newcomer Auth.student (Some "1"))
                  "h:Welcome123"
             ++ [("is_active", JBool true); ("is_verified", JBool false)])%list)
           [] []).
  - split; [reflexivity |].
    exists "1", AuthDemo.alice, []. repeat split. discriminate.
  - reflexivity.
  - reflexivity.
Defined.

Lemma each_user_all (S : Auth.Services) :
  forall (rows : list Dict.t) (log : list Auth.Call)
         (l : list Auth.UserResponse),
    fst (Auth.each_user S rows log) = inr l ->
    Forall2 (fun row u => fst (Auth.user_response_lenient S row []) = inr u)
      rows l.
Proof.
  induction rows as [| row rows IH]; intros log l H.
  - cbn in H. injection H as <-. constructor.
  - cbn [Auth.each_user] in H. revert H. monad. intros H.
    rewrite (user_response_lenient_pure S row) in H.
    destruct (fst (Auth.user_response_lenient S row [])) as [e | u] eqn:Hu;
      [discriminate |].
    destruct (Auth.each_user S rows log) as [[e | us] log'] eqn:Hus;
      [discriminate |].
    cbn in H. injection H as <-.
    constructor; [exact Hu |].
    apply (IH log). now rewrite Hus.
Qed.

(** X27: the list of the students of a teacher is all or nothing: when the
    route returns, the given id is that of a user whose role is "teacher",
    and the list has exactly one entry per row found for that teacher, in
    the order of the rows, each built from its row. *)
Theorem students_are_listed_in_full (S : Auth.Services) (teacher_id : string)
    (log : list Auth.Call) (l : list Auth.UserResponse) :
  fst (Auth.list_students_by_teacher S teacher_id log) = inr l ->
  exists t ts rows,
    Auth.execute_select S "users" "id, role" "id" (JString teacher_id)
    = inr (t :: ts)
    /\ Dict.get "role" t = Some (JString "teacher")
    /\ Auth.execute_select S "users" "*" "teacher_id" (JString teacher_id)
       = inr rows
    /\ Forall2 (fun row u =>
                  fst (Auth.user_response_lenient S row []) = inr u)
         rows l
    /\ List.length l = List.length rows.
Proof.
  unfold Auth.list_students_by_teacher, Auth.get_students_by_teacher. monad.
  destruct (Auth.execute_select S "users" "id, role" "id" _) as [e | found]
    eqn:Hf.
  { cbn. destruct (is_HTTPException e); discriminate. }
  destruct found as [| t ts]; [discriminate |].
  destruct (Dict.get "role" t) as [r |] eqn:Hr; [| discriminate].
  destruct (Auth.differs_from r "teacher") eqn:Hd; [discriminate |].
  destruct (Auth.execute_select S "users" "*" "teacher_id" _) as [e | rows]
    eqn:Hs.
  { cbn. destruct (is_HTTPException e); discriminate. }
  destruct (Auth.each_user S rows _) as [[e | us] log'] eqn:Hus.
  { cbn. destruct (is_HTTPException e); discriminate. }
  cbn. intros H. injection H as <-.
  assert (Hall : Forall2 (fun row u =>
                            fst (Auth.user_response_lenient S row [])
                            = inr u) rows us).
  { eapply each_user_all. now rewrite Hus. }
  exists t, ts, rows. repeat split; auto.
  - f_equal. destruct r; try discriminate.
    simpl in Hd. apply negb_false_iff in Hd. apply String.eqb_eq in Hd.
    now subst.
  - symmetry. exact (Forall2_length Hall).
Qed.

Lemma students_are_listed_in_full_witness :
  exists t ts rows,
    Auth.execute_select AuthDemo.services "users" "id, role" "id"
      (JString "1")
    = inr (t :: ts)
    /\ Dict.get "role" t = Some (JString "teacher")
    /\ Auth.execute_select AuthDemo.services "users" "*" "teacher_id"
         (JString "1")
       = inr rows
    /\ Forall2 (fun row u =>
                  fst (Auth.user_response_lenient AuthDemo.services row [])
                  = inr u)
         rows
         (match fst (Auth.list_students_by_teacher AuthDemo.services "1" [])
          with
          | inr l => l
          | inl _ => []
          end)
    /\ List.length
         (match fst (Auth.list_students_by_teacher AuthDemo.services "1" [])
          with
          | inr l => l
          | inl _ => []
          end)
       = List.length rows.
Proof.
  apply (students_are_listed_in_full AuthDemo.services "1" []).
  vm_compute. reflexivity.
Defined.

Lemma any_has (p : ascii -> bool) (v : string) :
  Auth.any p v = true <-> Auth.has p v.
Proof.
  induction v as [| c v IH]; simpl.
  - split; [discriminate |].
    intros (a & c & b & H & _). destruct a; discriminate.
  - rewrite Bool.orb_true_iff, IH. split.
    + intros [H | (a & c' & b & H & Hp)].
      * exists EmptyString, c, v. now split.
      * exists (String c a), c', b. split; [simpl; now rewrite H | exact Hp].
    + intros (a & c' & b & H & Hp). destruct a as [| x a]; simpl in H.
      * injection H as -> ->. now left.
      * injection H as -> ->. right. now exists a, c', b.
Qed.

(** X28: a password is accepted at registration exactly when it has between
    8 and 72 characters, among them a digit and a capital letter, and it is
    then kept as it is.  A password of fewer than 8 characters is refused by
    the length constraint of the field, before the validator runs, so that
    the validator's own message about the length is never reported. *)
Theorem password_policy (v : string) :
  (Auth.password_field v = inr v
   <-> (8 <= String.length v <= 72)%nat
       /\ Auth.has Auth.isdigit v /\ Auth.has Auth.isupper v)
  /\ (forall accepted, Auth.password_field v = inr accepted -> accepted = v)
  /\ ((String.length v < 8)%nat ->
      Auth.password_field v = inl [("password", "string_too_short")])
  /\ (forall errors,
        Auth.password_field v = inl errors ->
        errors = [("password", "string_too_short")]
        \/ errors = [("password", "string_too_long")]
        \/ errors = [("password",
                      "Value error, Password must contain at least one digit")]
        \/ errors = [("password",
                      "Value error, Password must contain at least one uppercase letter")]).
Proof.
  rewrite <- !any_has.
  unfold Auth.password_field, Auth.validate_password.
  destruct (String.length v <? 8)%nat eqn:Hshort;
    [apply Nat.ltb_lt in Hshort
    | apply Nat.ltb_ge in Hshort;
      destruct (72 <? String.length v)%nat eqn:Hlong;
      [apply Nat.ltb_lt in Hlong
      | apply Nat.ltb_ge in Hlong;
        destruct (Auth.any Auth.isdigit v) eqn:Hdigit;
        destruct (Auth.any Auth.isupper v) eqn:Hupper; cbn]].
  all: split; [| split; [| split]].
  all: try (split;
            [intros H; try discriminate H; repeat split; (lia || reflexivity)
            | intros ((H1 & H2) & H3 & H4);
              (lia || discriminate || reflexivity)]).
  all: try (intros accepted H; try discriminate H;
            injection H as <-; reflexivity).
  all: try (intros H; (lia || reflexivity)).
  all: intros errors H; try discriminate H; injection H as <-; tauto.
Qed.

Lemma password_policy_witness :
  (String.length "Secret1" < 8)%nat
  /\ Auth.password_field "Secret1" = inl [("password", "string_too_short")].
Proof.
  split; [simpl; lia |].
  destruct (password_policy "Secret1") as (_ & _ & short & _).
  apply short. simpl. lia.
Defined.
